(** * Legacy invoice processing script: a shallow embedding

    The development follows [legacy/legacy-invoice-script.py] (Python 2.7):

    - amounts, rates and fees are Python floats, that is IEEE 754 binary64
      values: they are Rocq's primitive floats, whose operations the kernel
      evaluates with the machine's own arithmetic;
    - the two rate tables are dictionaries with string keys: [gmap string float];
    - [print], [log_error] and [sys.exit] are effects: a program yields the
      list of events it emitted and either a value or an exit status;
    - the clock, the directory listing, the content of the files and the
      PDF back end are read from an explicit environment. *)

From Stdlib Require Import ZArith Floats Ascii String List Bool Lia.
From stdpp Require Import base option list gmap strings.
Import ListNotations.

#[local] Set Warnings "-inexact-float".
#[local] Open Scope Z_scope.

(** ** Python's numbers *)

Module PyFloat.

(** [float * int]: the integer operand is converted with the C cast
    [(double)], which is exact below [2^53] and rounds to nearest
    otherwise; machine integers are below [2^63] in absolute value. *)
Definition of_int (z : Z) : float :=
  if z <? 0 then PrimFloat.opp (PrimFloat.of_uint63 (Uint63.of_Z (- z)))
  else PrimFloat.of_uint63 (Uint63.of_Z z).

(** The binary64 value nearest to the rational [(-1)^s * n / d]
    (ties to even), as [_Py_dg_strtod] computes it from a decimal
    string. [SFdiv] divides the two mantissas exactly and rounds once. *)
Definition nearest (s : bool) (n d : positive) : float :=
  SF2Prim (SFdiv prec emax (S754_finite s n 0) (S754_finite false d 0)).

(** [n] is the number of hundredths nearest to [m * 2 ^ e], halves going
    away from zero. *)
Definition hundredths (m : positive) (e : Z) : Z :=
  (200 * Zpos m + 2 ^ (- e)) / 2 ^ (- e + 1).

(** The builtin [round(x, 2)] of Python 2.7: NaN, infinities and zeros
    round to themselves; any other [x] is converted to the decimal with
    two places nearest to its exact value, a value half way between two
    of them going away from zero, and that decimal is converted back to
    the nearest float. A float with a non-negative exponent is an
    integer and is returned unchanged. *)
Definition round2 (x : float) : float :=
  match Prim2SF x with
  | S754_finite s m e =>
      if 0 <=? e then x
      else match hundredths m e with
           | Zpos n => nearest s n 100
           | _ => SF2Prim (S754_zero s)
           end
  | _ => x
  end.

End PyFloat.

(** ** Python's strings *)

Module PyStr.

(** The characters [str.strip()] removes and [float()] skips:
    space, tab, line feed, vertical tab, form feed, carriage return. *)
Definition is_space (c : ascii) : bool :=
  let n := nat_of_ascii c in
  (n =? 32)%nat || ((9 <=? n)%nat && (n <=? 13)%nat).

Definition is_digit (c : ascii) : bool :=
  let n := nat_of_ascii c in (48 <=? n)%nat && (n <=? 57)%nat.

Definition digit_value (c : ascii) : Z := Z.of_nat (nat_of_ascii c) - 48.

Definition upper_char (c : ascii) : ascii :=
  let n := nat_of_ascii c in
  if (97 <=? n)%nat && (n <=? 122)%nat then ascii_of_nat (n - 32) else c.

Definition lower_char (c : ascii) : ascii :=
  let n := nat_of_ascii c in
  if (65 <=? n)%nat && (n <=? 90)%nat then ascii_of_nat (n + 32) else c.

Fixpoint lstrip (s : list ascii) : list ascii :=
  match s with
  | c :: s' => if is_space c then lstrip s' else s
  | [] => []
  end.

Definition rstrip (s : list ascii) : list ascii := rev (lstrip (rev s)).

(** [s.strip()] *)
Definition strip (s : string) : string :=
  string_of_list_ascii (rstrip (lstrip (list_ascii_of_string s))).

(** [s.upper()] *)
Definition upper (s : string) : string :=
  string_of_list_ascii (map upper_char (list_ascii_of_string s)).

(** [c in s] for a one-character [c] *)
Definition contains (c : ascii) (s : string) : bool :=
  existsb (Ascii.eqb c) (list_ascii_of_string s).

(** [s.replace(a, b)] for one-character [a] and [b] *)
Definition replace (a b : ascii) (s : string) : string :=
  string_of_list_ascii
    (map (fun c => if Ascii.eqb c a then b else c) (list_ascii_of_string s)).

(** The longest prefix of decimal digits, and what follows it. *)
Fixpoint span_digits (s : list ascii) : list ascii * list ascii :=
  match s with
  | c :: s' =>
      if is_digit c then let '(ds, r) := span_digits s' in (c :: ds, r)
      else ([], s)
  | [] => ([], [])
  end.

Definition digits_value (ds : list ascii) : Z :=
  fold_left (fun acc c => 10 * acc + digit_value c) ds 0.

(** An optional sign: [true] for a minus. *)
Definition span_sign (s : list ascii) : bool * list ascii :=
  match s with
  | "-"%char :: r => (true, r)
  | "+"%char :: r => (false, r)
  | _ => (false, s)
  end.

End PyStr.

Module PyFloatParse.
Import PyStr.

(** The value of the decimal [(-1)^s * m * 10^e], correctly rounded. *)
Definition of_decimal (s : bool) (m e : Z) : float :=
  match m with
  | Zpos p =>
      match e with
      | Zneg k => PyFloat.nearest s p (10 ^ k)%positive
      | _ => PyFloat.nearest s (p * Z.to_pos (10 ^ e))%positive 1
      end
  | _ => SF2Prim (S754_zero s)
  end.

(** An exponent part [e], [e+] or [e-] followed by at least one digit;
    without a digit nothing is consumed. *)
Definition span_exponent (s : list ascii) : Z * list ascii :=
  match s with
  | c :: r =>
      if Ascii.eqb (lower_char c) "e" then
        let '(neg, r1) := span_sign r in
        match span_digits r1 with
        | ([], _) => (0, s)
        | (ds, r2) => ((if neg then - digits_value ds else digits_value ds), r2)
        end
      else (0, s)
  | [] => (0, [])
  end.

(** [_Py_dg_strtod] after the sign: digits, an optional point and more
    digits, at least one digit in all, then an optional exponent.
    Returns the mantissa, the decimal exponent and the unread rest. *)
Definition span_number (s : list ascii) : option (Z * Z * list ascii) :=
  let '(ip, r) := span_digits s in
  let '(fp, r1) :=
    match r with
    | "."%char :: r' => span_digits r'
    | _ => ([], r)
    end in
  match ip ++ fp with
  | [] => None
  | ds =>
      let '(ex, r2) := span_exponent r1 in
      Some (digits_value ds, ex - Z.of_nat (length fp), r2)
  end.

(** Case-insensitive match of a lower-case word at the head of [s]. *)
Fixpoint case_insensitive_match (s : list ascii) (word : list ascii) : bool :=
  match word, s with
  | [], _ => true
  | w :: word', c :: s' => Ascii.eqb (lower_char c) w && case_insensitive_match s' word'
  | _ :: _, [] => false
  end.

(** [_Py_parse_inf_or_nan] after the sign: [inf], [infinity] or [nan] in
    any case. *)
Definition span_inf_nan (neg : bool) (s : list ascii) : option (float * list ascii) :=
  if case_insensitive_match s (list_ascii_of_string "inf") then
    let s1 := skipn 3 s in
    let s2 := if case_insensitive_match s1 (list_ascii_of_string "inity")
              then skipn 5 s1 else s1 in
    Some ((if neg then neg_infinity else infinity), s2)
  else if case_insensitive_match s (list_ascii_of_string "nan") then
    Some (nan, skipn 3 s)
  else None.

(** [float(s)] for a byte string [s]: [None] stands for [ValueError].
    White space is skipped on both sides and nothing else may remain. *)
Definition float_of_string (s : string) : option float :=
  let body := lstrip (list_ascii_of_string s) in
  let '(neg, r) := span_sign body in
  let parsed :=
    match span_number r with
    | Some (m, e, rest) => Some (of_decimal neg m e, rest)
    | None => span_inf_nan neg r
    end in
  match parsed with
  | Some (x, rest) => match lstrip rest with
                      | [] => Some x
                      | _ => None
                      end
  | None => None
  end.

End PyFloatParse.

(** ** Python's [datetime] *)

Module PyDate.
Import PyStr.

Record datetime := { year : Z; month : Z; day : Z }.

Definition is_leap (y : Z) : bool :=
  (y mod 4 =? 0) && (negb (y mod 100 =? 0) || (y mod 400 =? 0)).

Definition days_in_month (y m : Z) : Z :=
  if m =? 2 then (if is_leap y then 29 else 28)
  else if (m =? 4) || (m =? 6) || (m =? 9) || (m =? 11) then 30
  else 31.

(** The constructor [datetime(y, m, d)] raises [ValueError] outside of
    these bounds ([MINYEAR] is 1 and [MAXYEAR] is 9999). *)
Definition valid_date (y m d : Z) : bool :=
  (1 <=? y) && (y <=? 9999) && (1 <=? m) && (m <=? 12)
  && (1 <=? d) && (d <=? days_in_month y m).

Definition days_before_year (y : Z) : Z :=
  let y' := y - 1 in y' * 365 + y' / 4 - y' / 100 + y' / 400.

Fixpoint days_before_month_from (y : Z) (m : nat) : Z :=
  match m with
  | O => 0
  | S m' => days_before_month_from y m' + days_in_month y (Z.of_nat m)
  end.

Definition days_before_month (y m : Z) : Z :=
  days_before_month_from y (Z.to_nat (m - 1)).

(** [d.toordinal()]: day 1 is 0001-01-01. *)
Definition toordinal (d : datetime) : Z :=
  days_before_year (year d) + days_before_month (year d) (month d) + day d.

(** [(now - due).days] where [due] is a midnight, as [strptime] returns:
    whatever the time of day of [now], the whole days between the two
    dates. *)
Definition days_between (now due : datetime) : Z := toordinal now - toordinal due.

(** The directives of the three formats and the literal characters
    between them. *)
Inductive directive := Dm | Dd | DY | Lit (c : ascii).

Definition in_range (lo hi : ascii) (c : ascii) : bool :=
  (nat_of_ascii lo <=? nat_of_ascii c)%nat && (nat_of_ascii c <=? nat_of_ascii hi)%nat.

(** One alternative of a regular expression: two characters, or one. *)
Definition two (p1 p2 : ascii -> bool) (s : list ascii) : list (Z * list ascii) :=
  match s with
  | c1 :: c2 :: r =>
      if p1 c1 && p2 c2 then [(10 * digit_value c1 + digit_value c2, r)] else []
  | _ => []
  end.

Definition one (p : ascii -> bool) (s : list ascii) : list (Z * list ascii) :=
  match s with
  | c :: r => if p c then [(digit_value c, r)] else []
  | [] => []
  end.

(** The regular expressions of [_strptime.TimeRE], every way to match
    at the head of [s] in the order the matcher tries them:
    - [%m] is [1[0-2]|0[1-9]|[1-9]],
    - [%d] is [3[0-1]|[1-2]\d|0[1-9]|[1-9]| [1-9]],
    - [%Y] is [\d\d\d\d]. *)
Definition re_m (s : list ascii) : list (Z * list ascii) :=
  two (Ascii.eqb "1") (in_range "0" "2") s
  ++ two (Ascii.eqb "0") (in_range "1" "9") s
  ++ one (in_range "1" "9") s.

Definition re_d (s : list ascii) : list (Z * list ascii) :=
  two (Ascii.eqb "3") (in_range "0" "1") s
  ++ two (in_range "1" "2") is_digit s
  ++ two (Ascii.eqb "0") (in_range "1" "9") s
  ++ one (in_range "1" "9") s
  ++ match s with
     | " "%char :: r => one (in_range "1" "9") r
     | _ => []
     end.

Definition re_Y (s : list ascii) : list (Z * list ascii) :=
  match s with
  | c1 :: c2 :: c3 :: c4 :: r =>
      if is_digit c1 && is_digit c2 && is_digit c3 && is_digit c4
      then [(digits_value [c1; c2; c3; c4], r)] else []
  | _ => []
  end.

(** Every match of a format at the head of [s], first match first; the
    fields default to 1900-01-01. *)
Fixpoint matches (fmt : list directive) (acc : datetime) (s : list ascii)
  : list (datetime * list ascii) :=
  match fmt with
  | [] => [(acc, s)]
  | Dm :: fmt' =>
      flat_map (fun '(v, r) => matches fmt' {| year := year acc; month := v; day := day acc |} r)
               (re_m s)
  | Dd :: fmt' =>
      flat_map (fun '(v, r) => matches fmt' {| year := year acc; month := month acc; day := v |} r)
               (re_d s)
  | DY :: fmt' =>
      flat_map (fun '(v, r) => matches fmt' {| year := v; month := month acc; day := day acc |} r)
               (re_Y s)
  | Lit c :: fmt' =>
      match s with
      | c' :: r => if Ascii.eqb c c' then matches fmt' acc r else []
      | [] => []
      end
  end.

(** [datetime.strptime(s, fmt)]: the first match of the format must
    leave no data unconverted and must be a date of the calendar;
    [None] stands for [ValueError]. *)
Definition strptime (s : string) (fmt : list directive) : option datetime :=
  match matches fmt {| year := 1900; month := 1; day := 1 |} (list_ascii_of_string s) with
  | (d, []) :: _ => if valid_date (year d) (month d) (day d) then Some d else None
  | _ => None
  end.

End PyDate.
Export PyDate(datetime, year, month, day).

(** ** The script *)

#[global] Instance float_inhabited : Inhabited float := populate 0%float.

#[local] Open Scope string_scope.
#[local] Open Scope Z_scope.

(** *** Constants *)

Definition CSV_INPUT_PATH : string := "/mnt/finance_share/invoices/pending/".
Definition PDF_OUTPUT_PATH : string := "/mnt/finance_share/invoices/processed/".

Definition STATE_TAX_RATES : gmap string float :=
  <["CA" := 0.0725%float]> (<["NY" := 0.08%float]> (<["TX" := 0.0625%float]>
  (<["FL" := 0.06%float]> (<["WA" := 0.065%float]> (<["DEFAULT" := 0.05%float]> ∅))))).

Definition CUSTOMER_TAX_OVERRIDES : gmap string float :=
  <["CUST001" := 0.0%float]> (<["CUST447" := 0.045%float]>
  (<["CUST892" := 0.0725%float]> ∅)).

Definition LATE_FEE_DAYS : Z := 30.
Definition LATE_FEE_PERCENT : float := 0.015%float.
Definition MIN_INVOICE_AMOUNT : float := 25.00%float.
Definition BULK_DISCOUNT_THRESHOLD : float := 10000.00%float.
Definition BULK_DISCOUNT_RATE : float := 0.03%float.

(** *** Data *)

(** The dictionary [process_csv_file] builds for a row. *)
Record invoice := {
  customer_id : string;
  customer_name : string;
  address : string;
  city : string;
  state : string;
  zip : string;
  amount : float;
  invoice_date : string;
  due_date : string;
  items : string
}.

(** The name [generate_pdf] gives to the document:
    [PDF_OUTPUT_PATH], then customer, date and [total] printed with two
    decimals. The number is kept as it is rather than as its digits. *)
Record pdf_name := {
  pdf_customer : string;
  pdf_date : string;
  pdf_total : float
}.

(** *** Effects *)

(** What the script writes on its standard output. *)
Inductive printed :=
| WarnInsufficientColumns (row_num : nat)
| WarnBelowMinimum (amount : float) (customer_id : string)
| ErrorParsingRow (row_num : nat)
| FatalCannotReadFile (filename : string)
| WarnUnknownState (state : string)
| ErrorCannotParseDate (due_date : string)
| Starting
| InputPath (path : string)
| OutputPath (path : string)
| FatalNoInputPath
| FatalNoOutputPath
| NoCsvFiles
| Processing (csv_file : string)
| FoundValidInvoices (n : nat)
| Generated (pdf : pdf_name)
| WarnCouldNotMove
| ProcessingComplete (total_processed total_failed : nat).

(** What [log_error] appends to [ERROR_LOG]. *)
Inductive logged :=
| ParseError (filename : string) (row_num : nat)
| CannotReadFile (filename : string)
| PdfGenerationFailed.

Inductive event :=
| Print (m : printed)
| LogError (m : logged).

(** A run either goes on with a value or ends in [sys.exit(status)]. *)
Inductive outcome (A : Type) :=
| Returns (a : A)
| Exits (status : Z).
Arguments Returns {A} a.
Arguments Exits {A} status.

(** A program: the events it emits, in order, and how it ends. *)
Definition prog (A : Type) : Type := list event * outcome A.

Definition ret {A} (a : A) : prog A := ([], Returns a).

Definition bind {A B} (p : prog A) (k : A -> prog B) : prog B :=
  match p with
  | (ev, Returns a) => let '(ev', o) := k a in ((ev ++ ev')%list, o)
  | (ev, Exits st) => (ev, Exits st)
  end.

Definition emit (e : event) : prog unit := ([e], Returns tt).
Definition sys_exit {A} (status : Z) : prog A := ([], Exits status).

Declare Scope prog_scope.
Delimit Scope prog_scope with prog.
Notation "x <- p ;; k" := (bind p (fun x => k))
  (at level 100, p at next level, right associativity) : prog_scope.
Notation "p ;; k" := (bind p (fun _ => k))
  (at level 100, right associativity) : prog_scope.
#[local] Open Scope prog_scope.

(** What the script reads from the outside. *)
Record env := {
  (** [datetime.datetime.now()], taken as constant during the run. *)
  now : datetime;
  (** [os.path.exists] *)
  path_exists : string -> bool;
  (** [os.listdir(CSV_INPUT_PATH)] *)
  listdir : list string;
  (** [open(filename, 'rb')] and the reads that follow: the lines of the
      file, or [None] when any of them raises. *)
  read_lines : string -> option (list string);
  (** whether ReportLab writes the document without raising *)
  canvas_ok : pdf_name -> bool;
  (** whether [os.rename] of the processed file succeeds *)
  rename_ok : string -> bool
}.

(** *** The [csv] module, for files without quoted fields *)

Module PyCsv.

Fixpoint split_fields (delimiter : ascii) (field : list ascii) (s : list ascii)
  : list string :=
  match s with
  | [] => [string_of_list_ascii (rev field)]
  | c :: r =>
      if Ascii.eqb c delimiter
      then string_of_list_ascii (rev field) :: split_fields delimiter [] r
      else split_fields delimiter (c :: field) r
  end.

(** An empty line is the empty row. *)
Definition parse_line (delimiter : ascii) (line : string) : list string :=
  match line with
  | EmptyString => []
  | _ => split_fields delimiter [] (list_ascii_of_string line)
  end.

(** [csv.reader(csvfile, delimiter=delimiter)]: the rows, one per line. *)
Definition reader (delimiter : ascii) (lines : list string) : list (list string) :=
  map (parse_line delimiter) lines.

End PyCsv.

(** *** [process_csv_file] *)

(** The body of the [for row_num, row in enumerate(reader)] loop: the
    events of one row and the invoice it appends, if any. *)
Definition process_row (filename : string) (row_num : nat) (row : list string)
  : list event * option invoice :=
  if (length row <? 10)%nat then
    ([Print (WarnInsufficientColumns row_num)], None)
  else
    match PyFloatParse.float_of_string (nth 6 row "") with
    | None =>
        (* except ValueError *)
        ([Print (ErrorParsingRow row_num); LogError (ParseError filename row_num)], None)
    | Some a =>
        let invoice := {|
          customer_id := PyStr.strip (nth 0 row "");
          customer_name := PyStr.strip (nth 1 row "");
          address := PyStr.strip (nth 2 row "");
          city := PyStr.strip (nth 3 row "");
          state := PyStr.upper (PyStr.strip (nth 4 row ""));
          zip := PyStr.strip (nth 5 row "");
          amount := a;
          invoice_date := PyStr.strip (nth 7 row "");
          due_date := PyStr.strip (nth 8 row "");
          items := if (9 <? length row)%nat then PyStr.strip (nth 9 row "") else ""
        |} in
        if (amount invoice <? MIN_INVOICE_AMOUNT)%float then
          ([Print (WarnBelowMinimum (amount invoice) (customer_id invoice))], None)
        else ([], Some invoice)
    end.

(** The loop over the rows that follow the header; [row_num] counts from
    the first of them. *)
Fixpoint process_rows (filename : string) (row_num : nat) (rows : list (list string))
  : list event * list invoice :=
  match rows with
  | [] => ([], [])
  | row :: rows' =>
      let '(ev, appended) := process_row filename row_num row in
      let '(evs, invoices) := process_rows filename (S row_num) rows' in
      ((ev ++ evs)%list, (option_list appended ++ invoices)%list)
  end.

(** The handler [except Exception] of [process_csv_file]. *)
Definition cannot_read {A} (filename : string) : prog A :=
  emit (Print (FatalCannotReadFile filename));;
  emit (LogError (CannotReadFile filename));;
  sys_exit 1.

Definition process_csv_file (e : env) (filename : string) : prog (list invoice) :=
  match read_lines e filename with
  | None => cannot_read filename
  | Some lines =>
      let first_line := hd "" lines in
      let delimiter := if PyStr.contains ";"%char first_line then ";"%char else ","%char in
      match PyCsv.reader delimiter lines with
      | [] => cannot_read filename  (* [reader.next()] raises [StopIteration] *)
      | headers :: rows =>
          let '(ev, invoices) := process_rows filename 0 rows in
          (ev, Returns invoices)
      end
  end.

(** *** [calculate_tax] *)

(** Customer override first, then the state, then the default rate with
    a warning. *)
Definition resolve_rate (invoice : invoice) : prog float :=
  match CUSTOMER_TAX_OVERRIDES !! customer_id invoice with
  | Some tax_rate => ret tax_rate
  | None =>
      match STATE_TAX_RATES !! state invoice with
      | Some tax_rate => ret tax_rate
      | None =>
          emit (Print (WarnUnknownState (state invoice)));;
          ret (STATE_TAX_RATES !!! "DEFAULT")
      end
  end.

(** The adjustment for the fourth quarter. *)
Definition quarterly_adjustment (current_month : Z) (tax_rate : float) : float :=
  if 10 <=? current_month then (tax_rate * 1.02)%float else tax_rate.

(** The bulk discount on the taxable amount. *)
Definition taxable_amount (base_amount : float) : float :=
  if (BULK_DISCOUNT_THRESHOLD <=? base_amount)%float
  then (base_amount * (1 - BULK_DISCOUNT_RATE))%float
  else base_amount.

Definition calculate_tax (e : env) (invoice : invoice) : prog float :=
  let base_amount := amount invoice in
  tax_rate <- resolve_rate invoice;;
  let current_month := month (now e) in
  let tax_rate := quarterly_adjustment current_month tax_rate in
  let base_amount := taxable_amount base_amount in
  ret (PyFloat.round2 (base_amount * tax_rate)).

(** *** [calculate_late_fee] *)

Definition date_formats : list (list PyDate.directive) :=
  let slash := PyDate.Lit "/"%char in
  let dash := PyDate.Lit "-"%char in
  [ [PyDate.Dm; slash; PyDate.Dd; slash; PyDate.DY];    (* '%m/%d/%Y' *)
    [PyDate.DY; dash; PyDate.Dm; dash; PyDate.Dd];      (* '%Y-%m-%d' *)
    [PyDate.Dm; dash; PyDate.Dd; dash; PyDate.DY] ].    (* '%m-%d-%Y' *)

(** The [for fmt in ...: try ... break ... except ValueError: continue]
    loop: the first format that parses, or [None] for the [else] branch. *)
Fixpoint try_formats (due_date_str : string) (fmts : list (list PyDate.directive))
  : option datetime :=
  match fmts with
  | [] => None
  | fmt :: fmts' =>
      match PyDate.strptime due_date_str fmt with
      | Some due_date => Some due_date
      | None => try_formats due_date_str fmts'
      end
  end.

(** Nothing in the body raises once the date is parsed, so the handler
    [except Exception] of the function never runs. *)
Definition calculate_late_fee (e : env) (invoice : invoice) : prog float :=
  let due_date_str := due_date invoice in
  match try_formats due_date_str date_formats with
  | None =>
      emit (Print (ErrorCannotParseDate due_date_str));;
      ret 0.0%float
  | Some due_date =>
      let days_late := PyDate.days_between (now e) due_date in
      if LATE_FEE_DAYS <? days_late then
        let months_late := days_late / 30 in
        let late_fee := (amount invoice * (LATE_FEE_PERCENT * PyFloat.of_int months_late))%float in
        ret (PyFloat.round2 late_fee)
      else ret 0.0%float
  end.

(** *** [generate_pdf] *)

Definition invoice_total (invoice : invoice) (tax_amount late_fee : float) : float :=
  (amount invoice + tax_amount + late_fee)%float.

Definition generate_pdf (e : env) (invoice : invoice) (tax_amount late_fee : float)
  : prog (option pdf_name) :=
  let total := invoice_total invoice tax_amount late_fee in
  let invoice_date_clean := PyStr.replace "/"%char "-"%char (invoice_date invoice) in
  let filename := {| pdf_customer := customer_id invoice;
                     pdf_date := invoice_date_clean;
                     pdf_total := total |} in
  if canvas_ok e filename then ret (Some filename)
  else emit (LogError PdfGenerationFailed);; ret None.

(** *** [main] *)

(** The body of [for invoice in invoices]; the calls raise nothing, so
    its handler [except Exception] never runs. *)
Definition process_invoice (e : env) (invoice : invoice) (counts : nat * nat)
  : prog (nat * nat) :=
  let '(total_processed, total_failed) := counts in
  tax <- calculate_tax e invoice;;
  late_fee <- calculate_late_fee e invoice;;
  pdf_file <- generate_pdf e invoice tax late_fee;;
  match pdf_file with
  | Some pdf => emit (Print (Generated pdf));; ret (S total_processed, total_failed)
  | None => ret (total_processed, S total_failed)
  end.

Fixpoint process_invoices (e : env) (invoices : list invoice) (counts : nat * nat)
  : prog (nat * nat) :=
  match invoices with
  | [] => ret counts
  | invoice :: invoices' =>
      counts' <- process_invoice e invoice counts;;
      process_invoices e invoices' counts'
  end.

(** The body of [for csv_file in csv_files]. *)
Definition process_file (e : env) (csv_file : string) (counts : nat * nat)
  : prog (nat * nat) :=
  emit (Print (Processing csv_file));;
  let full_path := CSV_INPUT_PATH ++ csv_file in
  invoices <- process_csv_file e full_path;;
  emit (Print (FoundValidInvoices (length invoices)));;
  counts' <- process_invoices e invoices counts;;
  (if rename_ok e full_path then ret tt else emit (Print WarnCouldNotMove));;
  ret counts'.

Fixpoint process_files (e : env) (csv_files : list string) (counts : nat * nat)
  : prog (nat * nat) :=
  match csv_files with
  | [] => ret counts
  | csv_file :: csv_files' =>
      counts' <- process_file e csv_file counts;;
      process_files e csv_files' counts'
  end.

(** [f.endswith(suffix)] *)
Definition endswith (suffix f : string) : bool :=
  String.eqb suffix
    (String.substring (String.length f - String.length suffix) (String.length suffix) f)
  && (String.length suffix <=? String.length f)%nat.

Definition main (e : env) : prog unit :=
  emit (Print Starting);;
  emit (Print (InputPath CSV_INPUT_PATH));;
  emit (Print (OutputPath PDF_OUTPUT_PATH));;
  (if path_exists e CSV_INPUT_PATH then ret tt
   else emit (Print FatalNoInputPath);; sys_exit 1);;
  (if path_exists e PDF_OUTPUT_PATH then ret tt
   else emit (Print FatalNoOutputPath);; sys_exit 1);;
  let csv_files := filter (fun f => endswith ".csv" f = true) (listdir e) in
  match csv_files with
  | [] => emit (Print NoCsvFiles)
  | _ =>
      counts <- process_files e csv_files (O, O);;
      let '(total_processed, total_failed) := counts in
      emit (Print (ProcessingComplete total_processed total_failed))
  end.

(** *** What a run computes for one invoice *)

(** The value a program returns, [d] when it exits. *)
Definition result {A} (d : A) (p : prog A) : A :=
  match snd p with
  | Returns a => a
  | Exits _ => d
  end.

Definition events {A} (p : prog A) : list event := fst p.

Definition tax_of (e : env) (invoice : invoice) : float :=
  result 0%float (calculate_tax e invoice).

Definition late_fee_of (e : env) (invoice : invoice) : float :=
  result 0%float (calculate_late_fee e invoice).

(** The document [main] asks [generate_pdf] to write for an invoice. *)
Definition pdf_of (e : env) (invoice : invoice) : pdf_name :=
  {| pdf_customer := customer_id invoice;
     pdf_date := PyStr.replace "/"%char "-"%char (invoice_date invoice);
     pdf_total := invoice_total invoice (tax_of e invoice) (late_fee_of e invoice) |}.

(** *** Sample inputs *)

(** An environment with the given date and directory: every path exists,
    every document is written and every file is moved; a file listed with
    [None] cannot be opened. *)
Definition sample_env (today : datetime) (dir : list (string * option (list string))) : env :=
  {| now := today;
     path_exists := fun _ => true;
     listdir := map fst dir;
     read_lines := fun full_path =>
       match find (fun entry => String.eqb (CSV_INPUT_PATH ++ fst entry) full_path) dir with
       | Some (_, content) => content
       | None => None
       end;
     canvas_ok := fun _ => true;
     rename_ok := fun _ => true |}.

Definition march_15 : datetime := {| year := 2024; month := 3; day := 15 |}.
Definition november_15 : datetime := {| year := 2024; month := 11; day := 15 |}.

Definition sample_invoice (customer state : string) (amount : float) (due : string) : invoice :=
  {| customer_id := customer; customer_name := "Acme"; address := "1 Main St";
     city := "Springfield"; state := state; zip := "00000"; amount := amount;
     invoice_date := "01/02/2024"; due_date := due; items := "" |}.

Definition sample_row (customer state amount due : string) : list string :=
  [customer; "Acme"; "1 Main St"; "Springfield"; state; "00000"; amount;
   "01/02/2024"; due; ""].

Definition sample_line (customer state amount due : string) : string :=
  customer ++ ",Acme,1 Main St,Springfield," ++ state ++ ",00000," ++ amount
  ++ ",01/02/2024," ++ due ++ ",".

(** A file of three rows whose second row has six columns. *)
Definition short_row_file : list string :=
  [ "customer_id,customer_name,address,city,state,zip,amount,invoice_date,due_date,items";
    sample_line "CUST001" "ca" "100.00" "03/05/2024";
    "CUST002,Acme,1 Main St,Springfield,NY,00000";
    sample_line "CUSTXYZ" "NY" "200.00" "2024-02-04" ].

(** A directory whose first file cannot be opened. *)
Definition unreadable_first : list (string * option (list string)) :=
  [ ("a.csv", None); ("b.csv", Some short_row_file) ].

(** *** Magnitudes of binary64 values *)

(** Positive values of magnitude at least [2 ^ (K - 1)]. *)
Definition pos_mag (K : Z) (x : spec_float) : Prop :=
  match x with
  | S754_infinity false => True
  | S754_finite false m e => K <= Zpos (digits2_pos m) + e
  | _ => False
  end.

(** Values that are zero or positive. *)
Definition nonneg (x : spec_float) : Prop :=
  match x with
  | S754_zero _ | S754_infinity false | S754_finite false _ _ => True
  | _ => False
  end.

(** *** Hundredths *)

(** [k] hundredths is the decimal with two places nearest to the value
    [m * 2 ^ e] of a positive float, a value half way between two of
    them going up. *)
Definition nearest_hundredth (m : positive) (e : Z) (k : Z) : Prop :=
  if 0 <=? e then k = 100 * Zpos m * 2 ^ e
  else (2 * k - 1) * 2 ^ (- e) <= 200 * Zpos m < (2 * k + 1) * 2 ^ (- e).

(** The float of [k] hundredths, [k / 100.0]: the division is rounded
    once, to the float nearest to the decimal. *)
Definition of_hundredths (k : Z) : float := (PyFloat.of_int k / 100)%float.

(** The float [x] is the positive integer [n], exactly. *)
Definition holds_integer (x : float) (n : Z) : Prop :=
  match Prim2SF x with
  | S754_finite false m e => e <= 0 /\ Zpos m = n * 2 ^ (- e)
  | _ => False
  end.

(** *** The formulas of the specification, on decimals *)

(** The specification leaves the rounding of a half open between these
    two. *)
Inductive rounding_mode := HalfUp | HalfEven.

(** The integer nearest to [n / d], for [0 <= n] and [0 < d]. *)
Definition round_ratio (mode : rounding_mode) (n d : Z) : Z :=
  let q := n / d in
  match 2 * (n mod d) ?= d with
  | Lt => q
  | Gt => q + 1
  | Eq => match mode with
          | HalfUp => q + 1
          | HalfEven => if Z.even q then q else q + 1
          end
  end.

(** [round(amount * lateFeeMonthlyRate * floor(daysLate / 30), 2)] in
    hundredths, for an amount in hundredths and the rate 0.015, and 0 up
    to the threshold. *)
Definition claimed_late_fee (mode : rounding_mode) (amount_cents days_late : Z) : Z :=
  if days_late <=? 30 then 0
  else round_ratio mode (amount_cents * 15 * (days_late / 30)) 1000.

(** [round(base * resolvedRate, 2)] in hundredths, for a base in
    hundredths and the rate [rate_num / rate_den]. *)
Definition claimed_tax (mode : rounding_mode) (base_cents rate_num rate_den : Z) : Z :=
  round_ratio mode (base_cents * rate_num) rate_den.

(** An invoice of 35.00 that is 90 days late on [march_15], and one of
    25.20 in Texas. *)
Definition ninety_days_late : invoice := sample_invoice "CUSTXYZ" "NY" 35 "12/16/2023".

Definition texas_invoice : invoice := sample_invoice "CUSTXYZ" "TX" 25.2 "03/05/2024".

(** *** The page [generate_pdf] draws *)

(** [s.split(sep)] for a one-character separator: the empty string
    splits into one empty part. *)
Definition str_split (sep : ascii) (s : string) : list string :=
  PyCsv.split_fields sep [] (list_ascii_of_string s).

(** The text of one entry of [items], ["%s x %s @ $%s" % (parts[1],
    parts[0], parts[2])], drawn only when the entry has exactly three
    parts; [split] raises nothing, so the fallback of the handler never
    draws. *)
Definition item_text (item : string) : option string :=
  match str_split ":"%char item with
  | [name; quantity; price] => Some (quantity ++ " x " ++ name ++ " @ $" ++ price)
  | _ => None
  end.

(** The loop [for item in items]: every entry moves [y_pos] down by 15,
    drawn or not. The positions are whole numbers of points. *)
Fixpoint item_lines_from (y_pos : Z) (entries : list string) : list (Z * string) * Z :=
  match entries with
  | [] => ([], y_pos)
  | item :: entries' =>
      let y_pos := y_pos - 15 in
      let '(drawn, y_end) := item_lines_from y_pos entries' in
      (match item_text item with
       | Some text => (y_pos, text) :: drawn
       | None => drawn
       end, y_end)
  end.

(** The items block: the [drawString(70, y_pos, ...)] calls below the
    heading and the position the block ends at; nothing for an empty
    [items] field. *)
Definition item_lines (invoice : invoice) (y_pos : Z) : list (Z * string) * Z :=
  match items invoice with
  | EmptyString => ([], y_pos)
  | _ => item_lines_from (y_pos - 30) (str_split "|"%char (items invoice))
  end.

(** The totals block: the label and the amount of every line, in the
    order drawn; the tax and the late fee are drawn only when positive. *)
Definition totals_lines (invoice : invoice) (tax_amount late_fee : float)
  : list (string * float) :=
  ([("Subtotal:", amount invoice)]
   ++ (if (0 <? tax_amount)%float then [("Tax:", tax_amount)] else [])
   ++ (if (0 <? late_fee)%float then [("Late Fee:", late_fee)] else [])
   ++ [("Total Due:", invoice_total invoice tax_amount late_fee)])%list.

(** *** Observations on a run *)

(** The messages that tell of a rejected row. *)
Definition is_rejection (ev : event) : bool :=
  match ev with
  | Print (WarnInsufficientColumns _) | Print (WarnBelowMinimum _ _)
  | Print (ErrorParsingRow _) => true
  | _ => false
  end.

Definition is_generated (ev : event) : bool :=
  match ev with
  | Print (Generated _) => true
  | _ => false
  end.

Definition is_pdf_failure (ev : event) : bool :=
  match ev with
  | LogError PdfGenerationFailed => true
  | _ => false
  end.

(** The files [main] announces with "Processing: ...". *)
Definition processed_files (evs : list event) : list string :=
  flat_map (fun ev => match ev with
                      | Print (Processing csv_file) => [csv_file]
                      | _ => []
                      end) evs.

(** A source [process_csv_file] reads without its handler: it opens and
    has a first row. *)
Definition readable (e : env) (csv_file : string) : bool :=
  match read_lines e (CSV_INPUT_PATH ++ csv_file) with
  | Some (_ :: _) => true
  | _ => false
  end.

(** The invoices of a source, none when [process_csv_file] exits. *)
Definition invoices_of (e : env) (csv_file : string) : list invoice :=
  result [] (process_csv_file e (CSV_INPUT_PATH ++ csv_file)).

(** A string without white space at either end. *)
Definition stripped (s : string) : Prop := PyStr.strip s = s.

(** The fields of an invoice as [process_csv_file] leaves them. *)
Definition normalised (inv : invoice) : Prop :=
  stripped (customer_id inv) /\ stripped (customer_name inv) /\ stripped (address inv)
  /\ stripped (city inv) /\ stripped (state inv) /\ PyStr.upper (state inv) = state inv
  /\ stripped (zip inv) /\ stripped (invoice_date inv) /\ stripped (due_date inv)
  /\ stripped (items inv).

(** *** Observations on [main] *)

(** Events that are neither an announced file, nor a generated document,
    nor a failed one. *)
Definition quiet (evs : list event) : Prop :=
  processed_files evs = [] /\ List.filter is_generated evs = []
  /\ List.filter is_pdf_failure evs = [].

(** The documents [main] asks for and gets, and those it does not get. *)
Definition rendered (e : env) (invoices : list invoice) : list invoice :=
  List.filter (fun inv => canvas_ok e (pdf_of e inv)) invoices.

Definition not_rendered (e : env) (invoices : list invoice) : list invoice :=
  List.filter (fun inv => negb (canvas_ok e (pdf_of e inv))) invoices.

(** [[f for f in os.listdir(CSV_INPUT_PATH) if f.endswith('.csv')]] *)
Definition csv_files (e : env) : list string :=
  filter (fun f => endswith ".csv" f = true) (listdir e).

(** *** Text of the input *)

(** How many times a character occurs. *)
Definition count_char (c : ascii) (s : string) : nat :=
  length (List.filter (Ascii.eqb c) (list_ascii_of_string s)).

(** [sep.join(parts)] for a one-character separator. *)
Fixpoint str_join (sep : ascii) (parts : list string) : string :=
  match parts with
  | [] => ""
  | [part] => part
  | part :: parts' => part ++ String sep (str_join sep parts')
  end.

(** An entry of [items] as the input files write it, item:quantity:price. *)
Definition item_entry (item : string * string * string) : string :=
  let '(name, quantity, price) := item in
  str_join ":" [name; quantity; price].

(** The three parts of an entry hold neither separator. *)
Definition item_fields_plain (item : string * string * string) : Prop :=
  let '(name, quantity, price) := item in
  Forall (fun part => PyStr.contains ":" part = false /\ PyStr.contains "|" part = false)
         [name; quantity; price].

(** *** Dates as written *)

(** A date as the input files write it. *)
Definition digit_char (n : Z) : ascii := ascii_of_nat (48 + Z.to_nat n).

Definition two_digits (n : Z) : list ascii := [digit_char (n / 10); digit_char (n mod 10)].

Definition four_digits (n : Z) : list ascii :=
  [digit_char (n / 1000); digit_char (n / 100 mod 10); digit_char (n / 10 mod 10);
   digit_char (n mod 10)].

(** MM/DD/YYYY and MM-DD-YYYY *)
Definition month_day_year (sep : ascii) (d : datetime) : string :=
  string_of_list_ascii
    (two_digits (month d) ++ sep :: two_digits (day d) ++ sep :: four_digits (year d)).

(** YYYY-MM-DD *)
Definition year_month_day (sep : ascii) (d : datetime) : string :=
  string_of_list_ascii
    (four_digits (year d) ++ sep :: two_digits (month d) ++ sep :: two_digits (day d)).

(** The "common formats" of [calculate_late_fee]. *)
Definition written_forms (d : datetime) : list string :=
  [month_day_year "/" d; year_month_day "-" d; month_day_year "-" d].

(** The first match of a format. *)
Definition first_match (fmt : list PyDate.directive) (acc : datetime) (s : list ascii)
    (res : datetime * list ascii) : Prop :=
  exists rest, PyDate.matches fmt acc s = res :: rest.

(** *** More sample inputs *)

Definition one_file : env := sample_env march_15 [("a.csv", Some short_row_file)].

Definition first_invoice : invoice := sample_invoice "CUST001" "CA" 100 "03/05/2024".

Definition third_invoice : invoice := sample_invoice "CUSTXYZ" "NY" 200 "2024-02-04".

(** The [items] field of the example in [process_csv_file], and one with
    an entry of one part in the middle. *)
Definition widgets : list (string * string * string) :=
  [("Widget A", "2", "49.99"); ("Widget B", "1", "99.99")].

Definition widgets_invoice : invoice :=
  {| customer_id := "CUST001"; customer_name := "Acme"; address := "1 Main St";
     city := "Springfield"; state := "CA"; zip := "00000"; amount := 199.97;
     invoice_date := "01/02/2024"; due_date := "03/05/2024";
     items := "Widget A:2:49.99|Widget B:1:99.99" |}.

Definition odd_items_invoice : invoice :=
  {| customer_id := "CUST001"; customer_name := "Acme"; address := "1 Main St";
     city := "Springfield"; state := "CA"; zip := "00000"; amount := 199.97;
     invoice_date := "01/02/2024"; due_date := "03/05/2024";
     items := "Widget A:2:49.99|shipping|Widget B:1:99.99" |}.

(** A file of comma-separated rows whose header holds a semicolon. *)
Definition semicolon_header_file : list string :=
  [ "customer_id,customer_name,address,city,state,zip,amount,invoice_date;due_date,items";
    sample_line "CUST001" "CA" "100.00" "03/05/2024";
    sample_line "CUSTXYZ" "NY" "200.00" "2024-02-04" ].

(** * Properties *)

(** ** Programs *)

Lemma bind_ret_l {A B} (a : A) (k : A -> prog B) : bind (ret a) k = k a.
Proof. unfold bind, ret. destruct (k a) as [ev o]. reflexivity. Qed.

Lemma bind_returns {A B} (ev : list event) (a : A) (k : A -> prog B) :
  bind (ev, Returns a) k = ((ev ++ events (k a))%list, snd (k a)).
Proof. unfold bind, events. destruct (k a) as [ev' o]. reflexivity. Qed.

Lemma bind_exits {A B} (ev : list event) (st : Z) (k : A -> prog B) :
  bind (ev, Exits st) k = (ev, Exits st).
Proof. reflexivity. Qed.

(** ** The tax rate *)

Lemma default_rate : STATE_TAX_RATES !! "DEFAULT" = Some 0.05%float.
Proof. reflexivity. Qed.

Lemma default_rate_total : STATE_TAX_RATES !!! "DEFAULT" = 0.05%float.
Proof. reflexivity. Qed.

(** [calculate_tax] is the rounded product of the taxable amount and the
    adjusted rate, with the events of the rate resolution. *)
Lemma calculate_tax_eq (e : env) (inv : invoice) (ev : list event) (rate : float) :
  resolve_rate inv = (ev, Returns rate) ->
  calculate_tax e inv =
    (ev, Returns (PyFloat.round2
                    (taxable_amount (amount inv)
                     * quarterly_adjustment (month (now e)) rate)%float)).
Proof.
  intros H. unfold calculate_tax. rewrite H, bind_returns. cbn.
  rewrite app_nil_r. reflexivity.
Qed.

Lemma resolve_rate_returns (inv : invoice) :
  exists ev rate, resolve_rate inv = (ev, Returns rate).
Proof.
  unfold resolve_rate.
  destruct (CUSTOMER_TAX_OVERRIDES !! customer_id inv); [eexists _, _; reflexivity|].
  destruct (STATE_TAX_RATES !! state inv); eexists _, _; reflexivity.
Qed.

(** C2: the rate [calculate_tax] uses before the quarterly adjustment is
    the customer's override when there is one, whatever the state (the
    override of CUST001 is 0); otherwise the rate of the state when the
    table has it; otherwise the table's DEFAULT entry. *)
Theorem resolve_rate_precedence (e : env) (inv : invoice) :
  exists ev rate,
    resolve_rate inv = (ev, Returns rate)
    /\ calculate_tax e inv =
         (ev, Returns (PyFloat.round2
                         (taxable_amount (amount inv)
                          * quarterly_adjustment (month (now e)) rate)%float))
    /\ (forall r, CUSTOMER_TAX_OVERRIDES !! customer_id inv = Some r -> rate = r)
    /\ (CUSTOMER_TAX_OVERRIDES !! customer_id inv = None ->
        forall r, STATE_TAX_RATES !! state inv = Some r -> rate = r)
    /\ (CUSTOMER_TAX_OVERRIDES !! customer_id inv = None ->
        STATE_TAX_RATES !! state inv = None ->
        STATE_TAX_RATES !! "DEFAULT" = Some rate)
    /\ CUSTOMER_TAX_OVERRIDES !! "CUST001" = Some 0%float.
Proof.
  destruct (resolve_rate_returns inv) as (ev & rate & H).
  exists ev, rate. split; [exact H|]. split; [apply calculate_tax_eq; exact H|].
  unfold resolve_rate in H.
  destruct (CUSTOMER_TAX_OVERRIDES !! customer_id inv) as [o|] eqn:Ho.
  - inversion H; subst. repeat split; congruence.
  - destruct (STATE_TAX_RATES !! state inv) as [s|] eqn:Hs.
    + inversion H; subst. repeat split; congruence.
    + inversion H; subst. repeat split; try congruence.
Qed.

(** C3: in the fourth quarter the rate is the resolved rate times 1.02,
    the same for an override, a state rate and the default rate: with the
    same invoice, the rate in the window is the rate out of the window
    times 1.02, and the tax is computed from it. *)
Theorem quarterly_adjustment_after_resolution (e_in e_out : env) (inv : invoice) :
  10 <= month (now e_in) ->
  month (now e_out) < 10 ->
  exists ev rate,
    resolve_rate inv = (ev, Returns rate)
    /\ quarterly_adjustment (month (now e_out)) rate = rate
    /\ quarterly_adjustment (month (now e_in)) rate
       = (quarterly_adjustment (month (now e_out)) rate * 1.02)%float
    /\ calculate_tax e_out inv =
         (ev, Returns (PyFloat.round2 (taxable_amount (amount inv) * rate)%float))
    /\ calculate_tax e_in inv =
         (ev, Returns (PyFloat.round2 (taxable_amount (amount inv) * (rate * 1.02))%float)).
Proof.
  intros Hin Hout.
  destruct (resolve_rate_returns inv) as (ev & rate & H).
  exists ev, rate.
  assert (Hq_out : quarterly_adjustment (month (now e_out)) rate = rate).
  { unfold quarterly_adjustment. destruct (Z.leb_spec 10 (month (now e_out))); [lia|reflexivity]. }
  assert (Hq_in : quarterly_adjustment (month (now e_in)) rate = (rate * 1.02)%float).
  { unfold quarterly_adjustment. destruct (Z.leb_spec 10 (month (now e_in))); [reflexivity|lia]. }
  rewrite (calculate_tax_eq e_out inv ev rate H), (calculate_tax_eq e_in inv ev rate H).
  rewrite Hq_out, Hq_in. auto.
Qed.

Lemma quarterly_adjustment_after_resolution_witness :
  10 <= month (now (sample_env november_15 []))
  /\ month (now (sample_env march_15 [])) < 10
  /\ exists ev rate,
       resolve_rate (sample_invoice "CUST447" "CA" 100 "03/01/2024") = (ev, Returns rate)
       /\ calculate_tax (sample_env november_15 []) (sample_invoice "CUST447" "CA" 100 "03/01/2024")
          = (ev, Returns (PyFloat.round2
                            (taxable_amount 100 * (rate * 1.02))%float)).
Proof.
  split; [cbn; lia|]. split; [cbn; lia|].
  destruct (quarterly_adjustment_after_resolution
              (sample_env november_15 []) (sample_env march_15 [])
              (sample_invoice "CUST447" "CA" 100 "03/01/2024"))
    as (ev & rate & H1 & _ & _ & _ & H2); [cbn; lia | cbn; lia |].
  exists ev, rate. split; [exact H1 | exact H2].
Defined.

(** ** The taxable amount *)

Lemma taxable_amount_discounted (a : float) :
  (BULK_DISCOUNT_THRESHOLD <=? a)%float = true ->
  taxable_amount a = (a * (1 - BULK_DISCOUNT_RATE))%float.
Proof. intros H. unfold taxable_amount. rewrite H. reflexivity. Qed.

Lemma taxable_amount_unmodified (a : float) :
  (BULK_DISCOUNT_THRESHOLD <=? a)%float = false ->
  taxable_amount a = a.
Proof. intros H. unfold taxable_amount. rewrite H. reflexivity. Qed.

(** ** The late fee *)

Lemma calculate_late_fee_unparsed (e : env) (inv : invoice) :
  try_formats (due_date inv) date_formats = None ->
  calculate_late_fee e inv
  = ([Print (ErrorCannotParseDate (due_date inv))], Returns 0%float).
Proof. intros H. unfold calculate_late_fee. rewrite H. reflexivity. Qed.

Lemma calculate_late_fee_parsed (e : env) (inv : invoice) (due : datetime) :
  try_formats (due_date inv) date_formats = Some due ->
  calculate_late_fee e inv
  = ([], Returns
           (if LATE_FEE_DAYS <? PyDate.days_between (now e) due
            then PyFloat.round2
                   (amount inv
                    * (LATE_FEE_PERCENT
                       * PyFloat.of_int (PyDate.days_between (now e) due / 30)))%float
            else 0%float)).
Proof.
  intros H. unfold calculate_late_fee. rewrite H.
  destruct (LATE_FEE_DAYS <? PyDate.days_between (now e) due); reflexivity.
Qed.

Lemma calculate_late_fee_returns (e : env) (inv : invoice) :
  exists ev fee, calculate_late_fee e inv = (ev, Returns fee).
Proof.
  destruct (try_formats (due_date inv) date_formats) as [due|] eqn:H.
  - rewrite (calculate_late_fee_parsed e inv due H). eexists _, _. reflexivity.
  - rewrite (calculate_late_fee_unparsed e inv H). eexists _, _. reflexivity.
Qed.

Lemma calculate_tax_returns (e : env) (inv : invoice) :
  exists ev tax, calculate_tax e inv = (ev, Returns tax).
Proof.
  destruct (resolve_rate_returns inv) as (ev & rate & H).
  rewrite (calculate_tax_eq e inv ev rate H). eexists _, _. reflexivity.
Qed.

(** ** One invoice in [main] *)

(** Every invoice is valued and handed to [generate_pdf]; the loop goes
    on whatever the back end answers. *)
Lemma process_invoice_eq (e : env) (inv : invoice) (processed failed : nat) :
  process_invoice e inv (processed, failed)
  = ((events (calculate_tax e inv) ++ events (calculate_late_fee e inv)
      ++ (if canvas_ok e (pdf_of e inv)
          then [Print (Generated (pdf_of e inv))]
          else [LogError PdfGenerationFailed]))%list,
     Returns (if canvas_ok e (pdf_of e inv)
              then (S processed, failed) else (processed, S failed))).
Proof.
  unfold process_invoice, pdf_of, tax_of, late_fee_of, result, events.
  destruct (calculate_tax_returns e inv) as (ev1 & tax & H1).
  destruct (calculate_late_fee_returns e inv) as (ev2 & fee & H2).
  rewrite H1, H2. cbn [fst snd].
  rewrite !bind_returns. unfold generate_pdf.
  destruct (canvas_ok e _); cbn; rewrite ?app_nil_r; reflexivity.
Qed.

Lemma process_invoices_returns (e : env) (invoices : list invoice) (counts : nat * nat) :
  exists ev counts',
    process_invoices e invoices counts = (ev, Returns counts')
    /\ forall inv, In inv invoices ->
         canvas_ok e (pdf_of e inv) = true -> In (Print (Generated (pdf_of e inv))) ev.
Proof.
  revert counts. induction invoices as [|inv invoices IH]; intros [processed failed].
  - exists [], (processed, failed). split; [reflexivity|]. intros inv [].
  - cbn [process_invoices]. rewrite process_invoice_eq, bind_returns.
    destruct (IH (if canvas_ok e (pdf_of e inv)
                  then (S processed, failed) else (processed, S failed)))
      as (ev & counts' & Heq & Hin).
    rewrite Heq. cbn [events fst snd].
    eexists _, counts'. split; [reflexivity|].
    intros inv' [->|Hin'] Hok.
    + rewrite Hok. rewrite !in_app_iff. left. right. right. left. reflexivity.
    + rewrite in_app_iff. right. apply Hin; assumption.
Qed.

(** ** Rows *)

Lemma process_rows_cons (f : string) (n : nat) (row : list string) (rows : list (list string)) :
  process_rows f n (row :: rows)
  = ((fst (process_row f n row) ++ fst (process_rows f (S n) rows))%list,
     (option_list (snd (process_row f n row)) ++ snd (process_rows f (S n) rows))%list).
Proof.
  cbn [process_rows]. destruct (process_row f n row), (process_rows f (S n) rows).
  reflexivity.
Qed.

(** The rows are handled one after the other: the events and the invoices
    of a file are those of its first rows followed by those of the rest. *)
Lemma process_rows_app (f : string) (n : nat) (pre post : list (list string)) :
  process_rows f n (pre ++ post)
  = ((fst (process_rows f n pre) ++ fst (process_rows f (n + length pre) post))%list,
     (snd (process_rows f n pre) ++ snd (process_rows f (n + length pre) post))%list).
Proof.
  revert n. induction pre as [|row pre IH]; intros n.
  - cbn. rewrite Nat.add_0_r. destruct (process_rows f n post). reflexivity.
  - cbn [app length]. rewrite !process_rows_cons, IH. cbn [fst snd].
    rewrite Nat.add_succ_r, <- !app_assoc. reflexivity.
Qed.

Lemma process_row_short (f : string) (n : nat) (row : list string) :
  (length row < 10)%nat ->
  process_row f n row = ([Print (WarnInsufficientColumns n)], None).
Proof.
  intros H. unfold process_row.
  destruct (Nat.ltb_spec (length row) 10); [reflexivity|lia].
Qed.

(** A row that [process_row] accepts is in the list the loop returns. *)
Lemma process_rows_accepts (f : string) (n i : nat) (rows : list (list string))
      (row : list string) (inv : invoice) :
  nth_error rows i = Some row ->
  snd (process_row f (n + i) row) = Some inv ->
  In inv (snd (process_rows f n rows)).
Proof.
  revert n i. induction rows as [|r rows IH]; intros n i Hi Hrow.
  - destruct i; discriminate.
  - rewrite process_rows_cons. cbn [snd]. apply in_app_iff. destruct i as [|i].
    + cbn in Hi. inversion Hi; subst. rewrite Nat.add_0_r in Hrow. rewrite Hrow.
      left. left. reflexivity.
    + right. apply (IH (S n) i); [exact Hi|].
      rewrite Nat.add_succ_comm. exact Hrow.
Qed.

(** What the loop guarantees of every invoice it returns: its amount did
    not compare below the minimum. *)
Lemma process_row_not_below_minimum (f : string) (n : nat) (row : list string) (inv : invoice) :
  snd (process_row f n row) = Some inv ->
  (amount inv <? MIN_INVOICE_AMOUNT)%float = false.
Proof.
  unfold process_row. destruct (length row <? 10)%nat; [discriminate|].
  destruct (PyFloatParse.float_of_string (nth 6 row "")) as [a|]; [|discriminate].
  cbn [amount]. destruct (a <? MIN_INVOICE_AMOUNT)%float eqn:Ha; [discriminate|].
  cbn. intros [= <-]. exact Ha.
Qed.

Lemma process_rows_not_below_minimum (f : string) (n : nat) (rows : list (list string))
      (inv : invoice) :
  In inv (snd (process_rows f n rows)) ->
  (amount inv <? MIN_INVOICE_AMOUNT)%float = false.
Proof.
  revert n. induction rows as [|row rows IH]; intros n.
  - intros [].
  - rewrite process_rows_cons. cbn [snd]. rewrite in_app_iff. intros [H|H].
    + destruct (snd (process_row f n row)) as [inv'|] eqn:Hrow; [|destruct H].
      destruct H as [->|[]]. eapply process_row_not_below_minimum; eassumption.
    + eapply IH; eassumption.
Qed.

(** ** Files *)

Lemma process_csv_file_rows (e : env) (filename : string) (lines : list string)
      (headers : list string) (rows : list (list string)) :
  read_lines e filename = Some lines ->
  PyCsv.reader (if PyStr.contains ";"%char (hd "" lines) then ";"%char else ","%char) lines
  = headers :: rows ->
  process_csv_file e filename
  = (fst (process_rows filename 0 rows), Returns (snd (process_rows filename 0 rows))).
Proof.
  intros Hread Hrows. unfold process_csv_file. rewrite Hread. cbv zeta.
  rewrite Hrows. destruct (process_rows filename 0 rows). reflexivity.
Qed.

Lemma process_csv_file_unreadable (e : env) (filename : string) :
  read_lines e filename = None ->
  process_csv_file e filename
  = ([Print (FatalCannotReadFile filename); LogError (CannotReadFile filename)], Exits 1).
Proof. intros H. unfold process_csv_file. rewrite H. reflexivity. Qed.

Lemma process_file_readable (e : env) (csv_file : string) (counts : nat * nat)
      (ev : list event) (invoices : list invoice) :
  process_csv_file e (CSV_INPUT_PATH ++ csv_file) = (ev, Returns invoices) ->
  exists ev' counts',
    process_file e csv_file counts
    = ((Print (Processing csv_file) :: ev ++ Print (FoundValidInvoices (length invoices)) :: ev')%list,
       Returns counts')
    /\ forall inv, In inv invoices ->
         canvas_ok e (pdf_of e inv) = true -> In (Print (Generated (pdf_of e inv))) ev'.
Proof.
  intros Hfile.
  destruct (process_invoices_returns e invoices counts) as (ev1 & counts' & Heq & Hin).
  exists (ev1 ++ if rename_ok e (CSV_INPUT_PATH ++ csv_file) then [] else [Print WarnCouldNotMove])%list,
         counts'.
  split.
  - unfold process_file, emit, ret, bind. rewrite Hfile, Heq.
    destruct (rename_ok e (CSV_INPUT_PATH ++ csv_file)); cbn [app];
      rewrite ?app_nil_r; reflexivity.
  - intros inv Hinv Hok. apply in_app_iff. left. apply Hin; assumption.
Qed.

Lemma process_file_unreadable (e : env) (csv_file : string) (counts : nat * nat) :
  read_lines e (CSV_INPUT_PATH ++ csv_file) = None ->
  process_file e csv_file counts
  = ([Print (Processing csv_file);
      Print (FatalCannotReadFile (CSV_INPUT_PATH ++ csv_file));
      LogError (CannotReadFile (CSV_INPUT_PATH ++ csv_file))], Exits 1).
Proof.
  intros H. unfold process_file. rewrite (process_csv_file_unreadable e _ H). reflexivity.
Qed.



(** ** The run *)

Lemma bind_assoc {A B C} (p : prog A) (k : A -> prog B) (h : B -> prog C) :
  bind (bind p k) h = bind p (fun a => bind (k a) h).
Proof.
  destruct p as [ev [a|st]]; [|reflexivity].
  unfold bind. destruct (k a) as [ev1 [b|st1]]; [|reflexivity].
  destruct (h b) as [ev2 o]. rewrite app_assoc. reflexivity.
Qed.

Lemma bind_ext {A B} (p : prog A) (k k' : A -> prog B) :
  (forall a, k a = k' a) -> bind p k = bind p k'.
Proof. intros H. destruct p as [ev [a|st]]; [|reflexivity]. unfold bind. rewrite H. reflexivity. Qed.

Lemma process_files_app (e : env) (pre post : list string) (counts : nat * nat) :
  process_files e (pre ++ post) counts
  = bind (process_files e pre counts) (process_files e post).
Proof.
  revert counts. induction pre as [|f pre IH]; intros counts.
  - cbn [app process_files]. rewrite bind_ret_l. reflexivity.
  - cbn [app process_files]. rewrite bind_assoc. apply bind_ext. intros c. apply IH.
Qed.

(** C1, as the code has it: a source that cannot be opened or read has
    its failure printed and logged, no record is returned for it, and the
    script exits with status 1 there: the sources that follow it in the
    directory are not processed. *)
Theorem unreadable_source_ends_run
    (e : env) (pre post : list string) (csv_file : string)
    (ev : list event) (counts : nat * nat) :
  read_lines e (CSV_INPUT_PATH ++ csv_file) = None ->
  path_exists e CSV_INPUT_PATH = true ->
  path_exists e PDF_OUTPUT_PATH = true ->
  filter (fun f => endswith ".csv" f = true) (listdir e) = (pre ++ csv_file :: post)%list ->
  process_files e pre (O, O) = (ev, Returns counts) ->
  process_csv_file e (CSV_INPUT_PATH ++ csv_file)
  = ([Print (FatalCannotReadFile (CSV_INPUT_PATH ++ csv_file));
      LogError (CannotReadFile (CSV_INPUT_PATH ++ csv_file))], Exits 1)
  /\ main e
     = ((Print Starting :: Print (InputPath CSV_INPUT_PATH) :: Print (OutputPath PDF_OUTPUT_PATH)
         :: ev ++ [Print (Processing csv_file);
                   Print (FatalCannotReadFile (CSV_INPUT_PATH ++ csv_file));
                   LogError (CannotReadFile (CSV_INPUT_PATH ++ csv_file))])%list,
        Exits 1).
Proof.
  intros Hread Hin Hout Hdir Hpre. split.
  - apply process_csv_file_unreadable. exact Hread.
  - assert (Hfiles : process_files e (filter (fun f => endswith ".csv" f = true) (listdir e)) (O, O)
                     = ((ev ++ [Print (Processing csv_file);
                                Print (FatalCannotReadFile (CSV_INPUT_PATH ++ csv_file));
                                LogError (CannotReadFile (CSV_INPUT_PATH ++ csv_file))])%list,
                        Exits 1)).
    { rewrite Hdir, process_files_app, Hpre, bind_returns. cbn [process_files].
      rewrite (process_file_unreadable e csv_file counts Hread). reflexivity. }
    unfold main. rewrite Hin, Hout.
    destruct (filter (fun f => endswith ".csv" f = true) (listdir e)) as [|f0 l] eqn:Hl.
    { destruct pre; discriminate Hdir. }
    rewrite Hfiles. reflexivity.
Qed.

Lemma unreadable_source_ends_run_witness :
  main (sample_env march_15 unreadable_first)
  = ([Print Starting; Print (InputPath CSV_INPUT_PATH); Print (OutputPath PDF_OUTPUT_PATH);
      Print (Processing "a.csv");
      Print (FatalCannotReadFile (CSV_INPUT_PATH ++ "a.csv"));
      LogError (CannotReadFile (CSV_INPUT_PATH ++ "a.csv"))], Exits 1).
Proof.
  apply (unreadable_source_ends_run
           (sample_env march_15 unreadable_first) [] ["b.csv"] "a.csv" [] (O, O));
    vm_compute; reflexivity.
Defined.

(** C1 as stated fails: with an unreadable first file, no empty list of
    records is returned for it, the run does not go on to the second file
    and ends with status 1. *)
Lemma unreadable_source_counterexample :
  read_lines (sample_env march_15 unreadable_first) (CSV_INPUT_PATH ++ "a.csv") = None
  /\ snd (process_csv_file (sample_env march_15 unreadable_first) (CSV_INPUT_PATH ++ "a.csv"))
     <> Returns []
  /\ snd (main (sample_env march_15 unreadable_first)) = Exits 1
  /\ ~ In (Print (Processing "b.csv")) (fst (main (sample_env march_15 unreadable_first)))
  /\ In "b.csv" (filter (fun f => endswith ".csv" f = true)
                        (listdir (sample_env march_15 unreadable_first))).
Proof.
  split; [reflexivity|]. split; [vm_compute; discriminate|].
  split; [vm_compute; reflexivity|]. split.
  - vm_compute. intros H. repeat (destruct H as [H|H]; [discriminate H|]). exact H.
  - vm_compute. right. left. reflexivity.
Qed.

(** ** Amounts *)

(** C5, as the code has it: in a row of at least 10 columns, an amount
    that [float] does not parse gives the parse error, printed and written
    to the error log; an amount that parses and compares below the
    minimum, a negative one included, gives the printed warning only; in
    both cases no invoice is appended and the loop goes on with the next
    row. *)
Theorem amount_rejections
    (f : string) (n : nat) (row : list string) (rows : list (list string)) :
  (10 <= length row)%nat ->
  (PyFloatParse.float_of_string (nth 6 row "") = None ->
   process_row f n row
   = ([Print (ErrorParsingRow n); LogError (ParseError f n)], None))
  /\ (forall a,
        PyFloatParse.float_of_string (nth 6 row "") = Some a ->
        (a <? MIN_INVOICE_AMOUNT)%float = true ->
        process_row f n row
        = ([Print (WarnBelowMinimum a (PyStr.strip (nth 0 row "")))], None))
  /\ (snd (process_row f n row) = None ->
      process_rows f n (row :: rows)
      = ((fst (process_row f n row) ++ fst (process_rows f (S n) rows))%list,
         snd (process_rows f (S n) rows))).
Proof.
  intros Hlen.
  assert (Hcols : (length row <? 10)%nat = false) by (apply Nat.ltb_ge; exact Hlen).
  split; [|split].
  - intros H. unfold process_row. rewrite Hcols, H. reflexivity.
  - intros a H Ha. unfold process_row. rewrite Hcols, H. cbn [amount customer_id].
    rewrite Ha. reflexivity.
  - intros H. rewrite process_rows_cons, H. reflexivity.
Qed.

Lemma amount_rejections_witness :
  process_row "f.csv" 0 (sample_row "CUST002" "NY" "12.50" "03/01/2024")
  = ([Print (WarnBelowMinimum 12.5 "CUST002")], None)
  /\ process_row "f.csv" 0 (sample_row "CUST002" "NY" "12,50" "03/01/2024")
     = ([Print (ErrorParsingRow 0); LogError (ParseError "f.csv" 0)], None).
Proof.
  split.
  - apply (amount_rejections "f.csv" 0 (sample_row "CUST002" "NY" "12.50" "03/01/2024") []);
      [cbn; lia | vm_compute; reflexivity | vm_compute; reflexivity].
  - apply (amount_rejections "f.csv" 0 (sample_row "CUST002" "NY" "12,50" "03/01/2024") []);
      [cbn; lia | vm_compute; reflexivity].
Defined.

(** C5 as stated fails: the amount [-5] does not parse as a non-negative
    number, yet the row is not a parse error: it is filtered with the
    below-minimum warning and nothing is written to the error log. *)
Lemma negative_amount_counterexample :
  (exists a, PyFloatParse.float_of_string "-5" = Some a /\ (a <? 0)%float = true)
  /\ process_row "f.csv" 0 (sample_row "CUST002" "NY" "-5" "03/01/2024")
     = ([Print (WarnBelowMinimum (-5) "CUST002")], None)
  /\ process_row "f.csv" 0 (sample_row "CUST002" "NY" "-5" "03/01/2024")
     <> ([Print (ErrorParsingRow 0); LogError (ParseError "f.csv" 0)], None).
Proof.
  split; [exists (-5)%float; split; vm_compute; reflexivity|].
  split; [vm_compute; reflexivity|]. vm_compute. discriminate.
Qed.

(** C10, at the failing input: the amount [nan] is a float that does not
    compare below the minimum, so its row is appended, although it is not
    at least the minimum either. *)
Theorem nan_amount_is_accepted :
  exists inv,
    process_rows "f.csv" 0 [sample_row "CUST002" "NY" "nan" "03/01/2024"] = ([], [inv])
    /\ amount inv = nan
    /\ (MIN_INVOICE_AMOUNT <=? amount inv)%float = false.
Proof.
  exists (sample_invoice "CUST002" "NY" nan "03/01/2024").
  split; [vm_compute; reflexivity|]. split; reflexivity.
Qed.

(** C6, at the failing input: the amount [inf] is at least the minimum;
    for the tax-exempt customer its tax is [inf * 0.0], which is not a
    number, and so is the total. *)
Theorem infinite_amount_has_no_tax :
  exists inv,
    process_rows "f.csv" 0 [sample_row "CUST001" "CA" "inf" "03/01/2024"] = ([], [inv])
    /\ (MIN_INVOICE_AMOUNT <=? amount inv)%float = true
    /\ tax_of (sample_env march_15 []) inv = nan
    /\ (0 <=? tax_of (sample_env march_15 []) inv)%float = false
    /\ late_fee_of (sample_env march_15 []) inv = 0%float
    /\ pdf_total (pdf_of (sample_env march_15 []) inv) = nan
    /\ (0 <=? pdf_total (pdf_of (sample_env march_15 []) inv))%float = false.
Proof.
  exists (sample_invoice "CUST001" "CA" infinity "03/01/2024").
  split; [vm_compute; reflexivity|]. repeat split; vm_compute; reflexivity.
Qed.

(** ** Degraded valuations *)

(** C8, as the code has it: valuation always returns and the invoice
    always reaches the PDF back end; a due date that none of the three
    formats parses (month/day/year, then year-month-day, then
    month-day-year with dashes) gives a late fee of 0 and a printed error;
    a state without a rate, for a customer without an override, gives the
    DEFAULT rate and a printed warning. *)
Theorem valuation_degrades (e : env) (inv : invoice) (counts : nat * nat) :
  (exists ev tax, calculate_tax e inv = (ev, Returns tax))
  /\ (exists ev fee, calculate_late_fee e inv = (ev, Returns fee))
  /\ (exists ev counts', process_invoice e inv counts = (ev, Returns counts'))
  /\ try_formats (due_date inv) date_formats
     = match PyDate.strptime (due_date inv)
               [PyDate.Dm; PyDate.Lit "/"; PyDate.Dd; PyDate.Lit "/"; PyDate.DY] with
       | Some d => Some d
       | None =>
           match PyDate.strptime (due_date inv)
                   [PyDate.DY; PyDate.Lit "-"; PyDate.Dm; PyDate.Lit "-"; PyDate.Dd] with
           | Some d => Some d
           | None =>
               PyDate.strptime (due_date inv)
                 [PyDate.Dm; PyDate.Lit "-"; PyDate.Dd; PyDate.Lit "-"; PyDate.DY]
           end
       end
  /\ (try_formats (due_date inv) date_formats = None ->
      calculate_late_fee e inv
      = ([Print (ErrorCannotParseDate (due_date inv))], Returns 0%float))
  /\ (CUSTOMER_TAX_OVERRIDES !! customer_id inv = None ->
      STATE_TAX_RATES !! state inv = None ->
      STATE_TAX_RATES !! "DEFAULT" = Some 0.05%float
      /\ calculate_tax e inv
         = ([Print (WarnUnknownState (state inv))],
            Returns (PyFloat.round2
                       (taxable_amount (amount inv)
                        * quarterly_adjustment (month (now e)) 0.05)%float))).
Proof.
  split; [apply calculate_tax_returns|]. split; [apply calculate_late_fee_returns|].
  split; [destruct counts; rewrite process_invoice_eq; eexists _, _; reflexivity|].
  split.
  { unfold date_formats. cbn [try_formats].
    repeat match goal with |- context [PyDate.strptime ?s ?f] =>
      destruct (PyDate.strptime s f); try reflexivity end. }
  split; [apply calculate_late_fee_unparsed|].
  intros Ho Hs. split; [reflexivity|].
  apply calculate_tax_eq. unfold resolve_rate. rewrite Ho, Hs. reflexivity.
Qed.

(** C8 as stated fails: for the customer CUST001 the state ZZ has no
    rate, and the tax is the override's 0 without any warning, not the
    default rate's 5.00. *)
Lemma unknown_state_with_override_counterexample :
  STATE_TAX_RATES !! state (sample_invoice "CUST001" "ZZ" 100 "03/01/2024") = None
  /\ calculate_tax (sample_env march_15 []) (sample_invoice "CUST001" "ZZ" 100 "03/01/2024")
     = ([], Returns 0%float)
  /\ PyFloat.round2 (taxable_amount 100 * quarterly_adjustment 3 0.05)%float = 5%float.
Proof. repeat split; vm_compute; reflexivity. Qed.

(** ** Binary64 arithmetic *)

Section Binary64.

Abbreviation fexp := (SpecFloat.fexp prec emax).
Abbreviation bra := (binary_round_aux prec emax).

Lemma fexp_eq (x : Z) : fexp x = Z.max (x - 53) (-1074).
Proof. reflexivity. Qed.

Lemma digits2_pos_size (p : positive) : digits2_pos p = Pos.size p.
Proof. induction p; cbn; congruence. Qed.

Lemma Zdigits2_log2 (m : Z) : 0 < m -> Zdigits2 m = Z.log2 m + 1.
Proof.
  destruct m as [|p|p]; try lia. intros _. cbn [Zdigits2].
  rewrite digits2_pos_size. destruct p; cbn; lia.
Qed.

Lemma Zdigits2_bounds (m : Z) :
  0 < m -> 2 ^ (Zdigits2 m - 1) <= m < 2 ^ Zdigits2 m.
Proof.
  intros H. rewrite (Zdigits2_log2 m H).
  replace (Z.log2 m + 1 - 1) with (Z.log2 m) by lia.
  replace (Z.log2 m + 1) with (Z.succ (Z.log2 m)) by lia.
  apply Z.log2_spec. exact H.
Qed.

Lemma Zdigits2_pos (m : Z) : 0 < m -> 0 < Zdigits2 m.
Proof. intros H. rewrite (Zdigits2_log2 m H). pose proof (Z.log2_nonneg m). lia. Qed.

Lemma Zdigits2_le (m m' : Z) : 0 < m -> m <= m' -> Zdigits2 m <= Zdigits2 m'.
Proof.
  intros H H'. rewrite !Zdigits2_log2 by lia.
  pose proof (Z.log2_le_mono m m' H'). lia.
Qed.

Lemma Zdigits2_mul (m m' : Z) :
  0 < m -> 0 < m' -> Zdigits2 m + Zdigits2 m' - 1 <= Zdigits2 (m * m').
Proof.
  intros H H'. rewrite !Zdigits2_log2 by lia.
  pose proof (Z.log2_mul_below m m' H H'). lia.
Qed.

(** Shifting right by fewer bits than the number has removes as many digits. *)
Lemma Zdigits2_div_pow2 (m n : Z) :
  0 < m -> 0 <= n < Zdigits2 m ->
  0 < m / 2 ^ n /\ Zdigits2 (m / 2 ^ n) = Zdigits2 m - n.
Proof.
  intros H Hn. pose proof (Zdigits2_bounds m H) as [Hlo _].
  assert (Hpos : 0 < m / 2 ^ n).
  { apply Z.div_str_pos. split; [apply Z.pow_pos_nonneg; lia|].
    etransitivity; [|exact Hlo]. apply Z.pow_le_mono_r; lia. }
  split; [exact Hpos|].
  rewrite !Zdigits2_log2 by assumption.
  rewrite <- Z.shiftr_div_pow2 by lia. rewrite Z.log2_shiftr by assumption.
  rewrite Zdigits2_log2 in Hn by assumption. lia.
Qed.

(** *** Shifts *)

Lemma shr_1_m (mrs : shr_record) :
  0 <= shr_m mrs -> shr_m (shr_1 mrs) = shr_m mrs / 2.
Proof.
  destruct mrs as [m r s]. cbn [shr_m]. intros H.
  destruct m as [|[p|p|]|p]; cbn [shr_1 shr_m]; try lia; try reflexivity.
  - rewrite Pos2Z.inj_xI. apply Z.div_unique with (r := 1); lia.
  - rewrite Pos2Z.inj_xO. apply Z.div_unique with (r := 0); lia.
Qed.

Lemma pow2_xO (p : positive) : 2 ^ Zpos p~0 = 2 ^ Zpos p * 2 ^ Zpos p.
Proof. rewrite <- Z.pow_add_r by lia. f_equal. lia. Qed.

Lemma pow2_xI (p : positive) : 2 ^ Zpos p~1 = 2 * (2 ^ Zpos p * 2 ^ Zpos p).
Proof.
  rewrite <- Z.pow_add_r by lia. rewrite <- (Z.pow_1_r 2) at 2.
  rewrite <- Z.pow_add_r by lia. f_equal. lia.
Qed.

Lemma shr_m_iter (p : positive) (mrs : shr_record) :
  0 <= shr_m mrs ->
  shr_m (SpecFloat.iter_pos shr_1 p mrs) = shr_m mrs / 2 ^ Zpos p.
Proof.
  revert mrs. induction p as [p IH|p IH|]; intros mrs H; cbn [SpecFloat.iter_pos].
  - assert (H1 : 0 <= shr_m (shr_1 mrs)) by (rewrite shr_1_m by lia; apply Z.div_pos; lia).
    assert (H2 : 0 <= shr_m (SpecFloat.iter_pos shr_1 p (shr_1 mrs)))
      by (rewrite IH by lia; apply Z.div_pos; [lia|apply Z.pow_pos_nonneg; lia]).
    rewrite IH, IH, shr_1_m by assumption.
    rewrite !Z.div_div by (try apply Z.pow_pos_nonneg; lia).
    rewrite pow2_xI. f_equal; lia.
  - assert (H2 : 0 <= shr_m (SpecFloat.iter_pos shr_1 p mrs))
      by (rewrite IH by lia; apply Z.div_pos; [lia|apply Z.pow_pos_nonneg; lia]).
    rewrite IH, IH by assumption.
    rewrite !Z.div_div by (try apply Z.pow_pos_nonneg; lia).
    rewrite pow2_xO. f_equal; lia.
  - rewrite shr_1_m by assumption. reflexivity.
Qed.

Lemma shr_record_of_loc_m (m : Z) (l : location) : shr_m (shr_record_of_loc m l) = m.
Proof. destruct l as [|[]]; reflexivity. Qed.

(** [shr_fexp] divides the mantissa by the power of two that brings the
    exponent up to [fexp], when it is below. *)
Lemma shr_fexp_spec (m e : Z) (l : location) :
  0 <= m ->
  shr_m (fst (shr_fexp prec emax m e l)) = m / 2 ^ Z.max 0 (fexp (Zdigits2 m + e) - e)
  /\ snd (shr_fexp prec emax m e l) = e + Z.max 0 (fexp (Zdigits2 m + e) - e).
Proof.
  intros H. unfold shr_fexp, shr.
  destruct (fexp (Zdigits2 m + e) - e) as [|p|p] eqn:Hn; cbn [fst snd].
  - rewrite shr_record_of_loc_m. cbn. rewrite Z.div_1_r. lia.
  - rewrite shr_m_iter by (rewrite shr_record_of_loc_m; lia).
    rewrite shr_record_of_loc_m. rewrite Z.max_r by lia. split; reflexivity.
  - rewrite shr_record_of_loc_m. rewrite Z.max_l by lia. cbn. rewrite Z.div_1_r. lia.
Qed.

Lemma round_nearest_even_bounds (m : Z) (l : location) :
  m <= round_nearest_even m l <= m + 1.
Proof.
  unfold round_nearest_even. destruct l as [|[]]; try lia. destruct (Z.even m); lia.
Qed.


(** *** Rounding *)

(** A positive number above the smallest subnormal keeps its sum of
    digits and exponent in [shr_fexp], which leaves the exponent at
    [fexp] when it was not above. *)
Lemma shr_fexp_magnitude (m e : Z) (l : location) :
  0 < m -> -1074 < Zdigits2 m + e ->
  0 < shr_m (fst (shr_fexp prec emax m e l))
  /\ Zdigits2 (shr_m (fst (shr_fexp prec emax m e l))) + snd (shr_fexp prec emax m e l)
     = Zdigits2 m + e
  /\ (e <= fexp (Zdigits2 m + e) ->
      snd (shr_fexp prec emax m e l) = fexp (Zdigits2 m + e)).
Proof.
  intros Hm HL.
  destruct (shr_fexp_spec m e l ltac:(lia)) as [-> ->].
  pose proof (Zdigits2_pos m Hm) as Hd.
  rewrite fexp_eq in *.
  destruct (Zdigits2_div_pow2 m (Z.max 0 (Z.max (Zdigits2 m + e - 53) (-1074) - e)) Hm
              ltac:(lia)) as [Hpos Hdig].
  split; [exact Hpos|]. split; [rewrite Hdig; lia|]. lia.
Qed.

(** Below the smallest subnormal the mantissa is shifted out. *)
Lemma shr_fexp_underflow (m e : Z) (l : location) :
  0 <= m -> Zdigits2 m + e <= -1074 -> e <= fexp (Zdigits2 m + e) ->
  shr_m (fst (shr_fexp prec emax m e l)) = 0
  /\ snd (shr_fexp prec emax m e l) = -1074.
Proof.
  intros Hm HL He.
  destruct (shr_fexp_spec m e l Hm) as [-> ->].
  rewrite fexp_eq in *. split; [|lia].
  destruct (Z.eq_dec m 0) as [->|Hne]; [apply Z.div_0_l; apply Z.pow_nonzero; lia|].
  apply Z.div_small. split; [lia|].
  pose proof (Zdigits2_bounds m ltac:(lia)) as [_ Hhi].
  pose proof (Zdigits2_pos m ltac:(lia)).
  eapply Z.lt_le_trans; [exact Hhi|]. apply Z.pow_le_mono_r; lia.
Qed.

Lemma pos_mag_weaken (K K' : Z) (x : spec_float) : K' <= K -> pos_mag K x -> pos_mag K' x.
Proof. intros H. destruct x as [| [] | | [] m e]; cbn; try tauto. lia. Qed.

(** Rounding to nearest does not take a positive number to a smaller
    binade, and never to zero above the subnormal range. *)
Lemma binary_round_aux_pos_mag (m e : Z) (l : location) (K : Z) :
  0 < m -> K <= Zdigits2 m + e -> -1074 < K ->
  pos_mag K (bra false m e l).
Proof.
  intros Hm HK Hmin. unfold binary_round_aux.
  destruct (shr_fexp_magnitude m e l Hm ltac:(lia)) as (H1 & HL1 & _).
  destruct (shr_fexp prec emax m e l) as [mrs1 e1]. cbn [fst snd] in *.
  pose proof (round_nearest_even_bounds (shr_m mrs1) (loc_of_shr_record mrs1)) as Hr.
  set (m2 := round_nearest_even (shr_m mrs1) (loc_of_shr_record mrs1)) in *.
  pose proof (Zdigits2_le (shr_m mrs1) m2 H1 ltac:(lia)) as Hd2.
  destruct (shr_fexp_magnitude m2 e1 loc_Exact ltac:(lia) ltac:(lia)) as (H3 & HL3 & _).
  destruct (shr_fexp prec emax m2 e1 loc_Exact) as [mrs2 e2]. cbn [fst snd] in *.
  destruct (shr_m mrs2) as [|p|p]; try lia.
  destruct (e2 <=? emax - prec); cbn; [|exact I].
  cbn [Zdigits2] in HL3. lia.
Qed.

(** The result of the rounding is a float of the format when the
    exponent it starts from is not above [fexp]. *)
Lemma binary_round_aux_valid (s : bool) (m e : Z) (l : location) :
  0 <= m -> e <= fexp (Zdigits2 m + e) ->
  valid_binary (bra s m e l) = true.
Proof.
  intros Hm He. unfold binary_round_aux.
  assert (Hfirst :
    (0 < shr_m (fst (shr_fexp prec emax m e l))
     /\ -1074 < Zdigits2 (shr_m (fst (shr_fexp prec emax m e l))) + snd (shr_fexp prec emax m e l)
     /\ snd (shr_fexp prec emax m e l)
        = fexp (Zdigits2 (shr_m (fst (shr_fexp prec emax m e l))) + snd (shr_fexp prec emax m e l)))
    \/ (shr_m (fst (shr_fexp prec emax m e l)) = 0 /\ snd (shr_fexp prec emax m e l) = -1074)).
  { destruct (Z_lt_le_dec (-1074) (Zdigits2 m + e)) as [HL|HL].
    - left. assert (0 < m) by (destruct m; cbn in *; rewrite ?fexp_eq in *; lia).
      destruct (shr_fexp_magnitude m e l ltac:(lia) HL) as (H1 & HL1 & He1).
      rewrite HL1. auto.
    - right. apply shr_fexp_underflow; assumption. }
  destruct (shr_fexp prec emax m e l) as [mrs1 e1]. cbn [fst snd] in *.
  pose proof (round_nearest_even_bounds (shr_m mrs1) (loc_of_shr_record mrs1)) as Hr.
  set (m2 := round_nearest_even (shr_m mrs1) (loc_of_shr_record mrs1)) in *.
  assert (Hsecond : m2 = 0 \/ (0 < m2 /\ -1074 < Zdigits2 m2 + e1 /\ e1 <= fexp (Zdigits2 m2 + e1))).
  { destruct Hfirst as [(H1 & HL1 & He1)|[H1 He1]].
    - right. pose proof (Zdigits2_le (shr_m mrs1) m2 H1 ltac:(lia)) as Hd2.
      rewrite fexp_eq in *. lia.
    - rewrite H1 in Hr. destruct (Z.eq_dec m2 0) as [?|?]; [left; assumption|right].
      assert (m2 = 1) as -> by lia. cbn. rewrite fexp_eq. lia. }
  destruct Hsecond as [->|(H2 & HL2 & He2)].
  - destruct (shr_fexp_spec 0 e1 loc_Exact ltac:(lia)) as [H3 _].
    destruct (shr_fexp prec emax 0 e1 loc_Exact) as [mrs2 e2]. cbn [fst snd] in *.
    rewrite H3, Z.div_0_l by (apply Z.pow_nonzero; lia). reflexivity.
  - destruct (shr_fexp_magnitude m2 e1 loc_Exact H2 HL2) as (H3 & HL3 & He3).
    specialize (He3 He2).
    destruct (shr_fexp prec emax m2 e1 loc_Exact) as [mrs2 e2]. cbn [fst snd] in *.
    destruct (shr_m mrs2) as [|p|p]; try reflexivity.
    destruct (e2 <=? emax - prec) eqn:Hle; [|reflexivity].
    cbn [valid_binary]. unfold bounded, canonical_mantissa. rewrite Hle, andb_true_r.
    apply Z.eqb_eq. cbn [Zdigits2] in HL3. rewrite HL3. symmetry. exact He3.
Qed.


(** *** Division of two integers *)

Lemma Zdigits2_nonneg (m : Z) : 0 <= Zdigits2 m.
Proof. destruct m; cbn; lia. Qed.

Lemma Zdigits2_div_lower (a b k : Z) :
  0 < b -> 0 <= k -> 2 ^ k * b <= a -> k + 1 <= Zdigits2 (a / b).
Proof.
  intros Hb Hk H.
  assert (Hq : 2 ^ k <= a / b) by (apply Z.div_le_lower_bound; lia).
  assert (0 < 2 ^ k) by (apply Z.pow_pos_nonneg; lia).
  rewrite Zdigits2_log2 by lia.
  pose proof (Z.log2_le_mono _ _ Hq) as Hl. rewrite Z.log2_pow2 in Hl by lia. lia.
Qed.

(** The quotient [SFdiv] hands to the rounding: it is not negative, its
    exponent is not above [fexp], and unless the ratio is tiny it is
    positive and of the magnitude of the ratio. *)
Lemma SFdiv_core_binary_spec (n d : positive) :
  exists q e' l,
    SFdiv_core_binary prec emax (Zpos n) 0 (Zpos d) 0 = (q, e', l)
    /\ 0 <= q
    /\ e' <= fexp (Zdigits2 q + e')
    /\ (-1021 < Zdigits2 (Zpos n) - Zdigits2 (Zpos d) ->
        0 < q /\ Zdigits2 (Zpos n) - Zdigits2 (Zpos d) <= Zdigits2 q + e').
Proof.
  unfold SFdiv_core_binary.
  set (d1 := Zdigits2 (Zpos n)). set (d2 := Zdigits2 (Zpos d)).
  set (e' := Z.min (fexp (d1 + 0 - (d2 + 0))) (0 - 0)).
  set (m' := match 0 - 0 - e' with
             | Z0 => Zpos n
             | Zpos _ => Z.shiftl (Zpos n) (0 - 0 - e')
             | Zneg _ => 0
             end).
  assert (He' : e' = Z.min (Z.max (d1 - d2 - 53) (-1074)) 0)
    by (unfold e'; rewrite fexp_eq; f_equal; f_equal; lia).
  assert (Hm' : m' = Zpos n * 2 ^ (- e')).
  { unfold m'. destruct (0 - 0 - e') as [|p|p] eqn:Hs.
    - replace (- e') with 0 by lia. cbn. lia.
    - rewrite Z.shiftl_mul_pow2 by lia. f_equal. f_equal. lia.
    - lia. }
  clearbody m' e'.
  pose proof (Z_div_mod m' (Zpos d) ltac:(lia)) as Hdm.
  unfold Z.div. destruct (Z.div_eucl m' (Zpos d)) as [q r] eqn:Hqr.
  assert (Hq : q = m' / Zpos d) by (unfold Z.div; rewrite Hqr; reflexivity).
  exists q, e', (new_location (Zpos d) r). split; [reflexivity|].
  pose proof (Zdigits2_bounds (Zpos n) ltac:(lia)) as [Hn _]. fold d1 in Hn.
  pose proof (Zdigits2_bounds (Zpos d) ltac:(lia)) as [_ Hd]. fold d2 in Hd.
  pose proof (Zdigits2_pos (Zpos n) ltac:(lia)). fold d1 in H.
  pose proof (Zdigits2_pos (Zpos d) ltac:(lia)). fold d2 in H0.
  assert (Hpow : 0 < 2 ^ (- e')) by (apply Z.pow_pos_nonneg; lia).
  assert (Hq0 : 0 <= q) by (rewrite Hq; apply Z.div_pos; nia).
  assert (Hdig : d1 - d2 - e' <= Zdigits2 q).
  { destruct (Z_lt_le_dec (d1 - e' - 1) d2) as [Hlt|Hge].
    - pose proof (Zdigits2_nonneg q). lia.
    - rewrite Hq. replace (d1 - d2 - e') with ((d1 - e' - 1 - d2) + 1) by lia.
      apply Zdigits2_div_lower; [lia|lia|]. rewrite Hm'.
      transitivity (2 ^ (d1 - e' - 1 - d2) * 2 ^ d2).
      + apply Z.mul_le_mono_nonneg_l; [apply Z.pow_nonneg|]; lia.
      + rewrite <- Z.pow_add_r by lia.
        replace (d1 - e' - 1 - d2 + d2) with ((d1 - 1) + (- e')) by lia.
        rewrite Z.pow_add_r by lia. apply Z.mul_le_mono_nonneg_r; lia. }
  split; [exact Hq0|]. split.
  - rewrite fexp_eq. lia.
  - intros HX. split; [|lia].
    assert (53 <= Zdigits2 q) by lia.
    destruct q; cbn in *; lia.
Qed.

Lemma nearest_spec (s : bool) (n d : positive) :
  exists q e' l,
    Prim2SF (PyFloat.nearest s n d) = bra s q e' l
    /\ 0 <= q
    /\ (-1021 < Zdigits2 (Zpos n) - Zdigits2 (Zpos d) ->
        0 < q /\ Zdigits2 (Zpos n) - Zdigits2 (Zpos d) <= Zdigits2 q + e').
Proof.
  destruct (SFdiv_core_binary_spec n d) as (q & e' & l & Hcore & Hq & He & Hmag).
  exists q, e', l. split; [|split; assumption].
  unfold PyFloat.nearest. cbn [SFdiv]. rewrite Hcore. rewrite xorb_false_r.
  apply Prim2SF_SF2Prim. apply binary_round_aux_valid; assumption.
Qed.


(** *** Positive floats *)

Lemma pos_mag_nonzero (K : Z) (x : float) :
  pos_mag K (Prim2SF x) -> (x =? 0)%float = false /\ (0 <? x)%float = true.
Proof.
  intros H. rewrite FloatAxioms.eqb_spec, FloatAxioms.ltb_spec.
  change (Prim2SF 0) with (S754_zero false).
  destruct (Prim2SF x) as [| [] | | [] m e]; cbn in H; try tauto; split; reflexivity.
Qed.

Lemma mul_pos_mag (K1 K2 : Z) (x y : float) :
  pos_mag K1 (Prim2SF x) -> pos_mag K2 (Prim2SF y) -> -1074 < K1 + K2 - 1 ->
  pos_mag (K1 + K2 - 1) (Prim2SF (x * y)).
Proof.
  intros Hx Hy HK. rewrite FloatAxioms.mul_spec. unfold SF64mul.
  destruct (Prim2SF x) as [| [] | | [] mx ex]; cbn in Hx; try tauto;
    destruct (Prim2SF y) as [| [] | | [] my ey]; cbn in Hy; try tauto;
    cbn [SFmul xorb]; try exact I.
  apply binary_round_aux_pos_mag; [lia| |lia].
  pose proof (Zdigits2_mul (Zpos mx) (Zpos my) ltac:(lia) ltac:(lia)) as H.
  cbn [Zdigits2] in H. rewrite Pos2Z.inj_mul in *. cbn [Zdigits2]. lia.
Qed.

Lemma digits2_pos_iter_xO (p d : positive) :
  Zpos (digits2_pos (Pos.iter xO p d)) = Zpos (digits2_pos p) + Zpos d.
Proof.
  induction d as [|d IH] using Pos.peano_ind.
  - cbn. lia.
  - rewrite Pos.iter_succ. cbn [digits2_pos]. lia.
Qed.

(** An integer from 1 to [2^63 - 1] converts to a float that is at
    least 1. *)
Lemma of_int_pos_mag (k : Z) :
  1 <= k < 2 ^ 63 -> pos_mag 1 (Prim2SF (PyFloat.of_int k)).
Proof.
  intros Hk. unfold PyFloat.of_int.
  destruct (Z.ltb_spec k 0); [lia|].
  rewrite FloatAxioms.of_uint63_spec, Uint63.of_Z_spec.
  rewrite Z.mod_small by (change Uint63Axioms.wB with (2 ^ 63); lia).
  destruct k as [|p|p]; try lia.
  cbn [binary_normalize]. unfold binary_round, shl_align.
  pose proof (Zdigits2_pos (Zpos p) ltac:(lia)) as Hd. cbn [Zdigits2] in Hd.
  destruct (SpecFloat.fexp prec emax (Z.pos (digits2_pos p) + 0) - 0) as [|q|q] eqn:Hs.
  - apply binary_round_aux_pos_mag; cbn [Zdigits2]; lia.
  - apply binary_round_aux_pos_mag; cbn [Zdigits2]; lia.
  - apply binary_round_aux_pos_mag; [lia| |lia].
    cbn [Zdigits2]. rewrite digits2_pos_iter_xO. rewrite fexp_eq in *. lia.
Qed.

(** The amounts that do not compare below the minimum: either not a
    number, or at least 25. *)
Lemma not_below_minimum (a : float) :
  (a <? MIN_INVOICE_AMOUNT)%float = false ->
  Prim2SF a = S754_nan \/ pos_mag 5 (Prim2SF a).
Proof.
  rewrite FloatAxioms.ltb_spec. pose proof (Prim2SF_valid a) as Hv.
  change (Prim2SF MIN_INVOICE_AMOUNT) with (S754_finite false 7036874417766400 (-48)).
  destruct (Prim2SF a) as [[]| [] | | [] m e];
    unfold SFltb; cbn [SFcompare pos_mag]; try discriminate; auto.
  intros H. right.
  cbn [valid_binary] in Hv. unfold bounded, canonical_mantissa in Hv.
  apply andb_prop in Hv. destruct Hv as [Hc _]. apply Z.eqb_eq in Hc.
  rewrite fexp_eq in Hc.
  destruct (Z.compare_spec e (-48)); [lia| discriminate |lia].
Qed.


(** *** [round2] on values above half a cent *)

Lemma hundredths_lower (m : positive) (e : Z) :
  e < 0 -> -2 <= Zpos (digits2_pos m) + e -> 13 <= PyFloat.hundredths m e.
Proof.
  intros He Hmag. unfold PyFloat.hundredths.
  pose proof (Zdigits2_bounds (Zpos m) ltac:(lia)) as [Hlo _]. cbn [Zdigits2] in Hlo.
  pose proof (Zdigits2_pos (Zpos m) ltac:(lia)) as Hd. cbn [Zdigits2] in Hd.
  set (d := Zpos (digits2_pos m)) in *.
  assert (Hk : 0 < 2 ^ (- e)) by (apply Z.pow_pos_nonneg; lia).
  assert (H8 : 2 ^ (- e) <= 8 * Zpos m).
  { transitivity (2 ^ (3 + (d - 1))).
    - apply Z.pow_le_mono_r; lia.
    - rewrite Z.pow_add_r by lia. change (2 ^ 3) with 8. lia. }
  apply Z.div_le_lower_bound.
  - apply Z.pow_pos_nonneg; lia.
  - rewrite Z.pow_add_r by lia. change (2 ^ 1) with 2. lia.
Qed.

Lemma round2_pos_mag (x : float) :
  pos_mag (-2) (Prim2SF x) -> pos_mag (-3) (Prim2SF (PyFloat.round2 x)).
Proof.
  intros H. unfold PyFloat.round2.
  destruct (Prim2SF x) as [| [] | | [] m e] eqn:Hx; cbn in H; try tauto.
  - rewrite Hx. exact I.
  - destruct (Z.leb_spec 0 e) as [He|He].
    + rewrite Hx. cbn. lia.
    + pose proof (hundredths_lower m e He H) as Hn.
      destruct (PyFloat.hundredths m e) as [|n|n]; try lia.
      assert (Hdn : 4 <= Zdigits2 (Zpos n)).
      { rewrite Zdigits2_log2 by lia.
        pose proof (Z.log2_le_mono 8 (Zpos n) ltac:(lia)) as Hl.
        change (Z.log2 8) with 3 in Hl. lia. }
      destruct (nearest_spec false n 100) as (q & e' & l & Heq & _ & Hmag).
      rewrite Heq. change (Zdigits2 100) with 7 in Hmag.
      destruct (Hmag ltac:(lia)) as [Hq HX].
      apply binary_round_aux_pos_mag; lia.
Qed.

Lemma round2_nan (x : float) : Prim2SF x = S754_nan -> PyFloat.round2 x = x.
Proof. intros H. unfold PyFloat.round2. rewrite H. reflexivity. Qed.

Lemma mul_nan_l (x y : float) : Prim2SF x = S754_nan -> Prim2SF (x * y) = S754_nan.
Proof. intros H. rewrite FloatAxioms.mul_spec, H. reflexivity. Qed.

(** The late fee of at least one month on an amount that did not compare
    below the minimum is not zero. *)
Lemma late_fee_nonzero (a : float) (months_late : Z) :
  (a <? MIN_INVOICE_AMOUNT)%float = false ->
  1 <= months_late < 2 ^ 63 ->
  (PyFloat.round2 (a * (LATE_FEE_PERCENT * PyFloat.of_int months_late)) =? 0)%float = false.
Proof.
  intros Ha Hm. destruct (not_below_minimum a Ha) as [Hnan|Hmag].
  - rewrite round2_nan by (apply mul_nan_l; exact Hnan).
    rewrite FloatAxioms.eqb_spec, (mul_nan_l _ _ Hnan). reflexivity.
  - assert (Hrate : pos_mag (-6) (Prim2SF LATE_FEE_PERCENT)) by (vm_compute; discriminate).
    pose proof (mul_pos_mag (-6) 1 _ _ Hrate (of_int_pos_mag months_late Hm) ltac:(lia)) as Hc.
    pose proof (mul_pos_mag 5 (-6 + 1 - 1) _ _ Hmag Hc ltac:(lia)) as Hfee.
    apply (pos_mag_nonzero (-3)). apply round2_pos_mag. exact Hfee.
Qed.

End Binary64.

(** ** Rounding to hundredths *)

Section Hundredths.

Abbreviation fexp := (SpecFloat.fexp prec emax).
Abbreviation bra := (binary_round_aux prec emax).

Lemma div_eucl_eq (a b : Z) : Z.div_eucl a b = (a / b, a mod b).
Proof. unfold Z.div, Z.modulo. destruct (Z.div_eucl a b). reflexivity. Qed.

Lemma iter_xO_value (p d : positive) : Zpos (Pos.iter xO p d) = Zpos p * 2 ^ Zpos d.
Proof.
  induction d as [|d IH] using Pos.peano_ind.
  - cbn. lia.
  - rewrite Pos.iter_succ, Pos2Z.inj_xO, IH, Pos2Z.inj_succ, Z.pow_succ_r by lia. lia.
Qed.

Lemma Zdigits2_mul_pow2 (n a : Z) : 0 < n -> 0 <= a -> Zdigits2 (n * 2 ^ a) = Zdigits2 n + a.
Proof.
  intros Hn Ha. assert (0 < 2 ^ a) by (apply Z.pow_pos_nonneg; lia).
  rewrite !Zdigits2_log2 by nia. rewrite Z.log2_mul_pow2 by lia. lia.
Qed.

(** A mantissa of 53 digits with an exponent in range is its own rounding. *)
Lemma binary_round_aux_exact (s : bool) (m : positive) (e : Z) :
  Zdigits2 (Zpos m) = 53 -> -1074 <= e <= 971 ->
  bra s (Zpos m) e loc_Exact = S754_finite s m e.
Proof.
  intros Hd He. unfold binary_round_aux, shr_fexp.
  rewrite Hd, fexp_eq. replace (Z.max (53 + e - 53) (-1074) - e) with 0 by lia.
  cbn [shr shr_record_of_loc shr_m loc_of_shr_record round_nearest_even].
  rewrite Hd, fexp_eq. replace (Z.max (53 + e - 53) (-1074) - e) with 0 by lia.
  cbn [shr shr_record_of_loc shr_m].
  change (emax - prec) with 971. destruct (Z.leb_spec e 971); [reflexivity|lia].
Qed.

(** The conversion of an integer below [2 ^ 53] is exact. *)
Lemma of_int_exact (n : Z) :
  0 < n < 2 ^ 53 ->
  Prim2SF (PyFloat.of_int n)
  = S754_finite false (Z.to_pos (n * 2 ^ (53 - Zdigits2 n))) (Zdigits2 n - 53).
Proof.
  intros Hn. unfold PyFloat.of_int.
  destruct (Z.ltb_spec n 0); [lia|].
  rewrite FloatAxioms.of_uint63_spec, Uint63.of_Z_spec.
  rewrite Z.mod_small
    by (change Uint63Axioms.wB with (2 ^ 63); change (2 ^ 53) with 9007199254740992 in Hn;
        change (2 ^ 63) with 9223372036854775808; lia).
  destruct n as [|p|p]; try lia.
  pose proof (Zdigits2_pos (Zpos p) ltac:(lia)) as Hd.
  pose proof (Zdigits2_bounds (Zpos p) ltac:(lia)) as [Hlo _].
  assert (HD : Zdigits2 (Zpos p) <= 53).
  { destruct (Z_le_gt_dec (Zdigits2 (Zpos p)) 53) as [|Hgt]; [assumption|].
    assert (2 ^ 53 <= 2 ^ (Zdigits2 (Zpos p) - 1)) by (apply Z.pow_le_mono_r; lia). lia. }
  cbn [binary_normalize]. unfold binary_round, shl_align.
  change (Z.pos (digits2_pos p)) with (Zdigits2 (Zpos p)).
  set (D := Zdigits2 (Zpos p)) in *.
  rewrite Z.add_0_r, fexp_eq, Z.max_l, Z.sub_0_r by lia.
  destruct (D - 53) as [|q|q] eqn:Hq; try lia.
  - replace (53 - D) with 0 by lia. rewrite Z.mul_1_r. cbn [Z.to_pos].
    apply binary_round_aux_exact; [fold D|]; lia.
  - assert (Hv : Zpos (Pos.iter xO p q) = Zpos p * 2 ^ (53 - D)).
    { rewrite iter_xO_value. f_equal. f_equal. lia. }
    rewrite <- Hv. cbn [Z.to_pos].
    apply binary_round_aux_exact; [|lia].
    rewrite Hv, Zdigits2_mul_pow2 by lia. fold D. lia.
Qed.

Lemma new_location_scale (c nb k : Z) :
  0 < c -> Z.even nb = true ->
  new_location (nb * c) (k * c) = new_location nb k.
Proof.
  intros Hc He. unfold new_location. rewrite Z.even_mul, He. cbn [orb].
  unfold new_location_even.
  destruct (Z.eqb_spec k 0) as [->|Hk].
  - reflexivity.
  - destruct (Z.eqb_spec (k * c) 0) as [H0|_]; [nia|].
    f_equal. rewrite Z.mul_assoc. symmetry. apply Zmult_compare_compat_r. lia.
Qed.

(** Dividing the integers [n] and [100] and dividing their floats give
    the same quotient, exponent and location. *)
Lemma SFdiv_core_binary_normal (n : Z) :
  0 < n < 2 ^ 53 ->
  SFdiv_core_binary prec emax (n * 2 ^ (53 - Zdigits2 n)) (Zdigits2 n - 53)
                    7036874417766400 (-46)
  = SFdiv_core_binary prec emax n 0 100 0.
Proof.
  intros Hn.
  pose proof (Zdigits2_pos n ltac:(lia)) as Hd.
  pose proof (Zdigits2_bounds n ltac:(lia)) as [Hlo _].
  assert (HD : Zdigits2 n <= 53).
  { destruct (Z_le_gt_dec (Zdigits2 n) 53) as [|Hgt]; [assumption|].
    assert (2 ^ 53 <= 2 ^ (Zdigits2 n - 1)) by (apply Z.pow_le_mono_r; lia). lia. }
  unfold SFdiv_core_binary.
  rewrite Zdigits2_mul_pow2 by lia.
  change (Zdigits2 7036874417766400) with 53. change (Zdigits2 100) with 7.
  set (D := Zdigits2 n) in *.
  replace (D + (53 - D) + (D - 53) - (53 + -46)) with (D - 7) by lia.
  replace (D + 0 - (7 + 0)) with (D - 7) by lia.
  rewrite fexp_eq, Z.max_l by lia.
  replace (D - 53 - -46) with (D - 7) by lia.
  rewrite !Z.min_l by lia.
  replace (D - 7 - (D - 7 - 53)) with 53 by lia.
  replace (0 - 0 - (D - 7 - 53)) with (60 - D) by lia.
  destruct (60 - D) as [|s|s] eqn:Hs; try lia.
  rewrite !Z.shiftl_mul_pow2 by lia. rewrite <- Hs.
  rewrite !div_eucl_eq.
  assert (H46 : 0 < 2 ^ 46) by (apply Z.pow_pos_nonneg; lia).
  assert (Hm : n * 2 ^ (53 - D) * 2 ^ 53 = (n * 2 ^ (60 - D)) * 2 ^ 46).
  { rewrite <- !Z.mul_assoc, <- !Z.pow_add_r by lia. do 2 f_equal. lia. }
  rewrite Hm. change 7036874417766400 with (100 * 2 ^ 46).
  rewrite Z.div_mul_cancel_r by lia.
  rewrite Z.mul_mod_distr_r by lia.
  rewrite new_location_scale by (try reflexivity; lia). reflexivity.
Qed.

Lemma round2_hundredths (x : float) (m : positive) (e : Z) :
  Prim2SF x = S754_finite false m e -> e < 0 ->
  0 <= PyFloat.hundredths m e < 2 ^ 53 ->
  PyFloat.round2 x = of_hundredths (PyFloat.hundredths m e).
Proof.
  intros Hx He Hk. unfold PyFloat.round2. rewrite Hx.
  destruct (Z.leb_spec 0 e); [lia|].
  destruct (PyFloat.hundredths m e) as [|n|n] eqn:Hh; try lia.
  - vm_compute. reflexivity.
  - unfold of_hundredths, PyFloat.nearest.
    rewrite <- (SF2Prim_Prim2SF (PyFloat.of_int (Z.pos n) / 100)).
    f_equal. rewrite FloatAxioms.div_spec, (of_int_exact (Zpos n) ltac:(lia)).
    change (Prim2SF 100) with (S754_finite false 7036874417766400 (-46)).
    unfold SF64div. cbn [SFdiv].
    assert (Hpos : 0 < Z.pos n * 2 ^ (53 - Zdigits2 (Z.pos n))).
    { pose proof (Zdigits2_pos (Zpos n) ltac:(lia)).
      apply Z.mul_pos_pos; [lia|]. apply Z.pow_pos_nonneg; [lia|].
      pose proof (Zdigits2_bounds (Zpos n) ltac:(lia)) as [Hlo _].
      destruct (Z_le_gt_dec (Zdigits2 (Zpos n)) 53) as [|Hgt]; [lia|].
      assert (2 ^ 53 <= 2 ^ (Zdigits2 (Zpos n) - 1)) by (apply Z.pow_le_mono_r; lia). lia. }
    rewrite Z2Pos.id by exact Hpos.
    rewrite (SFdiv_core_binary_normal (Zpos n) ltac:(lia)). reflexivity.
Qed.

Lemma hundredths_nearest (m : positive) (e : Z) :
  e < 0 -> nearest_hundredth m e (PyFloat.hundredths m e).
Proof.
  intros He. unfold nearest_hundredth, PyFloat.hundredths.
  destruct (Z.leb_spec 0 e); [lia|].
  replace (- e + 1) with (Z.succ (- e)) by lia. rewrite Z.pow_succ_r by lia.
  assert (Hd : 0 < 2 ^ (- e)) by (apply Z.pow_pos_nonneg; lia).
  set (d := 2 ^ (- e)) in *.
  pose proof (Z.div_mod (200 * Zpos m + d) (2 * d) ltac:(lia)) as Hdm.
  pose proof (Z.mod_pos_bound (200 * Zpos m + d) (2 * d) ltac:(lia)) as Hb.
  set (k := (200 * Zpos m + d) / (2 * d)) in *. nia.
Qed.

Lemma nearest_hundredth_unique (m : positive) (e k k' : Z) :
  nearest_hundredth m e k -> nearest_hundredth m e k' -> k = k'.
Proof.
  unfold nearest_hundredth. destruct (Z.leb_spec 0 e); [congruence|].
  assert (Hd : 0 < 2 ^ (- e)) by (apply Z.pow_pos_nonneg; lia).
  set (d := 2 ^ (- e)) in *. intros Hk Hk'.
  destruct (Z.lt_trichotomy k k') as [Hlt|[Heq|Hgt]]; [exfalso|exact Heq|exfalso].
  - assert ((2 * k + 1) * d <= (2 * k' - 1) * d) by (apply Z.mul_le_mono_nonneg_r; lia). lia.
  - assert ((2 * k' + 1) * d <= (2 * k - 1) * d) by (apply Z.mul_le_mono_nonneg_r; lia). lia.
Qed.

(** [round(x, 2)] is the float of the hundredths nearest to [x]. *)
Lemma round2_nearest_hundredth (x : float) (m : positive) (e k : Z) :
  Prim2SF x = S754_finite false m e ->
  nearest_hundredth m e k -> 0 <= k < 2 ^ 53 ->
  PyFloat.round2 x = of_hundredths k.
Proof.
  intros Hx Hn Hk. destruct (Z.ltb_spec e 0) as [He|He].
  - rewrite (nearest_hundredth_unique m e k _ Hn (hundredths_nearest m e He)) in Hk |- *.
    eapply round2_hundredths; eassumption.
  - exfalso. pose proof (Prim2SF_valid x) as Hv. rewrite Hx in Hv.
    assert (Hd : Zpos (digits2_pos m) = 53).
    { revert Hv. cbn [valid_binary]. unfold bounded, canonical_mantissa.
      rewrite andb_true_iff, Z.eqb_eq, fexp_eq.
      pose proof (Zdigits2_pos (Zpos m) ltac:(lia)) as H. cbn [Zdigits2] in H. lia. }
    pose proof (Zdigits2_bounds (Zpos m) ltac:(lia)) as [Hlo _]. cbn [Zdigits2] in Hlo.
    rewrite Hd in Hlo. change (2 ^ (53 - 1)) with 4503599627370496 in Hlo.
    unfold nearest_hundredth in Hn. destruct (Z.leb_spec 0 e); [|lia].
    assert (0 < 2 ^ e) by (apply Z.pow_pos_nonneg; lia).
    change (2 ^ 53) with 9007199254740992 in Hk. nia.
Qed.

End Hundredths.

Lemma of_int_holds_integer (n : Z) : 0 < n < 2 ^ 53 -> holds_integer (PyFloat.of_int n) n.
Proof.
  intros Hn. unfold holds_integer. rewrite (of_int_exact n Hn).
  pose proof (Zdigits2_pos n ltac:(lia)) as Hd.
  pose proof (Zdigits2_bounds n ltac:(lia)) as [Hlo _].
  assert (HD : Zdigits2 n <= 53).
  { destruct (Z_le_gt_dec (Zdigits2 n) 53) as [|Hgt]; [assumption|].
    assert (2 ^ 53 <= 2 ^ (Zdigits2 n - 1)) by (apply Z.pow_le_mono_r; lia). lia. }
  split; [lia|]. replace (- (Zdigits2 n - 53)) with (53 - Zdigits2 n) by lia.
  apply Z2Pos.id. apply Z.mul_pos_pos; [lia|apply Z.pow_pos_nonneg; lia].
Qed.

(** ** The calendar *)

Lemma days_in_month_bounds (y m : Z) : 28 <= PyDate.days_in_month y m <= 31.
Proof.
  unfold PyDate.days_in_month.
  destruct (m =? 2); [destruct (PyDate.is_leap y); lia|].
  destruct ((m =? 4) || (m =? 6) || (m =? 9) || (m =? 11)); lia.
Qed.

Lemma days_before_month_from_bounds (y : Z) (n : nat) :
  0 <= PyDate.days_before_month_from y n <= 31 * Z.of_nat n.
Proof.
  induction n as [|n IH]; [cbn; lia|].
  cbn [PyDate.days_before_month_from].
  pose proof (days_in_month_bounds y (Z.of_nat (S n))). lia.
Qed.

(** The ordinal of a date of the calendar: from 1 to less than four
    million. *)
Lemma toordinal_bounds (d : datetime) :
  PyDate.valid_date (year d) (month d) (day d) = true ->
  1 <= PyDate.toordinal d < 4000000.
Proof.
  unfold PyDate.valid_date. rewrite !andb_true_iff, !Z.leb_le.
  intros (((((Hy1 & Hy2) & Hm1) & Hm2) & Hd1) & Hd2).
  unfold PyDate.toordinal, PyDate.days_before_year, PyDate.days_before_month.
  pose proof (days_before_month_from_bounds (year d) (Z.to_nat (month d - 1))) as Hb.
  pose proof (days_in_month_bounds (year d) (month d)).
  rewrite Z2Nat.id in Hb by lia. cbv zeta.
  Z.div_mod_to_equations. lia.
Qed.

Lemma strptime_valid (s : string) (fmt : list PyDate.directive) (d : datetime) :
  PyDate.strptime s fmt = Some d ->
  PyDate.valid_date (year d) (month d) (day d) = true.
Proof.
  unfold PyDate.strptime.
  destruct (PyDate.matches fmt _ _) as [|[d' [|c r]] l]; try discriminate.
  destruct (PyDate.valid_date (year d') (month d') (day d')) eqn:Hv; [|discriminate].
  intros [= <-]. exact Hv.
Qed.

Lemma try_formats_valid (s : string) (fmts : list (list PyDate.directive)) (d : datetime) :
  try_formats s fmts = Some d ->
  PyDate.valid_date (year d) (month d) (day d) = true.
Proof.
  induction fmts as [|fmt fmts IH]; [discriminate|].
  cbn [try_formats]. destruct (PyDate.strptime s fmt) as [d'|] eqn:Hd.
  - intros [= <-]. eapply strptime_valid; eassumption.
  - exact IH.
Qed.

(** C4, as the code has it: with a due date that parses, the late fee is
    0 as long as the days late are at most 30; beyond, from 31 days on,
    it is the binary product of the amount and of the monthly rate times
    the whole number of 30-day months, a number the float holds exactly,
    rounded to the hundredth nearest to that product, a half going up;
    and it is not zero for any amount that did not compare below the
    minimum, as is every amount [process_csv_file] returns. *)
Theorem late_fee_threshold (e : env) (inv : invoice) (due : datetime) :
  try_formats (due_date inv) date_formats = Some due ->
  (PyDate.days_between (now e) due <= LATE_FEE_DAYS ->
   calculate_late_fee e inv = ([], Returns 0%float))
  /\ (LATE_FEE_DAYS < PyDate.days_between (now e) due ->
      calculate_late_fee e inv
      = ([], Returns (PyFloat.round2
                        (amount inv
                         * (LATE_FEE_PERCENT
                            * PyFloat.of_int (PyDate.days_between (now e) due / 30)))%float))
      /\ (forall m ex k,
            Prim2SF (amount inv
                     * (LATE_FEE_PERCENT
                        * PyFloat.of_int (PyDate.days_between (now e) due / 30)))%float
            = S754_finite false m ex ->
            nearest_hundredth m ex k -> 0 <= k < 2 ^ 53 ->
            calculate_late_fee e inv = ([], Returns (of_hundredths k)))
      /\ (PyDate.valid_date (year (now e)) (month (now e)) (day (now e)) = true ->
          holds_integer (PyFloat.of_int (PyDate.days_between (now e) due / 30))
                        (PyDate.days_between (now e) due / 30)
          /\ ((amount inv <? MIN_INVOICE_AMOUNT)%float = false ->
              (late_fee_of e inv =? 0)%float = false))).
Proof.
  intros Hdue. pose proof (calculate_late_fee_parsed e inv due Hdue) as Hfee.
  unfold LATE_FEE_DAYS in *. split.
  - intros Hdays. rewrite Hfee.
    destruct (Z.ltb_spec 30 (PyDate.days_between (now e) due)); [lia|reflexivity].
  - intros Hdays.
    destruct (Z.ltb_spec 30 (PyDate.days_between (now e) due)); [|lia].
    split; [exact Hfee|]. split.
    + intros m ex k Hp Hk Hbound. rewrite Hfee. do 2 f_equal.
      eapply round2_nearest_hundredth; eassumption.
    + intros Hnow.
      pose proof (toordinal_bounds (now e) Hnow).
      pose proof (toordinal_bounds due (try_formats_valid _ _ _ Hdue)).
      unfold PyDate.days_between in *.
      assert (1 <= (PyDate.toordinal (now e) - PyDate.toordinal due) / 30 < 4000000).
      { split; [apply Z.div_le_lower_bound; lia|apply Z.div_lt_upper_bound; lia]. }
      split.
      * apply of_int_holds_integer. change (2 ^ 53) with 9007199254740992. lia.
      * intros Hmin. unfold late_fee_of, result. rewrite Hfee. cbn [snd].
        apply late_fee_nonzero; [exact Hmin|].
        change (2 ^ 63) with 9223372036854775808. lia.
Qed.

Lemma late_fee_threshold_witness :
  calculate_late_fee (sample_env march_15 []) (sample_invoice "CUSTXYZ" "NY" 200 "02/14/2024")
  = ([], Returns 0%float)
  /\ calculate_late_fee (sample_env march_15 []) ninety_days_late
     = ([], Returns (of_hundredths 157))
  /\ holds_integer (PyFloat.of_int 3) 3
  /\ (late_fee_of (sample_env march_15 []) ninety_days_late =? 0)%float = false.
Proof.
  split.
  - apply (late_fee_threshold (sample_env march_15 [])
             (sample_invoice "CUSTXYZ" "NY" 200 "02/14/2024")
             {| year := 2024; month := 2; day := 14 |});
      [vm_compute; reflexivity | vm_compute; discriminate].
  - destruct (late_fee_threshold (sample_env march_15 []) ninety_days_late
                {| year := 2023; month := 12; day := 16 |}) as [_ H];
      [vm_compute; reflexivity|].
    destruct H as (_ & Hpin & Hrest); [vm_compute; reflexivity|].
    destruct Hrest as [Hmonths Hnonzero]; [vm_compute; reflexivity|].
    split; [|split; [exact Hmonths|apply Hnonzero; vm_compute; reflexivity]].
    apply (Hpin 7093169413108531%positive (-52) 157).
    + vm_compute. reflexivity.
    + vm_compute. split; [discriminate|reflexivity].
    + vm_compute. split; [discriminate|reflexivity].
Defined.

(** C4 as stated fails: an invoice of 35.00 that is 90 days late is
    charged 1.57, where the amount times the rate 0.015 times the 3 months
    is 1.575, which rounds to 1.58 whether a half goes up or to the even
    hundredth, as does the product of the three floats taken from left to
    right. *)
Lemma late_fee_decimal_counterexample :
  PyFloatParse.float_of_string "35.00" = Some (amount ninety_days_late)
  /\ try_formats (due_date ninety_days_late) date_formats
     = Some {| year := 2023; month := 12; day := 16 |}
  /\ PyDate.days_between march_15 {| year := 2023; month := 12; day := 16 |} = 90
  /\ calculate_late_fee (sample_env march_15 []) ninety_days_late
     = ([], Returns (of_hundredths 157))
  /\ claimed_late_fee HalfUp 3500 90 = 158
  /\ claimed_late_fee HalfEven 3500 90 = 158
  /\ PyFloat.round2 (amount ninety_days_late * LATE_FEE_PERCENT * PyFloat.of_int 3)
     = of_hundredths 158
  /\ (of_hundredths 157 =? of_hundredths 158)%float = false.
Proof. repeat split; vm_compute; reflexivity. Qed.

(** ** The bulk discount *)

Section Discount.

Abbreviation fexp := (SpecFloat.fexp prec emax).
Abbreviation bra := (binary_round_aux prec emax).

Lemma Zdigits2_unique (m k : Z) : 0 < k -> 2 ^ (k - 1) <= m < 2 ^ k -> Zdigits2 m = k.
Proof.
  intros Hk H.
  assert (0 < 2 ^ (k - 1)) by (apply Z.pow_pos_nonneg; lia).
  rewrite Zdigits2_log2 by lia.
  rewrite (Z.log2_unique m (k - 1)); [lia|lia|].
  replace (Z.succ (k - 1)) with k by lia. exact H.
Qed.

(** The rounding of a positive number with at least 53 digits, in the
    range of the normal numbers: the mantissa is cut to 53 digits and
    goes up by one at most, which may carry into the next binade. *)
Lemma binary_round_aux_normal (m e : Z) (l : location) :
  0 < m -> 53 <= Zdigits2 m -> -1074 <= Zdigits2 m + e - 53 ->
  exists m2,
    m / 2 ^ (Zdigits2 m - 53) <= m2 <= m / 2 ^ (Zdigits2 m - 53) + 1
    /\ 2 ^ 52 <= m2 <= 2 ^ 53
    /\ bra false m e l
       = if m2 <? 2 ^ 53
         then (if e + Zdigits2 m - 53 <=? emax - prec
               then S754_finite false (Z.to_pos m2) (e + Zdigits2 m - 53)
               else S754_infinity false)
         else (if e + Zdigits2 m - 52 <=? emax - prec
               then S754_finite false (Z.to_pos (2 ^ 52)) (e + Zdigits2 m - 52)
               else S754_infinity false).
Proof.
  intros Hm HD Hn. unfold binary_round_aux.
  destruct (shr_fexp_spec m e l ltac:(lia)) as [Hm1 He1].
  rewrite fexp_eq in Hm1, He1.
  replace (Z.max 0 (Z.max (Zdigits2 m + e - 53) (-1074) - e)) with (Zdigits2 m - 53)
    in Hm1, He1 by lia.
  destruct (Zdigits2_div_pow2 m (Zdigits2 m - 53) Hm ltac:(lia)) as [Hpos Hdig].
  destruct (shr_fexp prec emax m e l) as [mrs1 e1]. cbn [fst snd] in *.
  pose proof (round_nearest_even_bounds (shr_m mrs1) (loc_of_shr_record mrs1)) as Hr.
  set (m2 := round_nearest_even (shr_m mrs1) (loc_of_shr_record mrs1)) in *.
  rewrite <- Hm1 in Hpos, Hdig.
  pose proof (Zdigits2_bounds (shr_m mrs1) Hpos) as Hb.
  replace (Zdigits2 (shr_m mrs1)) with 53 in Hb by lia.
  change (2 ^ (53 - 1)) with (2 ^ 52) in Hb.
  exists m2. rewrite <- Hm1. split; [exact Hr|]. split; [lia|].
  destruct (shr_fexp_spec m2 e1 loc_Exact ltac:(lia)) as [Hm3 He3].
  rewrite fexp_eq in Hm3, He3.
  destruct (Z.ltb_spec m2 (2 ^ 53)) as [Hlt|Hge].
  - assert (Hd2 : Zdigits2 m2 = 53) by (apply Zdigits2_unique; [lia|]; change (2 ^ (53 - 1)) with (2 ^ 52); lia).
    rewrite Hd2 in Hm3, He3.
    replace (Z.max 0 (Z.max (53 + e1 - 53) (-1074) - e1)) with 0 in Hm3, He3 by lia.
    rewrite Z.pow_0_r, Z.div_1_r in Hm3.
    destruct (shr_fexp prec emax m2 e1 loc_Exact) as [mrs2 e2]. cbn [fst snd] in *.
    rewrite Hm3. destruct m2 as [|p|p]; try lia.
    replace e2 with (e + Zdigits2 m - 53) by lia. reflexivity.
  - assert (Hm2 : m2 = 2 ^ 53) by lia.
    assert (Hd2 : Zdigits2 m2 = 54) by (rewrite Hm2; reflexivity).
    rewrite Hd2 in Hm3, He3.
    replace (Z.max 0 (Z.max (54 + e1 - 53) (-1074) - e1)) with 1 in Hm3, He3 by lia.
    destruct (shr_fexp prec emax m2 e1 loc_Exact) as [mrs2 e2]. cbn [fst snd] in *.
    rewrite Hm3, Hm2. change (2 ^ 53 / 2 ^ 1) with (2 ^ 52).
    replace e2 with (e + Zdigits2 m - 52) by lia. reflexivity.
Qed.


Lemma SFeqb_finite_neq (ma mb : positive) (ea eb : Z) :
  ea <> eb \/ ma <> mb ->
  SFeqb (S754_finite false ma ea) (S754_finite false mb eb) = false.
Proof.
  intros H. unfold SFeqb. cbn [SFcompare].
  destruct (Z.compare_spec ea eb); try reflexivity. subst.
  change (Pos.compare_cont Eq ma mb) with (Pos.compare ma mb).
  destruct (Pos.compare_spec ma mb); try reflexivity. subst. destruct H; congruence.
Qed.

Lemma SFeqb_pos_mag_refl (K : Z) (x : spec_float) : pos_mag K x -> SFeqb x x = true.
Proof.
  destruct x as [| [] | | [] m e]; cbn [pos_mag]; try tauto; intros _; try reflexivity.
  unfold SFeqb. cbn [SFcompare]. rewrite Z.compare_refl.
  change (Pos.compare_cont Eq m m) with (Pos.compare m m). rewrite Pos.compare_refl.
  reflexivity.
Qed.

(** A float of the format that is at least [2 ^ (K - 1)], with
    [K > -1021], is a normal number. *)
Lemma pos_mag_normal (K : Z) (m : positive) (e : Z) :
  valid_binary (S754_finite false m e) = true ->
  K <= Zpos (digits2_pos m) + e -> -1021 <= K ->
  Zpos (digits2_pos m) = 53 /\ K - 53 <= e <= 971.
Proof.
  cbn [valid_binary]. unfold bounded, canonical_mantissa.
  rewrite andb_true_iff, Z.eqb_eq, Z.leb_le, fexp_eq.
  change (emax - prec) with 971. lia.
Qed.

Lemma discount_factor : Prim2SF (1 - BULK_DISCOUNT_RATE) = S754_finite false 8736983277098762 (-53).
Proof. vm_compute. reflexivity. Qed.

(** The discounted amount of a number that is at least 25 is another
    number: the factor is below [1 - 2^-6], far more than the rounding
    can make up for. *)
Lemma discount_changes_amount (a : float) (m : positive) (e : Z) :
  Prim2SF a = S754_finite false m e ->
  5 <= Zpos (digits2_pos m) + e ->
  (a =? a * (1 - BULK_DISCOUNT_RATE))%float = false.
Proof.
  intros Ha Hmag. pose proof (Prim2SF_valid a) as Hv. rewrite Ha in Hv.
  destruct (pos_mag_normal 5 m e Hv Hmag ltac:(lia)) as [Hd He].
  pose proof (Zdigits2_bounds (Zpos m) ltac:(lia)) as Hb. cbn [Zdigits2] in Hb.
  rewrite Hd in Hb. change (2 ^ (53 - 1)) with 4503599627370496 in Hb.
  change (2 ^ 53) with 9007199254740992 in Hb.
  rewrite FloatAxioms.eqb_spec, FloatAxioms.mul_spec, Ha, discount_factor.
  unfold SF64mul. cbn [SFmul xorb].
  set (M := Zpos (m * 8736983277098762)).
  assert (HM : M = Zpos m * 8736983277098762) by reflexivity.
  assert (HMb : 2 ^ 104 <= M < 2 ^ 106).
  { change (2 ^ 104) with (4503599627370496 * 4503599627370496).
    change (2 ^ 106) with (9007199254740992 * 9007199254740992). nia. }
  destruct (Z_lt_le_dec M (2 ^ 105)) as [Hlow|Hhigh].
  - assert (HD : Zdigits2 M = 105) by (apply Zdigits2_unique; [lia|]; change (105 - 1) with 104; lia).
    destruct (binary_round_aux_normal M (e + -53) loc_Exact ltac:(lia) ltac:(lia) ltac:(lia))
      as (m2 & Hm2 & Hr & ->).
    rewrite HD in *. change (2 ^ (105 - 53)) with 4503599627370496 in Hm2.
    change (2 ^ 52) with 4503599627370496 in *. change (2 ^ 53) with 9007199254740992 in *.
    change (emax - prec) with 971.
    destruct (Z.ltb_spec m2 9007199254740992).
    + destruct (Z.leb_spec (e + -53 + 105 - 53) 971); [|reflexivity].
      apply SFeqb_finite_neq. left. lia.
    + destruct (Z.leb_spec (e + -53 + 105 - 52) 971); [|reflexivity].
      apply SFeqb_finite_neq. right. intros ->.
      assert (M / 4503599627370496 = 8736983277098762) by (vm_compute; reflexivity).
      lia.
  - assert (HD : Zdigits2 M = 106) by (apply Zdigits2_unique; [lia|]; change (106 - 1) with 105; lia).
    destruct (binary_round_aux_normal M (e + -53) loc_Exact ltac:(lia) ltac:(lia) ltac:(lia))
      as (m2 & Hm2 & Hr & ->).
    rewrite HD in *. change (2 ^ (106 - 53)) with 9007199254740992 in Hm2.
    change (2 ^ 52) with 4503599627370496 in *. change (2 ^ 53) with 9007199254740992 in *.
    change (emax - prec) with 971.
    assert (Hq : M / 9007199254740992 <= Zpos m - 70368744177664).
    { apply Z.div_le_upper_bound; lia. }
    destruct (Z.ltb_spec m2 9007199254740992); [|lia].
    destruct (Z.leb_spec (e + -53 + 106 - 53) 971); [|reflexivity].
    apply SFeqb_finite_neq. right. intros Heq.
    assert (Zpos m = m2) by (rewrite Heq; apply Z2Pos.id; lia). lia.
Qed.


Lemma bulk_threshold : Prim2SF BULK_DISCOUNT_THRESHOLD = S754_finite false 5497558138880000 (-39).
Proof. vm_compute. reflexivity. Qed.

Lemma at_least_threshold (a : float) :
  (BULK_DISCOUNT_THRESHOLD <=? a)%float = true -> pos_mag 14 (Prim2SF a).
Proof.
  rewrite FloatAxioms.leb_spec, bulk_threshold. pose proof (Prim2SF_valid a) as Hv.
  destruct (Prim2SF a) as [[]| [] | | [] m e];
    unfold SFleb; cbn [SFcompare pos_mag]; try discriminate; auto.
  intros H.
  cbn [valid_binary] in Hv. unfold bounded, canonical_mantissa in Hv.
  apply andb_prop in Hv. destruct Hv as [Hc _]. apply Z.eqb_eq in Hc.
  rewrite fexp_eq in Hc.
  destruct (Z.compare_spec (-39) e); [lia|lia|discriminate].
Qed.

(** The taxable amount is the discounted amount exactly when the amount
    is at least the threshold, for every amount that did not compare
    below the minimum. *)
Lemma bulk_discount_iff (a : float) :
  (a <? MIN_INVOICE_AMOUNT)%float = false ->
  (taxable_amount a =? a * (1 - BULK_DISCOUNT_RATE))%float
  = (BULK_DISCOUNT_THRESHOLD <=? a)%float.
Proof.
  intros Hmin. destruct (BULK_DISCOUNT_THRESHOLD <=? a)%float eqn:Hb.
  - rewrite (taxable_amount_discounted a Hb), FloatAxioms.eqb_spec.
    apply (SFeqb_pos_mag_refl (14 + 0 - 1)). apply mul_pos_mag.
    + apply at_least_threshold. exact Hb.
    + rewrite discount_factor. cbn. lia.
    + lia.
  - rewrite (taxable_amount_unmodified a Hb).
    destruct (not_below_minimum a Hmin) as [Hnan|Hmag].
    + rewrite FloatAxioms.eqb_spec, Hnan. reflexivity.
    + destruct (Prim2SF a) as [| [] | | [] m e] eqn:Ha; cbn [pos_mag] in Hmag; try tauto.
      * rewrite FloatAxioms.leb_spec, Ha, bulk_threshold in Hb. discriminate Hb.
      * eapply discount_changes_amount; eassumption.
Qed.

(** C7, as the code has it: the tax is the binary product of the taxable
    amount and the rate, rounded to the hundredth nearest to that
    product, a half going up; the taxable amount is the amount less 3%
    when the amount is at least 10000.00, the threshold included, and the
    amount itself when it is below, be it by one cent; for every amount
    that did not compare below the minimum the two differ, so that the
    taxable amount is the discounted one exactly when the threshold is
    reached. *)
Theorem bulk_discount_threshold (e : env) (inv : invoice) :
  exists ev rate,
    resolve_rate inv = (ev, Returns rate)
    /\ calculate_tax e inv
       = (ev, Returns (PyFloat.round2
                         (taxable_amount (amount inv)
                          * quarterly_adjustment (month (now e)) rate)%float))
    /\ (forall m ex k,
          Prim2SF (taxable_amount (amount inv)
                   * quarterly_adjustment (month (now e)) rate)%float
          = S754_finite false m ex ->
          nearest_hundredth m ex k -> 0 <= k < 2 ^ 53 ->
          calculate_tax e inv = (ev, Returns (of_hundredths k)))
    /\ ((BULK_DISCOUNT_THRESHOLD <=? amount inv)%float = true ->
        taxable_amount (amount inv) = (amount inv * (1 - BULK_DISCOUNT_RATE))%float)
    /\ ((BULK_DISCOUNT_THRESHOLD <=? amount inv)%float = false ->
        taxable_amount (amount inv) = amount inv)
    /\ ((amount inv <? MIN_INVOICE_AMOUNT)%float = false ->
        (taxable_amount (amount inv) =? amount inv * (1 - BULK_DISCOUNT_RATE))%float
        = (BULK_DISCOUNT_THRESHOLD <=? amount inv)%float)
    /\ taxable_amount 10000.00 = 9700%float
    /\ taxable_amount 9999.99 = 9999.99%float.
Proof.
  destruct (resolve_rate_returns inv) as (ev & rate & H).
  exists ev, rate. split; [exact H|]. split; [apply calculate_tax_eq; exact H|].
  split.
  { intros m ex k Hp Hk Hbound. rewrite (calculate_tax_eq e inv ev rate H). do 2 f_equal.
    eapply round2_nearest_hundredth; eassumption. }
  split; [apply taxable_amount_discounted|]. split; [apply taxable_amount_unmodified|].
  split; [apply bulk_discount_iff|]. split; vm_compute; reflexivity.
Qed.

Lemma bulk_discount_threshold_witness :
  calculate_tax (sample_env march_15 []) texas_invoice = ([], Returns (of_hundredths 157)).
Proof.
  destruct (bulk_discount_threshold (sample_env march_15 []) texas_invoice)
    as (ev & rate & Hrate & _ & Hpin & _).
  assert (ev = [] /\ rate = 0.0625%float) as [-> ->].
  { assert (resolve_rate texas_invoice = ([], Returns 0.0625%float)) as Hr
      by (vm_compute; reflexivity).
    rewrite Hr in Hrate. injection Hrate as <- <-. split; reflexivity. }
  apply (Hpin 7093169413108531%positive (-52) 157).
  - vm_compute. reflexivity.
  - vm_compute. split; [discriminate|reflexivity].
  - vm_compute. split; [discriminate|reflexivity].
Defined.

(** C7 as stated fails in its second half: an invoice of 25.20 in Texas,
    outside the fourth quarter, is charged a tax of 1.57, where the base
    25.20 times the rate 0.0625 is 1.575, which rounds to 1.58 whether a
    half goes up or to the even hundredth. *)
Lemma tax_decimal_counterexample :
  PyFloatParse.float_of_string "25.20" = Some (amount texas_invoice)
  /\ resolve_rate texas_invoice = ([], Returns 0.0625%float)
  /\ taxable_amount (amount texas_invoice) = amount texas_invoice
  /\ calculate_tax (sample_env march_15 []) texas_invoice
     = ([], Returns (of_hundredths 157))
  /\ claimed_tax HalfUp 2520 625 10000 = 158
  /\ claimed_tax HalfEven 2520 625 10000 = 158
  /\ (of_hundredths 157 =? of_hundredths 158)%float = false.
Proof. repeat split; vm_compute; reflexivity. Qed.

End Discount.

(** ** Totals of finite amounts *)

Section Totals.

Abbreviation fexp := (SpecFloat.fexp prec emax).
Abbreviation bra := (binary_round_aux prec emax).

Lemma nonneg_leb (x : float) : nonneg (Prim2SF x) -> (0 <=? x)%float = true.
Proof.
  rewrite FloatAxioms.leb_spec. change (Prim2SF 0) with (S754_zero false).
  destruct (Prim2SF x) as [[]| [] | | [] m e]; cbn [nonneg]; try tauto; reflexivity.
Qed.

Lemma pos_mag_nonneg (K : Z) (x : spec_float) : pos_mag K x -> nonneg x.
Proof. destruct x as [[]| [] | | [] m e]; cbn; tauto. Qed.

(** The two rate tables hold these rates and no other. *)
Lemma override_rates (customer : string) (r : float) :
  CUSTOMER_TAX_OVERRIDES !! customer = Some r ->
  r = 0.0%float \/ r = 0.045%float \/ r = 0.0725%float.
Proof.
  unfold CUSTOMER_TAX_OVERRIDES. rewrite !lookup_insert_Some, lookup_empty.
  intuition congruence.
Qed.

Lemma state_rates (st : string) (r : float) :
  STATE_TAX_RATES !! st = Some r ->
  r = 0.0725%float \/ r = 0.08%float \/ r = 0.0625%float \/ r = 0.06%float
  \/ r = 0.065%float \/ r = 0.05%float.
Proof.
  unfold STATE_TAX_RATES. rewrite !lookup_insert_Some, lookup_empty.
  intuition congruence.
Qed.

(** After the quarterly adjustment a rate is zero or at least [2 ^ -6]. *)
Lemma adjusted_rate_cases (inv : invoice) (ev : list event) (rate : float) (current_month : Z) :
  resolve_rate inv = (ev, Returns rate) ->
  Prim2SF (quarterly_adjustment current_month rate) = S754_zero false
  \/ pos_mag (-5) (Prim2SF (quarterly_adjustment current_month rate)).
Proof.
  unfold resolve_rate, quarterly_adjustment.
  destruct (CUSTOMER_TAX_OVERRIDES !! customer_id inv) as [r|] eqn:Ho.
  - intros [= _ <-].
    destruct (override_rates _ _ Ho) as [->|[->| ->]];
      destruct (10 <=? current_month); vm_compute; auto; right; discriminate.
  - destruct (STATE_TAX_RATES !! state inv) as [r|] eqn:Hs.
    + intros [= _ <-].
      destruct (state_rates _ _ Hs) as [->|[->|[->|[->|[->| ->]]]]];
        destruct (10 <=? current_month); vm_compute; right; discriminate.
    + intros [= _ <-].
      destruct (10 <=? current_month); vm_compute; right; discriminate.
Qed.


(** The discounted amount of a finite amount of at least 25 is finite. *)
Lemma discount_finite (a : float) (m : positive) (e : Z) :
  Prim2SF a = S754_finite false m e ->
  5 <= Zpos (digits2_pos m) + e ->
  exists m' e',
    Prim2SF (a * (1 - BULK_DISCOUNT_RATE)) = S754_finite false m' e'
    /\ 4 <= Zpos (digits2_pos m') + e'.
Proof.
  intros Ha Hmag. pose proof (Prim2SF_valid a) as Hv. rewrite Ha in Hv.
  destruct (pos_mag_normal 5 m e Hv Hmag ltac:(lia)) as [Hd He].
  pose proof (Zdigits2_bounds (Zpos m) ltac:(lia)) as Hb. cbn [Zdigits2] in Hb.
  rewrite Hd in Hb. change (2 ^ (53 - 1)) with 4503599627370496 in Hb.
  change (2 ^ 53) with 9007199254740992 in Hb.
  assert (Hx : pos_mag (5 + 0 - 1) (Prim2SF (a * (1 - BULK_DISCOUNT_RATE)))).
  { apply mul_pos_mag; [rewrite Ha; exact Hmag | rewrite discount_factor; cbn; lia | lia]. }
  revert Hx. rewrite FloatAxioms.mul_spec, Ha, discount_factor.
  unfold SF64mul. cbn [SFmul xorb].
  set (M := Zpos (m * 8736983277098762)).
  assert (HM : M = Zpos m * 8736983277098762) by reflexivity.
  assert (HMb : 2 ^ 104 <= M < 2 ^ 106).
  { change (2 ^ 104) with (4503599627370496 * 4503599627370496).
    change (2 ^ 106) with (9007199254740992 * 9007199254740992). nia. }
  assert (HD : 105 <= Zdigits2 M <= 106).
  { destruct (Z_lt_le_dec M (2 ^ 105)).
    - rewrite (Zdigits2_unique M 105); [lia|lia|]. change (105 - 1) with 104. lia.
    - rewrite (Zdigits2_unique M 106); [lia|lia|]. change (106 - 1) with 105. lia. }
  destruct (binary_round_aux_normal M (e + -53) loc_Exact ltac:(lia) ltac:(lia) ltac:(lia))
    as (m2 & Hm2 & Hr & ->).
  change (emax - prec) with 971.
  destruct (Z.ltb_spec m2 (2 ^ 53)).
  - destruct (Z.leb_spec (e + -53 + Zdigits2 M - 53) 971); [|lia].
    intros Hx. eexists _, _. split; [reflexivity|exact Hx].
  - assert (Zdigits2 M = 105).
    { destruct (Z.eq_dec (Zdigits2 M) 105) as [|Hne]; [assumption|].
      assert (HD6 : Zdigits2 M = 106) by lia. rewrite HD6 in Hm2.
      change (2 ^ (106 - 53)) with 9007199254740992 in Hm2.
      change (2 ^ 53) with 9007199254740992 in *.
      assert (M / 9007199254740992 <= Zpos m - 70368744177664)
        by (apply Z.div_le_upper_bound; lia).
      lia. }
    destruct (Z.leb_spec (e + -53 + Zdigits2 M - 52) 971); [|lia].
    intros Hx. eexists _, _. split; [reflexivity|exact Hx].
Qed.

Lemma taxable_amount_finite (a : float) (m : positive) (e : Z) :
  Prim2SF a = S754_finite false m e ->
  5 <= Zpos (digits2_pos m) + e ->
  exists m' e',
    Prim2SF (taxable_amount a) = S754_finite false m' e'
    /\ 4 <= Zpos (digits2_pos m') + e'.
Proof.
  intros Ha Hmag. unfold taxable_amount.
  destruct (BULK_DISCOUNT_THRESHOLD <=? a)%float.
  - eapply discount_finite; eassumption.
  - exists m, e. split; [exact Ha|lia].
Qed.

Lemma round2_zero (x : float) (s : bool) : Prim2SF x = S754_zero s -> PyFloat.round2 x = x.
Proof. intros H. unfold PyFloat.round2. rewrite H. reflexivity. Qed.

(** The tax on a finite amount of at least 25 is not negative. *)
Lemma tax_nonneg (e : env) (inv : invoice) (m : positive) (ex : Z) :
  Prim2SF (amount inv) = S754_finite false m ex ->
  5 <= Zpos (digits2_pos m) + ex ->
  nonneg (Prim2SF (tax_of e inv)).
Proof.
  intros Ha Hmag. destruct (resolve_rate_returns inv) as (ev & rate & Hr).
  unfold tax_of, result. rewrite (calculate_tax_eq e inv ev rate Hr). cbn [snd].
  destruct (taxable_amount_finite _ _ _ Ha Hmag) as (m' & e' & Hb & Hbmag).
  destruct (adjusted_rate_cases inv ev rate (month (now e)) Hr) as [Hz|Hp].
  - assert (Hprod : Prim2SF (taxable_amount (amount inv)
                             * quarterly_adjustment (month (now e)) rate) = S754_zero false)
      by (rewrite FloatAxioms.mul_spec, Hb, Hz; reflexivity).
    rewrite (round2_zero _ _ Hprod), Hprod. exact I.
  - apply (pos_mag_nonneg (-3)). apply round2_pos_mag.
    apply (pos_mag_weaken (4 + -5 - 1)); [lia|].
    apply mul_pos_mag; [rewrite Hb; exact Hbmag|exact Hp|lia].
Qed.


(** The late fee is zero or positive. *)
Lemma late_fee_nonneg (e : env) (inv : invoice) :
  PyDate.valid_date (year (now e)) (month (now e)) (day (now e)) = true ->
  pos_mag 5 (Prim2SF (amount inv)) ->
  nonneg (Prim2SF (late_fee_of e inv)).
Proof.
  intros Hnow Hmag. unfold late_fee_of, result.
  destruct (try_formats (due_date inv) date_formats) as [due|] eqn:Hdue.
  - rewrite (calculate_late_fee_parsed e inv due Hdue). cbn [snd]. unfold LATE_FEE_DAYS.
    destruct (Z.ltb_spec 30 (PyDate.days_between (now e) due)); [|exact I].
    apply (pos_mag_nonneg (-3)). apply round2_pos_mag.
    apply (pos_mag_weaken (5 + (-6 + 1 - 1) - 1)); [lia|].
    apply mul_pos_mag; [exact Hmag| |lia].
    apply mul_pos_mag; [vm_compute; discriminate| |lia].
    apply of_int_pos_mag.
    pose proof (toordinal_bounds (now e) Hnow).
    pose proof (toordinal_bounds due (try_formats_valid _ _ _ Hdue)).
    unfold PyDate.days_between in *.
    assert (1 <= (PyDate.toordinal (now e) - PyDate.toordinal due) / 30 < 4000000).
    { split; [apply Z.div_le_lower_bound; lia|apply Z.div_lt_upper_bound; lia]. }
    change (2 ^ 63) with 9223372036854775808. lia.
  - rewrite (calculate_late_fee_unparsed e inv Hdue). exact I.
Qed.

(** *** Sums *)

Lemma shl_align_magnitude (m : positive) (e e' : Z) :
  Zpos (digits2_pos (fst (shl_align m e e'))) + snd (shl_align m e e')
  = Zpos (digits2_pos m) + e
  /\ Zpos m <= Zpos (fst (shl_align m e e')).
Proof.
  unfold shl_align. destruct (e' - e) as [|d|d] eqn:Hd; cbn [fst snd]; try lia.
  rewrite digits2_pos_iter_xO. split; [lia|].
  clear. induction d using Pos.peano_ind.
  - cbn. lia.
  - rewrite Pos.iter_succ. lia.
Qed.

Lemma binary_round_pos_mag (m : positive) (e K : Z) :
  K <= Zpos (digits2_pos m) + e -> -1074 < K ->
  pos_mag K (binary_round prec emax false m e).
Proof.
  intros HK Hmin. unfold binary_round.
  pose proof (shl_align_magnitude m e (SpecFloat.fexp prec emax (Zpos (digits2_pos m) + e))) as [H _].
  destruct (shl_align m e _) as [mz ez]. cbn [fst snd] in H.
  apply binary_round_aux_pos_mag; cbn [Zdigits2]; lia.
Qed.

(** Adding a value that is not negative to a positive one keeps it
    positive and at least as large. *)
Lemma add_pos_mag (K : Z) (x y : float) :
  pos_mag K (Prim2SF x) -> nonneg (Prim2SF y) -> -1074 < K ->
  pos_mag K (Prim2SF (x + y)).
Proof.
  intros Hx Hy HK. rewrite FloatAxioms.add_spec. unfold SF64add.
  destruct (Prim2SF x) as [| [] | | [] mx ex]; cbn [pos_mag] in Hx; try tauto;
    destruct (Prim2SF y) as [[]| [] | | [] my ey]; cbn [nonneg] in Hy; try tauto;
    cbn [SFadd pos_mag]; try exact I; try exact Hx.
  cbn [cond_Zopp].
  pose proof (shl_align_magnitude mx ex (Z.min ex ey)) as [Hax Hgx].
  assert (Hex : snd (shl_align mx ex (Z.min ex ey)) = Z.min ex ey).
  { unfold shl_align. destruct (Z.min ex ey - ex) eqn:Hd; cbn [snd]; lia. }
  rewrite Hex in Hax.
  set (mx' := fst (shl_align mx ex (Z.min ex ey))) in *.
  set (my' := fst (shl_align my ey (Z.min ex ey))) in *.
  change (Zpos mx' + Zpos my') with (Zpos (mx' + my')). cbn [binary_normalize].
  apply binary_round_pos_mag; [|exact HK].
  pose proof (Zdigits2_le (Zpos mx') (Zpos (mx' + my')) ltac:(lia) ltac:(lia)) as Hle.
  cbn [Zdigits2] in Hle. lia.
Qed.


Lemma at_least_minimum (a : float) :
  (MIN_INVOICE_AMOUNT <=? a)%float = true -> pos_mag 5 (Prim2SF a).
Proof.
  rewrite FloatAxioms.leb_spec. pose proof (Prim2SF_valid a) as Hv.
  change (Prim2SF MIN_INVOICE_AMOUNT) with (S754_finite false 7036874417766400 (-48)).
  destruct (Prim2SF a) as [[]| [] | | [] m e];
    unfold SFleb; cbn [SFcompare pos_mag]; try discriminate; auto.
  intros H.
  cbn [valid_binary] in Hv. unfold bounded, canonical_mantissa in Hv.
  apply andb_prop in Hv. destruct Hv as [Hc _]. apply Z.eqb_eq in Hc.
  rewrite fexp_eq in Hc.
  destruct (Z.compare_spec (-48) e); [lia|lia|discriminate].
Qed.

(** X6: for every finite amount the valuation is within bounds: with an amount
    that is at least the minimum and below infinity, and a calendar date
    for now, the total is the sum of amount, tax and late fee as floats,
    and tax, late fee and total are at least 0. *)
Theorem finite_amount_valuation_nonnegative (e : env) (inv : invoice) :
  PyDate.valid_date (year (now e)) (month (now e)) (day (now e)) = true ->
  (MIN_INVOICE_AMOUNT <=? amount inv)%float = true ->
  (amount inv <? infinity)%float = true ->
  pdf_total (pdf_of e inv) = (amount inv + tax_of e inv + late_fee_of e inv)%float
  /\ (0 <=? tax_of e inv)%float = true
  /\ (0 <=? late_fee_of e inv)%float = true
  /\ (0 <=? pdf_total (pdf_of e inv))%float = true.
Proof.
  intros Hnow Hmin Hfin. pose proof (at_least_minimum _ Hmin) as Hmag.
  assert (Hfinite : exists m ex, Prim2SF (amount inv) = S754_finite false m ex
                                 /\ 5 <= Zpos (digits2_pos m) + ex).
  { rewrite FloatAxioms.ltb_spec in Hfin. change (Prim2SF infinity) with (S754_infinity false) in Hfin.
    destruct (Prim2SF (amount inv)) as [| [] | | [] m ex]; cbn [pos_mag] in Hmag; try tauto.
    - discriminate Hfin.
    - eexists _, _. split; [reflexivity|exact Hmag]. }
  destruct Hfinite as (m & ex & Ha & Hm).
  pose proof (tax_nonneg e inv m ex Ha Hm) as Htax.
  pose proof (late_fee_nonneg e inv Hnow Hmag) as Hfee.
  split; [reflexivity|]. split; [apply nonneg_leb; exact Htax|].
  split; [apply nonneg_leb; exact Hfee|].
  apply nonneg_leb. apply (pos_mag_nonneg 5). cbn [pdf_of pdf_total]. unfold invoice_total.
  apply add_pos_mag; [|exact Hfee|lia]. apply add_pos_mag; [exact Hmag|exact Htax|lia].
Qed.

End Totals.

(** * Further properties of the code *)

(** ** Every row is accounted for *)

Lemma process_row_accounted (f : string) (n : nat) (row : list string) :
  (length (option_list (snd (process_row f n row)))
   + length (List.filter is_rejection (fst (process_row f n row))))%nat = 1%nat.
Proof.
  unfold process_row. destruct (length row <? 10)%nat; [reflexivity|].
  destruct (PyFloatParse.float_of_string (nth 6 row "")) as [a|]; [|reflexivity].
  cbn [amount customer_id]. destruct (a <? MIN_INVOICE_AMOUNT)%float; reflexivity.
Qed.

Lemma process_rows_accounted (f : string) (n : nat) (rows : list (list string)) :
  (length (snd (process_rows f n rows))
   + length (List.filter is_rejection (fst (process_rows f n rows))))%nat = length rows.
Proof.
  revert n. induction rows as [|row rows IH]; intros n; [reflexivity|].
  rewrite process_rows_cons. cbn [fst snd length].
  rewrite List.filter_app, !length_app.
  pose proof (process_row_accounted f n row). specialize (IH (S n)). lia.
Qed.

Lemma reader_length (d : ascii) (lines : list string) :
  length (PyCsv.reader d lines) = length lines.
Proof. unfold PyCsv.reader. apply length_map. Qed.


(** ** Where the invoices come from *)

Lemma process_row_provenance (f : string) (n : nat) (row : list string) (inv : invoice) :
  snd (process_row f n row) = Some inv ->
  (10 <= length row)%nat
  /\ PyFloatParse.float_of_string (nth 6 row "") = Some (amount inv)
  /\ (amount inv <? MIN_INVOICE_AMOUNT)%float = false
  /\ customer_id inv = PyStr.strip (nth 0 row "")
  /\ state inv = PyStr.upper (PyStr.strip (nth 4 row ""))
  /\ invoice_date inv = PyStr.strip (nth 7 row "")
  /\ due_date inv = PyStr.strip (nth 8 row "")
  /\ items inv = PyStr.strip (nth 9 row "").
Proof.
  unfold process_row. destruct (Nat.ltb_spec (length row) 10); [discriminate|].
  destruct (PyFloatParse.float_of_string (nth 6 row "")) as [a|] eqn:Hf; [|discriminate].
  cbn [amount customer_id]. destruct (a <? MIN_INVOICE_AMOUNT)%float eqn:Ha; [discriminate|].
  cbn [snd]. intros [= <-].
  cbn [amount customer_id state invoice_date due_date items].
  destruct (Nat.ltb_spec 9 (length row)); [|lia]. repeat split; auto.
Qed.

Lemma process_rows_provenance (f : string) (n : nat) (rows : list (list string))
      (inv : invoice) :
  In inv (snd (process_rows f n rows)) ->
  exists i row, nth_error rows i = Some row /\ snd (process_row f (n + i) row) = Some inv.
Proof.
  revert n. induction rows as [|row rows IH]; intros n; [intros []|].
  rewrite process_rows_cons. cbn [snd]. rewrite in_app_iff. intros [H|H].
  - destruct (snd (process_row f n row)) as [inv'|] eqn:Hrow; [|destruct H].
    destruct H as [->|[]]. exists O, row. rewrite Nat.add_0_r. split; [reflexivity|exact Hrow].
  - destruct (IH (S n) H) as (i & r & Hi & Hr). exists (S i), r.
    split; [exact Hi|]. rewrite Nat.add_succ_r. exact Hr.
Qed.

(** X2: every invoice a file returns comes from one of its rows after the
    header: a row of at least 10 columns whose seventh field parses to
    the amount, which did not compare below the minimum, and whose other
    fields are the stripped columns, the state in upper case. *)
Theorem returned_invoices_come_from_rows
    (e : env) (filename : string) (lines : list string) (inv : invoice) :
  read_lines e filename = Some lines ->
  In inv (result [] (process_csv_file e filename)) ->
  exists i row,
    nth_error (PyCsv.reader
                 (if PyStr.contains ";"%char (hd "" lines) then ";"%char else ","%char) lines)
              (S i) = Some row
    /\ (10 <= length row)%nat
    /\ PyFloatParse.float_of_string (nth 6 row "") = Some (amount inv)
    /\ (amount inv <? MIN_INVOICE_AMOUNT)%float = false
    /\ customer_id inv = PyStr.strip (nth 0 row "")
    /\ state inv = PyStr.upper (PyStr.strip (nth 4 row ""))
    /\ invoice_date inv = PyStr.strip (nth 7 row "")
    /\ due_date inv = PyStr.strip (nth 8 row "")
    /\ items inv = PyStr.strip (nth 9 row "").
Proof.
  intros Hread Hin.
  destruct (PyCsv.reader (if PyStr.contains ";"%char (hd "" lines) then ";"%char else ","%char) lines)
    as [|headers rows] eqn:Hrows.
  { unfold process_csv_file, result in Hin. rewrite Hread in Hin. cbv zeta in Hin.
    rewrite Hrows in Hin. destruct Hin. }
  rewrite (process_csv_file_rows e filename lines headers rows Hread Hrows) in Hin.
  unfold result in Hin. cbn [snd] in Hin.
  destruct (process_rows_provenance _ _ _ _ Hin) as (i & row & Hi & Hrow).
  exists i, row. split; [exact Hi|]. eapply process_row_provenance. exact Hrow.
Qed.

(** ** Normalised fields *)

Lemma lstrip_head (l : list ascii) :
  PyStr.lstrip l = [] \/ exists c r, PyStr.lstrip l = c :: r /\ PyStr.is_space c = false.
Proof.
  induction l as [|c l IH]; [left; reflexivity|].
  cbn [PyStr.lstrip]. destruct (PyStr.is_space c) eqn:Hc; [exact IH|].
  right. exists c, l. split; [reflexivity|exact Hc].
Qed.

Lemma lstrip_fixed (c : ascii) (r : list ascii) :
  PyStr.is_space c = false -> PyStr.lstrip (c :: r) = c :: r.
Proof. intros H. cbn [PyStr.lstrip]. rewrite H. reflexivity. Qed.

Lemma lstrip_idempotent (l : list ascii) : PyStr.lstrip (PyStr.lstrip l) = PyStr.lstrip l.
Proof.
  destruct (lstrip_head l) as [->|(c & r & -> & Hc)]; [reflexivity|].
  apply lstrip_fixed. exact Hc.
Qed.

Lemma lstrip_keeps_last (c : ascii) (x : list ascii) :
  PyStr.is_space c = false -> exists y, PyStr.lstrip (x ++ [c]) = (y ++ [c])%list.
Proof.
  intros Hc. induction x as [|a x IH].
  - exists []. cbn. rewrite Hc. reflexivity.
  - cbn [app PyStr.lstrip]. destruct (PyStr.is_space a); [exact IH|].
    exists (a :: x). reflexivity.
Qed.

Lemma rstrip_idempotent (l : list ascii) : PyStr.rstrip (PyStr.rstrip l) = PyStr.rstrip l.
Proof. unfold PyStr.rstrip. rewrite rev_involutive, lstrip_idempotent. reflexivity. Qed.

Lemma lstrip_rstrip_lstrip (l : list ascii) :
  PyStr.lstrip (PyStr.rstrip (PyStr.lstrip l)) = PyStr.rstrip (PyStr.lstrip l).
Proof.
  destruct (lstrip_head l) as [->|(c & r & -> & Hc)]; [reflexivity|].
  unfold PyStr.rstrip. cbn [rev].
  destruct (lstrip_keeps_last c (rev r) Hc) as [y ->].
  rewrite rev_app_distr. cbn [rev app]. apply lstrip_fixed. exact Hc.
Qed.

(** [strip] leaves nothing to strip. *)
Lemma strip_idempotent (s : string) : PyStr.strip (PyStr.strip s) = PyStr.strip s.
Proof.
  unfold PyStr.strip. rewrite list_ascii_of_string_of_list_ascii.
  rewrite lstrip_rstrip_lstrip, rstrip_idempotent. reflexivity.
Qed.

Lemma upper_char_idempotent (c : ascii) : PyStr.upper_char (PyStr.upper_char c) = PyStr.upper_char c.
Proof. destruct c as [[] [] [] [] [] [] [] []]; reflexivity. Qed.

Lemma is_space_upper_char (c : ascii) : PyStr.is_space (PyStr.upper_char c) = PyStr.is_space c.
Proof. destruct c as [[] [] [] [] [] [] [] []]; reflexivity. Qed.

Lemma lstrip_upper (l : list ascii) :
  PyStr.lstrip (map PyStr.upper_char l) = map PyStr.upper_char (PyStr.lstrip l).
Proof.
  induction l as [|c l IH]; [reflexivity|].
  cbn [map PyStr.lstrip]. rewrite is_space_upper_char.
  destruct (PyStr.is_space c); [exact IH|reflexivity].
Qed.

(** Upper case and [strip] commute. *)
Lemma strip_upper (s : string) : PyStr.strip (PyStr.upper s) = PyStr.upper (PyStr.strip s).
Proof.
  unfold PyStr.strip, PyStr.upper, PyStr.rstrip.
  rewrite !list_ascii_of_string_of_list_ascii.
  rewrite lstrip_upper, <- map_rev, lstrip_upper, map_rev. reflexivity.
Qed.

Lemma upper_idempotent (s : string) : PyStr.upper (PyStr.upper s) = PyStr.upper s.
Proof.
  unfold PyStr.upper. rewrite list_ascii_of_string_of_list_ascii, map_map.
  f_equal. apply map_ext. apply upper_char_idempotent.
Qed.

Lemma process_row_normalised (f : string) (n : nat) (row : list string) (inv : invoice) :
  snd (process_row f n row) = Some inv -> normalised inv.
Proof.
  unfold process_row. destruct (length row <? 10)%nat; [discriminate|].
  destruct (PyFloatParse.float_of_string (nth 6 row "")) as [a|]; [|discriminate].
  cbn [amount customer_id]. destruct (a <? MIN_INVOICE_AMOUNT)%float; [discriminate|].
  cbn [snd]. intros [= <-]. unfold normalised, stripped.
  cbn [customer_id customer_name address city state zip invoice_date due_date items].
  destruct (9 <? length row)%nat;
    rewrite strip_upper, upper_idempotent, !strip_idempotent; repeat split; reflexivity.
Qed.

Lemma process_csv_file_result (e : env) (filename : string) :
  result [] (process_csv_file e filename) = []
  \/ exists rows, result [] (process_csv_file e filename) = snd (process_rows filename 0 rows).
Proof.
  unfold process_csv_file, result.
  destruct (read_lines e filename) as [lines|]; [|left; reflexivity]. cbv zeta.
  destruct (PyCsv.reader _ lines) as [|headers rows]; [left; reflexivity|].
  right. exists rows. destruct (process_rows filename 0 rows). reflexivity.
Qed.

(** X3: every invoice a file returns has its text fields free of white space
    at both ends and its state in upper case. *)
Theorem returned_invoices_normalised (e : env) (filename : string) (inv : invoice) :
  In inv (result [] (process_csv_file e filename)) -> normalised inv.
Proof.
  destruct (process_csv_file_result e filename) as [->|[rows ->]]; [intros []|].
  intros Hin. destruct (process_rows_provenance _ _ _ _ Hin) as (i & row & _ & Hrow).
  eapply process_row_normalised. exact Hrow.
Qed.

(** ** Counting in [main] *)

Lemma quiet_nil : quiet [].
Proof. repeat split. Qed.

Lemma quiet_app (evs evs' : list event) : quiet evs -> quiet evs' -> quiet (evs ++ evs').
Proof.
  unfold quiet, processed_files. intros (H1 & H2 & H3) (H1' & H2' & H3').
  rewrite flat_map_app, !List.filter_app.
  unfold processed_files in *. rewrite H1, H2, H3, H1', H2', H3'. repeat split.
Qed.

Lemma process_row_quiet (f : string) (n : nat) (row : list string) :
  quiet (fst (process_row f n row)).
Proof.
  unfold process_row. destruct (length row <? 10)%nat; [repeat split|].
  destruct (PyFloatParse.float_of_string (nth 6 row "")) as [a|]; [|repeat split].
  cbn [amount customer_id]. destruct (a <? MIN_INVOICE_AMOUNT)%float; repeat split.
Qed.

Lemma process_rows_quiet (f : string) (n : nat) (rows : list (list string)) :
  quiet (fst (process_rows f n rows)).
Proof.
  revert n. induction rows as [|row rows IH]; intros n; [apply quiet_nil|].
  rewrite process_rows_cons. cbn [fst]. apply quiet_app; [apply process_row_quiet|apply IH].
Qed.

Lemma calculate_tax_quiet (e : env) (inv : invoice) : quiet (events (calculate_tax e inv)).
Proof.
  destruct (resolve_rate_returns inv) as (ev & rate & H).
  rewrite (calculate_tax_eq e inv ev rate H). unfold events. cbn [fst].
  unfold resolve_rate in H.
  destruct (CUSTOMER_TAX_OVERRIDES !! customer_id inv); [inversion H; apply quiet_nil|].
  destruct (STATE_TAX_RATES !! state inv); inversion H; repeat split.
Qed.

Lemma calculate_late_fee_quiet (e : env) (inv : invoice) :
  quiet (events (calculate_late_fee e inv)).
Proof.
  destruct (try_formats (due_date inv) date_formats) as [due|] eqn:H.
  - rewrite (calculate_late_fee_parsed e inv due H). apply quiet_nil.
  - rewrite (calculate_late_fee_unparsed e inv H). repeat split.
Qed.

Lemma rendered_split (e : env) (invoices : list invoice) :
  (length (rendered e invoices) + length (not_rendered e invoices))%nat = length invoices.
Proof.
  unfold rendered, not_rendered. induction invoices as [|inv invoices IH]; [reflexivity|].
  cbn [List.filter]. destruct (canvas_ok e (pdf_of e inv)); cbn [negb length]; lia.
Qed.

Lemma process_invoices_counts (e : env) (invoices : list invoice) (processed failed : nat) :
  exists ev,
    process_invoices e invoices (processed, failed)
    = (ev, Returns ((processed + length (rendered e invoices))%nat,
                    (failed + length (not_rendered e invoices))%nat))
    /\ processed_files ev = []
    /\ length (List.filter is_generated ev) = length (rendered e invoices)
    /\ length (List.filter is_pdf_failure ev) = length (not_rendered e invoices).
Proof.
  revert processed failed. induction invoices as [|inv invoices IH]; intros processed failed.
  - exists []. cbn. rewrite !Nat.add_0_r. repeat split.
  - cbn [process_invoices]. rewrite process_invoice_eq, bind_returns.
    destruct (calculate_tax_quiet e inv) as (T1 & T2 & T3).
    destruct (calculate_late_fee_quiet e inv) as (L1 & L2 & L3).
    unfold rendered, not_rendered in *. cbn [List.filter].
    destruct (canvas_ok e (pdf_of e inv)) eqn:Hok; cbn [negb].
    + destruct (IH (S processed) failed) as (ev & Heq & P & G & F).
      rewrite Heq. cbn [events fst snd]. eexists. split.
      { f_equal. f_equal. f_equal. cbn [length]. lia. }
      unfold processed_files in *.
      rewrite !flat_map_app, !List.filter_app, !length_app, T1, T2, T3, L1, L2, L3, P, G, F.
      repeat split.
    + destruct (IH processed (S failed)) as (ev & Heq & P & G & F).
      rewrite Heq. cbn [events fst snd]. eexists. split.
      { f_equal. f_equal. f_equal. cbn [length]. lia. }
      unfold processed_files in *.
      rewrite !flat_map_app, !List.filter_app, !length_app, T1, T2, T3, L1, L2, L3, P, G, F.
      repeat split.
Qed.

Lemma readable_spec (e : env) (csv_file : string) :
  (readable e csv_file = true
   /\ exists rows,
        process_csv_file e (CSV_INPUT_PATH ++ csv_file)
        = (fst (process_rows (CSV_INPUT_PATH ++ csv_file) 0 rows),
           Returns (snd (process_rows (CSV_INPUT_PATH ++ csv_file) 0 rows))))
  \/ (readable e csv_file = false
      /\ process_csv_file e (CSV_INPUT_PATH ++ csv_file)
         = ([Print (FatalCannotReadFile (CSV_INPUT_PATH ++ csv_file));
             LogError (CannotReadFile (CSV_INPUT_PATH ++ csv_file))], Exits 1)).
Proof.
  unfold readable, process_csv_file.
  destruct (read_lines e (CSV_INPUT_PATH ++ csv_file)) as [[|line lines]|];
    [right; split; reflexivity | | right; split; reflexivity].
  left. split; [reflexivity|]. cbv zeta. unfold PyCsv.reader. cbn [map].
  match goal with |- context [process_rows _ 0 ?rows] => exists rows end.
  destruct (process_rows _ 0 _). reflexivity.
Qed.

Lemma process_file_spec (e : env) (csv_file : string) (processed failed : nat) :
  (readable e csv_file = true
   /\ exists ev,
        process_file e csv_file (processed, failed)
        = (ev, Returns ((processed + length (rendered e (invoices_of e csv_file)))%nat,
                        (failed + length (not_rendered e (invoices_of e csv_file)))%nat))
        /\ processed_files ev = [csv_file]
        /\ length (List.filter is_generated ev) = length (rendered e (invoices_of e csv_file))
        /\ length (List.filter is_pdf_failure ev)
           = length (not_rendered e (invoices_of e csv_file)))
  \/ (readable e csv_file = false
      /\ invoices_of e csv_file = []
      /\ process_file e csv_file (processed, failed)
         = ([Print (Processing csv_file);
             Print (FatalCannotReadFile (CSV_INPUT_PATH ++ csv_file));
             LogError (CannotReadFile (CSV_INPUT_PATH ++ csv_file))], Exits 1)).
Proof.
  destruct (readable_spec e csv_file) as [[Hr [rows Hfile]]|[Hr Hfile]].
  - left. split; [exact Hr|].
    unfold invoices_of, result. rewrite Hfile. cbn [snd].
    destruct (process_rows_quiet (CSV_INPUT_PATH ++ csv_file) 0 rows) as (Q1 & Q2 & Q3).
    destruct (process_invoices_counts e (snd (process_rows (CSV_INPUT_PATH ++ csv_file) 0 rows))
                processed failed) as (ev & Heq & P & G & F).
    exists (Print (Processing csv_file)
            :: fst (process_rows (CSV_INPUT_PATH ++ csv_file) 0 rows)
            ++ Print (FoundValidInvoices
                        (length (snd (process_rows (CSV_INPUT_PATH ++ csv_file) 0 rows))))
            :: ev
            ++ (if rename_ok e (CSV_INPUT_PATH ++ csv_file) then []
                else [Print WarnCouldNotMove]))%list.
    split.
    + unfold process_file, emit, ret, bind. rewrite Hfile, Heq.
      destruct (rename_ok e (CSV_INPUT_PATH ++ csv_file)); cbn [app];
        rewrite ?app_nil_r; reflexivity.
    + unfold processed_files in *.
      destruct (rename_ok e (CSV_INPUT_PATH ++ csv_file)); cbn [app flat_map List.filter is_generated is_pdf_failure];
        rewrite ?flat_map_app, ?List.filter_app, ?length_app, ?Q1, ?Q2, ?Q3, ?P;
        cbn [app flat_map List.filter is_generated is_pdf_failure length];
        rewrite ?flat_map_app, ?List.filter_app, ?length_app, ?P, ?G, ?F, ?app_nil_r;
        cbn; repeat split; lia.
  - right. split; [exact Hr|]. split.
    + unfold invoices_of, result. rewrite Hfile. reflexivity.
    + unfold process_file. rewrite Hfile. reflexivity.
Qed.

Lemma process_files_spec (e : env) (files : list string) (processed failed : nat) :
  (forallb (readable e) files = true
   /\ exists ev,
        process_files e files (processed, failed)
        = (ev, Returns
                 ((processed + length (rendered e (flat_map (invoices_of e) files)))%nat,
                  (failed + length (not_rendered e (flat_map (invoices_of e) files)))%nat))
        /\ processed_files ev = files
        /\ length (List.filter is_generated ev)
           = length (rendered e (flat_map (invoices_of e) files))
        /\ length (List.filter is_pdf_failure ev)
           = length (not_rendered e (flat_map (invoices_of e) files)))
  \/ (forallb (readable e) files = false
      /\ exists ev done bad rest,
           files = (done ++ bad :: rest)%list
           /\ forallb (readable e) done = true
           /\ readable e bad = false
           /\ process_files e files (processed, failed) = (ev, Exits 1)
           /\ processed_files ev = (done ++ [bad])%list).
Proof.
  revert processed failed. induction files as [|file files IH]; intros processed failed.
  - left. split; [reflexivity|]. exists []. cbn. rewrite !Nat.add_0_r. repeat split.
  - cbn [process_files forallb flat_map].
    destruct (process_file_spec e file processed failed)
      as [(Hr & ev1 & Heq1 & P1 & G1 & F1)|(Hr & Hnone & Heq1)].
    + rewrite Hr, Heq1, bind_returns. cbn [andb].
      destruct (IH (processed + length (rendered e (invoices_of e file)))%nat
                   (failed + length (not_rendered e (invoices_of e file)))%nat)
        as [(Hall & ev2 & Heq2 & P2 & G2 & F2)|(Hall & ev2 & done & bad & rest & Hf & Hd & Hb & Heq2 & P2)].
      * left. split; [exact Hall|]. rewrite Heq2. cbn [events fst snd].
        eexists. split.
        { f_equal. unfold rendered, not_rendered.
          rewrite !List.filter_app, !length_app. f_equal. f_equal; lia. }
        unfold processed_files, rendered, not_rendered in *.
        rewrite flat_map_app, !List.filter_app, !length_app, P1, P2, G1, G2, F1, F2.
        repeat split.
      * right. split; [exact Hall|]. rewrite Heq2. cbn [events fst snd].
        exists (ev1 ++ ev2)%list, (file :: done), bad, rest.
        split; [rewrite Hf; reflexivity|]. split; [cbn [forallb]; rewrite Hr, Hd; reflexivity|].
        split; [exact Hb|]. split; [reflexivity|].
        unfold processed_files in *. rewrite flat_map_app, P1, P2. reflexivity.
    + right. rewrite Hr, Heq1. cbn [andb]. split; [reflexivity|].
      eexists _, [], file, files.
      split; [reflexivity|]. split; [reflexivity|]. split; [exact Hr|].
      split; reflexivity.
Qed.

(** ** The whole run *)

Lemma main_eq (e : env) :
  path_exists e CSV_INPUT_PATH = true ->
  path_exists e PDF_OUTPUT_PATH = true ->
  csv_files e <> [] ->
  main e
  = ((Print Starting :: Print (InputPath CSV_INPUT_PATH) :: Print (OutputPath PDF_OUTPUT_PATH)
      :: fst (process_files e (csv_files e) (O, O))
      ++ match snd (process_files e (csv_files e) (O, O)) with
         | Returns (p, f) => [Print (ProcessingComplete p f)]
         | Exits _ => []
         end)%list,
     match snd (process_files e (csv_files e) (O, O)) with
     | Returns _ => Returns tt
     | Exits st => Exits st
     end).
Proof.
  intros Hin Hout Hne. unfold main. rewrite Hin, Hout. fold (csv_files e).
  destruct (csv_files e) as [|f0 fs] eqn:Hfiles; [congruence|].
  destruct (process_files e (f0 :: fs) (O, O)) as [ev [[p f]|st]]; cbn [fst snd].
  - cbn. reflexivity.
  - cbn. rewrite ?app_nil_r. reflexivity.
Qed.


Lemma csv_files_spec (e : env) (f : string) :
  In f (csv_files e) <-> endswith ".csv" f = true /\ In f (listdir e).
Proof.
  unfold csv_files. rewrite <- !list_elem_of_In, list_elem_of_filter. reflexivity.
Qed.


Lemma main_returns_paths (e : env) :
  snd (main e) = Returns tt ->
  path_exists e CSV_INPUT_PATH = true /\ path_exists e PDF_OUTPUT_PATH = true.
Proof.
  unfold main. destruct (path_exists e CSV_INPUT_PATH); [|discriminate].
  destruct (path_exists e PDF_OUTPUT_PATH); [|discriminate]. auto.
Qed.

(** X13: when the run ends normally with files to process, its last line is
    the summary, whose counts are the documents printed as generated and
    the failures written to the error log; together they are all the
    invoices of all the files. *)
Theorem summary_counts_match (e : env) :
  snd (main e) = Returns tt ->
  csv_files e <> [] ->
  exists ev total_processed total_failed,
    fst (main e) = (ev ++ [Print (ProcessingComplete total_processed total_failed)])%list
    /\ total_processed = length (List.filter is_generated (fst (main e)))
    /\ total_failed = length (List.filter is_pdf_failure (fst (main e)))
    /\ (total_processed + total_failed)%nat
       = length (flat_map (invoices_of e) (csv_files e)).
Proof.
  intros Hret Hne.
  destruct (main_returns_paths e Hret) as [Hin Hout].
  rewrite (main_eq e Hin Hout Hne) in Hret |- *.
  destruct (process_files_spec e (csv_files e) O O)
    as [(_ & ev & Heq & P & G & F)|(_ & ev & done & bad & rest & _ & _ & _ & Heq & _)];
    rewrite Heq in Hret |- *; [|discriminate Hret].
  cbn [fst snd].
  exists (Print Starting :: Print (InputPath CSV_INPUT_PATH)
          :: Print (OutputPath PDF_OUTPUT_PATH) :: ev),
         (length (rendered e (flat_map (invoices_of e) (csv_files e)))),
         (length (not_rendered e (flat_map (invoices_of e) (csv_files e)))).
  split; [reflexivity|].
  cbn [List.filter is_generated is_pdf_failure].
  rewrite !List.filter_app, !length_app, G, F. cbn [List.filter is_generated is_pdf_failure length].
  split; [lia|]. split; [lia|]. apply rendered_split.
Qed.

(** ** The items block *)

Lemma split_fields_length (d : ascii) (field s : list ascii) :
  length (PyCsv.split_fields d field s) = S (length (List.filter (Ascii.eqb d) s)).
Proof.
  revert field. induction s as [|c s IH]; intros field; [reflexivity|].
  cbn [PyCsv.split_fields List.filter]. rewrite (Ascii.eqb_sym d c).
  destruct (Ascii.eqb c d); cbn [length]; rewrite IH; reflexivity.
Qed.

Lemma str_split_length (d : ascii) (s : string) :
  length (str_split d s) = S (count_char d s).
Proof. apply split_fields_length. Qed.

(** An entry is drawn exactly when it holds two colons. *)
Lemma item_text_drawn (item : string) :
  is_Some (item_text item) <-> count_char ":" item = 2%nat.
Proof.
  unfold item_text.
  pose proof (str_split_length ":" item) as H.
  destruct (str_split ":" item) as [|a [|b [|c [|d l]]]];
    cbn [length] in H; split; intros H'; try lia;
    try (eexists; reflexivity); inversion H' as [? H'']; discriminate H''.
Qed.

Lemma item_lines_from_end (y_pos : Z) (entries : list string) :
  snd (item_lines_from y_pos entries) = y_pos - 15 * Z.of_nat (length entries).
Proof.
  revert y_pos. induction entries as [|item entries IH]; intros y_pos; [cbn; lia|].
  cbn [item_lines_from]. specialize (IH (y_pos - 15)).
  destruct (item_lines_from (y_pos - 15) entries) as [drawn y_end]. cbn [fst snd length] in *.
  lia.
Qed.

Lemma item_lines_from_drawn (y_pos : Z) (entries : list string) (y : Z) (text : string) :
  In (y, text) (fst (item_lines_from y_pos entries))
  <-> exists i item, nth_error entries i = Some item /\ item_text item = Some text
                     /\ y = y_pos - 15 * (Z.of_nat i + 1).
Proof.
  revert y_pos. induction entries as [|item entries IH]; intros y_pos.
  - cbn. split; [tauto|]. intros (i & item & H & _). destruct i; discriminate H.
  - cbn [item_lines_from]. specialize (IH (y_pos - 15)).
    destruct (item_lines_from (y_pos - 15) entries) as [drawn y_end]. cbn [fst] in *.
    assert (In (y, text) drawn <->
            exists i item', nth_error (item :: entries) (S i) = Some item'
                            /\ item_text item' = Some text
                            /\ y = y_pos - 15 * (Z.of_nat (S i) + 1)) as IH'.
    { rewrite IH. split; intros (i & it & H1 & H2 & H3); exists i, it;
        (split; [exact H1|split; [exact H2|lia]]). }
    split.
    + intros H.
      assert (In (y, text) drawn \/ (item_text item = Some text /\ y = y_pos - 15)) as [Hd|[Ht Hy]].
      { destruct (item_text item) as [t|]; [|left; exact H].
        destruct H as [H|H]; [right; inversion H; auto|left; exact H]. }
      * apply IH' in Hd. destruct Hd as (i & it & H1 & H2 & H3). exists (S i), it. auto.
      * exists 0%nat, item. cbn. split; [reflexivity|split; [exact Ht|lia]].
    + intros (i & it & H1 & H2 & H3). destruct i as [|i].
      * cbn in H1. injection H1 as <-. rewrite H2. left. f_equal. lia.
      * assert (In (y, text) drawn) as Hd by (apply IH'; exists i, it; auto).
        destruct (item_text item); [right|]; exact Hd.
Qed.

(** X8: every entry of [items] takes a line of the page, drawn or not, and
    an entry is drawn, at the line of its rank, exactly when it has three
    colon-separated parts. *)
Theorem items_block_layout (inv : invoice) (y_pos : Z) :
  items inv <> "" ->
  let entries := str_split "|" (items inv) in
  length entries = S (count_char "|" (items inv))
  /\ snd (item_lines inv y_pos) = y_pos - 30 - 15 * Z.of_nat (length entries)
  /\ (forall y text, In (y, text) (fst (item_lines inv y_pos)) ->
        snd (item_lines inv y_pos) <= y <= y_pos - 45)
  /\ (forall i item, nth_error entries i = Some item ->
        (count_char ":" item = 2%nat
         <-> exists text, In (y_pos - 30 - 15 * (Z.of_nat i + 1), text)
                             (fst (item_lines inv y_pos)))).
Proof.
  intros Hne entries.
  assert (item_lines inv y_pos = item_lines_from (y_pos - 30) entries) as ->.
  { unfold item_lines. destruct (items inv); [congruence|reflexivity]. }
  split; [apply str_split_length|].
  split; [apply item_lines_from_end|].
  split.
  - intros y text H. rewrite item_lines_from_end.
    apply item_lines_from_drawn in H. destruct H as (i & item & H1 & _ & ->).
    assert (i < length entries)%nat by (apply nth_error_Some; congruence).
    lia.
  - intros i item Hi. rewrite <- item_text_drawn. split.
    + intros [text Ht]. exists text. apply item_lines_from_drawn. exists i, item. auto.
    + intros [text H]. apply item_lines_from_drawn in H.
      destruct H as (j & item' & H1 & H2 & H3).
      assert (j = i) as -> by lia. rewrite Hi in H1. injection H1 as <-. eauto.
Qed.

Lemma split_fields_part (d : ascii) (field l r : list ascii) :
  existsb (Ascii.eqb d) l = false ->
  PyCsv.split_fields d field (l ++ d :: r)
  = string_of_list_ascii (rev field ++ l) :: PyCsv.split_fields d [] r.
Proof.
  revert field. induction l as [|c l IH]; intros field H.
  - cbn. rewrite Ascii.eqb_refl, app_nil_r. reflexivity.
  - cbn in H. apply orb_false_elim in H as [Hc Hl].
    cbn [app PyCsv.split_fields]. rewrite Ascii.eqb_sym, Hc, (IH _ Hl).
    cbn [rev]. rewrite <- app_assoc. reflexivity.
Qed.

Lemma split_fields_last (d : ascii) (field l : list ascii) :
  existsb (Ascii.eqb d) l = false ->
  PyCsv.split_fields d field l = [string_of_list_ascii (rev field ++ l)].
Proof.
  revert field. induction l as [|c l IH]; intros field H.
  - cbn. rewrite app_nil_r. reflexivity.
  - cbn in H. apply orb_false_elim in H as [Hc Hl].
    cbn [PyCsv.split_fields]. rewrite Ascii.eqb_sym, Hc, (IH _ Hl).
    cbn [rev]. rewrite <- app_assoc. reflexivity.
Qed.

Lemma list_ascii_of_string_app (a b : string) :
  list_ascii_of_string (a ++ b) = (list_ascii_of_string a ++ list_ascii_of_string b)%list.
Proof. induction a as [|c a IH]; [reflexivity|]. change (String c a ++ b) with (String c (a ++ b)). cbn [list_ascii_of_string app]. f_equal. exact IH. Qed.

(** [sep.join(parts).split(sep)] gives the parts back when none holds
    the separator. *)
Lemma str_split_join (d : ascii) (parts : list string) :
  parts <> [] ->
  Forall (fun part => PyStr.contains d part = false) parts ->
  str_split d (str_join d parts) = parts.
Proof.
  intros Hne H. unfold str_split.
  induction H as [|part parts Hp H IH]; [congruence|].
  destruct parts as [|part' parts].
  - cbn [str_join]. rewrite split_fields_last by exact Hp.
    cbn. rewrite string_of_list_ascii_of_string. reflexivity.
  - change (str_join d (part :: part' :: parts))
      with (part ++ String d (str_join d (part' :: parts))).
    rewrite list_ascii_of_string_app. cbn [list_ascii_of_string].
    rewrite split_fields_part by exact Hp.
    cbn [rev app]. rewrite string_of_list_ascii_of_string, IH by congruence. reflexivity.
Qed.

Lemma contains_app (c : ascii) (a b : string) :
  PyStr.contains c (a ++ b) = PyStr.contains c a || PyStr.contains c b.
Proof. unfold PyStr.contains. rewrite list_ascii_of_string_app. apply existsb_app. Qed.

Lemma item_text_entry (item : string * string * string) :
  item_fields_plain item ->
  PyStr.contains "|" (item_entry item) = false
  /\ item_text (item_entry item)
     = Some (let '(name, quantity, price) := item in
             quantity ++ " x " ++ name ++ " @ $" ++ price).
Proof.
  destruct item as [[name quantity] price]. intros H.
  apply Forall_cons in H as [[Hn Hn'] H]. apply Forall_cons in H as [[Hq Hq'] H].
  apply Forall_cons in H as [[Hp Hp'] _].
  split.
  - unfold item_entry. cbn [str_join].
    rewrite contains_app, Hn'. cbn [orb].
    change (String ":" (quantity ++ String ":" price)) with (":" ++ (quantity ++ ":" ++ price)).
    rewrite !contains_app, Hq', Hp'. reflexivity.
  - unfold item_text, item_entry. rewrite str_split_join; [reflexivity|congruence|].
    repeat constructor; assumption.
Qed.

Lemma item_lines_from_entries (y_pos : Z) (parsed : list (string * string * string)) :
  Forall item_fields_plain parsed ->
  fst (item_lines_from y_pos (map item_entry parsed))
  = imap (fun i '(name, quantity, price) =>
            (y_pos - 15 * (Z.of_nat i + 1), quantity ++ " x " ++ name ++ " @ $" ++ price))
         parsed.
Proof.
  intros H. revert y_pos. induction H as [|item parsed Hi H IH]; intros y_pos; [reflexivity|].
  cbn [map item_lines_from]. specialize (IH (y_pos - 15)).
  destruct (item_lines_from (y_pos - 15) (map item_entry parsed)) as [drawn y_end].
  cbn [fst] in *. destruct (item_text_entry item Hi) as [_ ->].
  rewrite imap_cons, IH. destruct item as [[name quantity] price].
  apply (f_equal2 cons); [f_equal; lia|].
  apply imap_ext. intros i [[n q] p] _. cbn. f_equal. lia.
Qed.

(** X9: entries written as name:quantity:price and joined with bars are
    all drawn, one per line and in their order, as
    "quantity x name @ $price". *)
Theorem well_formed_items_drawn (inv : invoice) (y_pos : Z)
    (parsed : list (string * string * string)) :
  parsed <> [] ->
  Forall item_fields_plain parsed ->
  items inv = str_join "|" (map item_entry parsed) ->
  item_lines inv y_pos
  = (imap (fun i '(name, quantity, price) =>
             (y_pos - 30 - 15 * (Z.of_nat i + 1),
              quantity ++ " x " ++ name ++ " @ $" ++ price)) parsed,
     y_pos - 30 - 15 * Z.of_nat (length parsed)).
Proof.
  intros Hne H Hitems.
  assert (str_split "|" (items inv) = map item_entry parsed) as Hsplit.
  { rewrite Hitems. apply str_split_join; [destruct parsed; [congruence|discriminate]|].
    apply Forall_map. eapply Forall_impl; [exact H|].
    intros item Hi. apply (item_text_entry item Hi). }
  assert (items inv <> "") as Hitems'.
  { intros Hempty. rewrite Hempty in Hsplit. destruct parsed as [|item [|item' parsed]];
      [congruence| |discriminate Hsplit].
    apply Forall_cons in H as [Hi _]. destruct (item_text_entry item Hi) as [_ Ht].
    cbn in Hsplit. injection Hsplit as Hentry. rewrite <- Hentry in Ht. discriminate Ht. }
  unfold item_lines. destruct (items inv) eqn:Hi; [congruence|]. rewrite Hsplit.
  rewrite (surjective_pairing (item_lines_from _ _)).
  rewrite item_lines_from_entries by exact H.
  rewrite item_lines_from_end, length_map. reflexivity.
Qed.

(** ** The delimiter *)

Lemma process_rows_all_short (filename : string) (row_num : nat) (rows : list (list string)) :
  Forall (fun row => (length row < 10)%nat) rows ->
  process_rows filename row_num rows
  = (map (fun i => Print (WarnInsufficientColumns i)) (seq row_num (length rows)), []).
Proof.
  intros H. revert row_num. induction H as [|row rows Hrow H IH]; intros row_num; [reflexivity|].
  cbn [process_rows]. rewrite (IH (S row_num)). unfold process_row.
  destruct (Nat.ltb_spec (length row) 10) as [_|Hge]; [reflexivity|lia].
Qed.

Lemma parse_line_length (d : ascii) (line : string) :
  (length (PyCsv.parse_line d line) <= S (count_char d line))%nat.
Proof.
  unfold PyCsv.parse_line. destruct line as [|c line]; [cbn; lia|].
  unfold count_char. rewrite split_fields_length. lia.
Qed.


(** ** The totals block *)

(** A finite amount that passed the minimum check. *)
Lemma finite_amount (a : float) :
  (MIN_INVOICE_AMOUNT <=? a)%float = true ->
  (a <? infinity)%float = true ->
  exists m ex, Prim2SF a = S754_finite false m ex /\ 5 <= Zpos (digits2_pos m) + ex.
Proof.
  intros Hmin Hfin. pose proof (at_least_minimum _ Hmin) as Hmag.
  rewrite FloatAxioms.ltb_spec in Hfin.
  change (Prim2SF infinity) with (S754_infinity false) in Hfin.
  destruct (Prim2SF a) as [| [] | | [] m ex]; cbn [pos_mag] in Hmag; try tauto.
  - discriminate Hfin.
  - eexists _, _. split; [reflexivity|exact Hmag].
Qed.

(** A charge that is not negative and not drawn is zero. *)
Lemma not_positive_zero (y : float) :
  nonneg (Prim2SF y) -> (0 <? y)%float = false -> exists s, Prim2SF y = S754_zero s.
Proof.
  rewrite FloatAxioms.ltb_spec. change (Prim2SF 0) with (S754_zero false).
  destruct (Prim2SF y) as [s| [] | | [] m e]; cbn [nonneg]; try tauto;
    try (intros _ H; discriminate H).
  intros _ _. exists s. reflexivity.
Qed.

Lemma add_zero_r (K : Z) (x y : float) (s : bool) :
  pos_mag K (Prim2SF x) -> Prim2SF y = S754_zero s -> (x + y)%float = x.
Proof.
  intros Hx Hy. apply Prim2SF_inj. rewrite FloatAxioms.add_spec, Hy. unfold SF64add.
  destruct (Prim2SF x) as [| [] | | [] mx ex]; cbn [pos_mag] in Hx; try tauto; reflexivity.
Qed.

(** X10: on the page of an invoice with a finite amount the charges drawn
    between the subtotal and the total are the positive ones, and adding
    them to the subtotal in their order gives the total due: a charge
    left out is zero. *)
Theorem totals_block_adds_up (e : env) (inv : invoice) :
  PyDate.valid_date (year (now e)) (month (now e)) (day (now e)) = true ->
  (MIN_INVOICE_AMOUNT <=? amount inv)%float = true ->
  (amount inv <? infinity)%float = true ->
  exists charges,
    totals_lines inv (tax_of e inv) (late_fee_of e inv)
    = (("Subtotal:", amount inv) :: charges
       ++ [("Total Due:", pdf_total (pdf_of e inv))])%list
    /\ Forall (fun line => (0 <? snd line)%float = true) charges
    /\ fold_left (fun acc line => (acc + snd line)%float) charges (amount inv)
       = pdf_total (pdf_of e inv).
Proof.
  intros Hnow Hmin Hfin. pose proof (at_least_minimum _ Hmin) as Hmag.
  destruct (finite_amount _ Hmin Hfin) as (m & ex & Ha & Hm).
  pose proof (tax_nonneg e inv m ex Ha Hm) as Htax.
  pose proof (late_fee_nonneg e inv Hnow Hmag) as Hfee.
  pose proof (add_pos_mag 5 _ _ Hmag Htax ltac:(lia)) as Hsum.
  unfold totals_lines. cbn [pdf_of pdf_total]. unfold invoice_total.
  destruct (0 <? tax_of e inv)%float eqn:Ht; destruct (0 <? late_fee_of e inv)%float eqn:Hf;
    cbn [app].
  - exists [("Tax:", tax_of e inv); ("Late Fee:", late_fee_of e inv)].
    split; [reflexivity|]. split; [repeat constructor; assumption|reflexivity].
  - exists [("Tax:", tax_of e inv)].
    split; [reflexivity|]. split; [repeat constructor; assumption|]. cbn [fold_left snd].
    destruct (not_positive_zero _ Hfee Hf) as [s Hz].
    symmetry. exact (add_zero_r 5 _ _ s Hsum Hz).
  - exists [("Late Fee:", late_fee_of e inv)].
    split; [reflexivity|]. split; [repeat constructor; assumption|]. cbn [fold_left snd].
    destruct (not_positive_zero _ Htax Ht) as [s Hz].
    rewrite (add_zero_r 5 _ _ s Hmag Hz). reflexivity.
  - exists []. split; [reflexivity|]. split; [constructor|]. cbn [fold_left].
    destruct (not_positive_zero _ Htax Ht) as [s Hz].
    destruct (not_positive_zero _ Hfee Hf) as [s' Hz'].
    rewrite (add_zero_r 5 _ _ s Hmag Hz). symmetry. exact (add_zero_r 5 _ _ s' Hmag Hz').
Qed.

(** ** Exempt customers *)

(** X5: a customer whose override rate is zero is charged no tax on a
    finite amount, in every state and every month, and nothing is
    printed, known state or not. *)
Theorem zero_override_no_tax (e : env) (inv : invoice) :
  CUSTOMER_TAX_OVERRIDES !! customer_id inv = Some 0%float ->
  (MIN_INVOICE_AMOUNT <=? amount inv)%float = true ->
  (amount inv <? infinity)%float = true ->
  calculate_tax e inv = ([], Returns 0%float).
Proof.
  intros Ho Hmin Hfin.
  destruct (finite_amount _ Hmin Hfin) as (m & ex & Ha & Hm).
  destruct (taxable_amount_finite _ _ _ Ha Hm) as (m' & e' & Hb & _).
  assert (resolve_rate inv = ([], Returns 0%float)) as Hr
    by (unfold resolve_rate; rewrite Ho; reflexivity).
  rewrite (calculate_tax_eq e inv [] 0%float Hr). do 2 f_equal.
  assert (Prim2SF (quarterly_adjustment (month (now e)) 0) = S754_zero false) as Hz
    by (unfold quarterly_adjustment; destruct (10 <=? month (now e)); reflexivity).
  assert (Prim2SF (taxable_amount (amount inv) * quarterly_adjustment (month (now e)) 0)
          = S754_zero false) as Hprod
    by (rewrite FloatAxioms.mul_spec, Hb, Hz; reflexivity).
  rewrite (round2_zero _ _ Hprod). apply Prim2SF_inj. exact Hprod.
Qed.

(** ** The name of the document *)

Lemma replace_removes (a b : ascii) (s : string) :
  a <> b -> PyStr.contains a (PyStr.replace a b s) = false.
Proof.
  intros Hab. unfold PyStr.contains, PyStr.replace.
  rewrite list_ascii_of_string_of_list_ascii.
  induction (list_ascii_of_string s) as [|c l IH]; [reflexivity|].
  cbn [map existsb]. rewrite IH, orb_false_r.
  destruct (Ascii.eqb_spec c a) as [->|Hc]; apply Ascii.eqb_neq; congruence.
Qed.

Lemma replace_absent (a b : ascii) (s : string) :
  PyStr.contains a s = false -> PyStr.replace a b s = s.
Proof.
  unfold PyStr.contains, PyStr.replace. intros H.
  rewrite <- (string_of_list_ascii_of_string s) at 2. f_equal.
  induction (list_ascii_of_string s) as [|c l IH]; [reflexivity|].
  cbn [existsb] in H. apply orb_false_elim in H as [Hc Hl].
  cbn [map]. rewrite (IH Hl), Ascii.eqb_sym, Hc. reflexivity.
Qed.

Lemma replace_length (a b : ascii) (s : string) :
  String.length (PyStr.replace a b s) = String.length s.
Proof.
  unfold PyStr.replace.
  rewrite <- (string_of_list_ascii_of_string s) at 2.
  induction (list_ascii_of_string s) as [|c l IH]; [reflexivity|].
  cbn [map string_of_list_ascii String.length]. rewrite IH. reflexivity.
Qed.

(** X7: the date in the name of a document holds no slash; it is as long
    as the invoice date and is the invoice date itself when that holds no
    slash. *)
Theorem pdf_date_has_no_slash (e : env) (inv : invoice) :
  PyStr.contains "/" (pdf_date (pdf_of e inv)) = false
  /\ String.length (pdf_date (pdf_of e inv)) = String.length (invoice_date inv)
  /\ (PyStr.contains "/" (invoice_date inv) = false ->
      pdf_date (pdf_of e inv) = invoice_date inv).
Proof.
  cbn [pdf_of pdf_date]. split; [apply replace_removes; discriminate|].
  split; [apply replace_length|apply replace_absent].
Qed.

(** ** Due dates in the three formats *)

Lemma digit_char_spec (k : Z) :
  0 <= k <= 9 ->
  PyStr.is_digit (digit_char k) = true /\ PyStr.digit_value (digit_char k) = k.
Proof.
  intros H.
  assert (k = 0 \/ k = 1 \/ k = 2 \/ k = 3 \/ k = 4 \/ k = 5 \/ k = 6 \/ k = 7 \/ k = 8 \/ k = 9)
    as Hk by lia.
  repeat (destruct Hk as [->|Hk]); try subst k; split; reflexivity.
Qed.

Lemma digit_not_separator (c : ascii) :
  PyStr.is_digit c = true -> Ascii.eqb "/" c = false /\ Ascii.eqb "-" c = false.
Proof.
  intros H. split; destruct (Ascii.eqb_spec "/" c) as [<-|]; try reflexivity;
    try discriminate H; destruct (Ascii.eqb_spec "-" c) as [<-|]; try reflexivity;
    discriminate H.
Qed.

Lemma first_match_flat_map {A} (f : A -> list (datetime * list ascii)) (x : A) (l : list A)
    (res : datetime * list ascii) :
  (exists rest, f x = res :: rest) -> exists rest, flat_map f (x :: l) = res :: rest.
Proof. intros [rest H]. cbn [flat_map]. rewrite H. eexists. reflexivity. Qed.

Lemma re_m_two_digits (m : Z) (r : list ascii) :
  1 <= m <= 12 -> exists tail, PyDate.re_m (two_digits m ++ r) = (m, r) :: tail.
Proof.
  intros H.
  assert (m = 1 \/ m = 2 \/ m = 3 \/ m = 4 \/ m = 5 \/ m = 6 \/ m = 7 \/ m = 8 \/ m = 9
          \/ m = 10 \/ m = 11 \/ m = 12) as Hm by lia.
  repeat (destruct Hm as [->|Hm]); try subst m; eexists; reflexivity.
Qed.

Lemma re_d_two_digits (d : Z) (r : list ascii) :
  1 <= d <= 31 -> exists tail, PyDate.re_d (two_digits d ++ r) = (d, r) :: tail.
Proof.
  intros H.
  assert (d = 1 \/ d = 2 \/ d = 3 \/ d = 4 \/ d = 5 \/ d = 6 \/ d = 7 \/ d = 8 \/ d = 9
          \/ d = 10 \/ d = 11 \/ d = 12 \/ d = 13 \/ d = 14 \/ d = 15 \/ d = 16 \/ d = 17
          \/ d = 18 \/ d = 19 \/ d = 20 \/ d = 21 \/ d = 22 \/ d = 23 \/ d = 24 \/ d = 25
          \/ d = 26 \/ d = 27 \/ d = 28 \/ d = 29 \/ d = 30 \/ d = 31) as Hd by lia.
  repeat (destruct Hd as [->|Hd]); try subst d; eexists; reflexivity.
Qed.

Lemma four_digits_spec (y : Z) :
  0 <= y <= 9999 ->
  Forall (fun c => PyStr.is_digit c = true) (four_digits y)
  /\ PyStr.digits_value (four_digits y) = y.
Proof.
  intros H. unfold four_digits.
  destruct (digit_char_spec (y / 1000)) as [H1 V1]; [Z.div_mod_to_equations; lia|].
  destruct (digit_char_spec (y / 100 mod 10)) as [H2 V2]; [Z.div_mod_to_equations; lia|].
  destruct (digit_char_spec (y / 10 mod 10)) as [H3 V3]; [Z.div_mod_to_equations; lia|].
  destruct (digit_char_spec (y mod 10)) as [H4 V4]; [Z.div_mod_to_equations; lia|].
  split; [repeat constructor; assumption|].
  unfold PyStr.digits_value. cbn [fold_left]. rewrite V1, V2, V3, V4.
  Z.div_mod_to_equations. lia.
Qed.

Lemma re_Y_four_digits (y : Z) (r : list ascii) :
  0 <= y <= 9999 -> PyDate.re_Y (four_digits y ++ r) = [(y, r)].
Proof.
  intros H. destruct (four_digits_spec y H) as [Hd Hv]. revert Hd Hv.
  unfold four_digits. cbn [app]. intros Hd Hv.
  apply Forall_cons in Hd as [H1 Hd]. apply Forall_cons in Hd as [H2 Hd].
  apply Forall_cons in Hd as [H3 Hd]. apply Forall_cons in Hd as [H4 _].
  unfold PyDate.re_Y. rewrite H1, H2, H3, H4, Hv. reflexivity.
Qed.

Lemma first_match_nil (acc : datetime) (s : list ascii) : first_match [] acc s (acc, s).
Proof. exists []. reflexivity. Qed.

Lemma first_match_Lit (c : ascii) (fmt : list PyDate.directive) (acc : datetime)
    (s : list ascii) (res : datetime * list ascii) :
  first_match fmt acc s res -> first_match (PyDate.Lit c :: fmt) acc (c :: s) res.
Proof. intros [rest H]. exists rest. cbn [PyDate.matches]. rewrite Ascii.eqb_refl. exact H. Qed.

Lemma first_match_Dm (m : Z) (fmt : list PyDate.directive) (acc : datetime)
    (s : list ascii) (res : datetime * list ascii) :
  1 <= m <= 12 ->
  first_match fmt {| year := year acc; month := m; day := day acc |} s res ->
  first_match (PyDate.Dm :: fmt) acc (two_digits m ++ s) res.
Proof.
  intros Hm H. unfold first_match. cbn [PyDate.matches].
  destruct (re_m_two_digits m s Hm) as [tail ->].
  apply first_match_flat_map. exact H.
Qed.

Lemma first_match_Dd (d : Z) (fmt : list PyDate.directive) (acc : datetime)
    (s : list ascii) (res : datetime * list ascii) :
  1 <= d <= 31 ->
  first_match fmt {| year := year acc; month := month acc; day := d |} s res ->
  first_match (PyDate.Dd :: fmt) acc (two_digits d ++ s) res.
Proof.
  intros Hd H. unfold first_match. cbn [PyDate.matches].
  destruct (re_d_two_digits d s Hd) as [tail ->].
  apply first_match_flat_map. exact H.
Qed.

Lemma first_match_DY (y : Z) (fmt : list PyDate.directive) (acc : datetime)
    (s : list ascii) (res : datetime * list ascii) :
  0 <= y <= 9999 ->
  first_match fmt {| year := y; month := month acc; day := day acc |} s res ->
  first_match (PyDate.DY :: fmt) acc (four_digits y ++ s) res.
Proof.
  intros Hy H. unfold first_match. cbn [PyDate.matches].
  rewrite (re_Y_four_digits y s Hy). apply first_match_flat_map. exact H.
Qed.

Lemma strptime_first_match (l : list ascii) (fmt : list PyDate.directive) (d : datetime) :
  first_match fmt {| year := 1900; month := 1; day := 1 |} l (d, []) ->
  PyDate.valid_date (year d) (month d) (day d) = true ->
  PyDate.strptime (string_of_list_ascii l) fmt = Some d.
Proof.
  intros [rest H] Hv. unfold PyDate.strptime.
  rewrite list_ascii_of_string_of_list_ascii, H, Hv. reflexivity.
Qed.

Lemma strptime_no_match (l : list ascii) (fmt : list PyDate.directive) :
  PyDate.matches fmt {| year := 1900; month := 1; day := 1 |} l = [] ->
  PyDate.strptime (string_of_list_ascii l) fmt = None.
Proof.
  intros H. unfold PyDate.strptime. rewrite list_ascii_of_string_of_list_ascii, H. reflexivity.
Qed.

(** A month is not followed by a slash when the second and the third
    character are not slashes. *)
Lemma month_without_slash (fmt : list PyDate.directive) (acc : datetime)
    (c1 c2 c3 : ascii) (r : list ascii) :
  Ascii.eqb "/" c2 = false -> Ascii.eqb "/" c3 = false ->
  PyDate.matches (PyDate.Dm :: PyDate.Lit "/" :: fmt) acc (c1 :: c2 :: c3 :: r) = [].
Proof.
  intros H2 H3. cbn [PyDate.matches]. unfold PyDate.re_m, PyDate.two, PyDate.one.
  destruct (Ascii.eqb "1" c1 && PyDate.in_range "0" "2" c2);
    destruct (Ascii.eqb "0" c1 && PyDate.in_range "1" "9" c2);
    destruct (PyDate.in_range "1" "9" c1);
    cbn [app flat_map]; rewrite ?H2, ?H3; reflexivity.
Qed.

(** A year does not start with two digits and a dash. *)
Lemma year_without_dash (c1 c2 c4 : ascii) (r : list ascii) :
  PyDate.re_Y (c1 :: c2 :: "-"%char :: c4 :: r) = [].
Proof.
  unfold PyDate.re_Y. destruct (PyStr.is_digit c1), (PyStr.is_digit c2); reflexivity.
Qed.

Lemma valid_date_bounds (y m d : Z) :
  PyDate.valid_date y m d = true -> 1 <= y <= 9999 /\ 1 <= m <= 12 /\ 1 <= d <= 31.
Proof.
  unfold PyDate.valid_date. rewrite !andb_true_iff, !Z.leb_le.
  pose proof (days_in_month_bounds y m). lia.
Qed.

Lemma two_digits_digits (n : Z) :
  0 <= n <= 99 -> Forall (fun c => PyStr.is_digit c = true) (two_digits n).
Proof.
  intros H. unfold two_digits.
  destruct (digit_char_spec (n / 10)) as [H1 _]; [Z.div_mod_to_equations; lia|].
  destruct (digit_char_spec (n mod 10)) as [H2 _]; [Z.div_mod_to_equations; lia|].
  repeat constructor; assumption.
Qed.

Lemma try_formats_written (d : datetime) (s : string) :
  PyDate.valid_date (year d) (month d) (day d) = true ->
  In s (written_forms d) ->
  try_formats s date_formats = Some d.
Proof.
  destruct d as [y m d]. cbn [year month day].
  intros Hv Hs. destruct (valid_date_bounds _ _ _ Hv) as (Hy & Hm & Hd).
  pose proof (two_digits_digits m ltac:(lia)) as Hmd.
  pose proof (two_digits_digits d ltac:(lia)) as Hdd.
  destruct (four_digits_spec y ltac:(lia)) as [Hyd _].
  unfold two_digits in Hmd, Hdd. unfold four_digits in Hyd.
  apply Forall_cons in Hmd as [Hm1 Hmd]. apply Forall_cons in Hmd as [Hm2 _].
  apply Forall_cons in Hdd as [Hd1 Hdd]. apply Forall_cons in Hdd as [Hd2 _].
  apply Forall_cons in Hyd as [Hy1 Hyd]. apply Forall_cons in Hyd as [Hy2 Hyd].
  apply Forall_cons in Hyd as [Hy3 _].
  destruct Hs as [<-|[<-|[<-|[]]]]; unfold date_formats; cbn [try_formats year month day].
  - (* MM/DD/YYYY *)
    unfold month_day_year. cbn [year month day].
    rewrite (strptime_first_match _ _ {| year := y; month := m; day := d |});
      [reflexivity| |exact Hv].
    apply first_match_Dm; [lia|]. apply first_match_Lit.
    apply first_match_Dd; [lia|]. apply first_match_Lit.
    rewrite <- (app_nil_r (four_digits y)).
    apply first_match_DY; [lia|]. apply first_match_nil.
  - (* YYYY-MM-DD *)
    unfold year_month_day. cbn [year month day].
    rewrite strptime_no_match.
    2:{ unfold four_digits. cbn [app].
        apply month_without_slash; apply digit_not_separator; assumption. }
    rewrite (strptime_first_match _ _ {| year := y; month := m; day := d |});
      [reflexivity| |exact Hv].
    apply first_match_DY; [lia|]. apply first_match_Lit.
    apply first_match_Dm; [lia|]. apply first_match_Lit.
    rewrite <- (app_nil_r (two_digits d)).
    apply first_match_Dd; [lia|]. apply first_match_nil.
  - (* MM-DD-YYYY *)
    unfold month_day_year. cbn [year month day].
    rewrite strptime_no_match.
    2:{ unfold two_digits. cbn [app].
        apply month_without_slash; [apply digit_not_separator; assumption|reflexivity]. }
    rewrite strptime_no_match.
    2:{ unfold two_digits. cbn [app PyDate.matches]. rewrite year_without_dash. reflexivity. }
    rewrite (strptime_first_match _ _ {| year := y; month := m; day := d |});
      [reflexivity| |exact Hv].
    apply first_match_Dm; [lia|]. apply first_match_Lit.
    apply first_match_Dd; [lia|]. apply first_match_Lit.
    rewrite <- (app_nil_r (four_digits y)).
    apply first_match_DY; [lia|]. apply first_match_nil.
Qed.


(** ** The properties on the sample inputs *)

Lemma first_invoice_returned :
  In first_invoice (result [] (process_csv_file one_file (CSV_INPUT_PATH ++ "a.csv"))).
Proof. vm_compute. left. reflexivity. Qed.


Lemma returned_invoices_come_from_rows_witness :
  exists i row,
    nth_error (PyCsv.reader "," short_row_file) (S i) = Some row
    /\ PyFloatParse.float_of_string (nth 6 row "") = Some (amount first_invoice)
    /\ state first_invoice = PyStr.upper (PyStr.strip (nth 4 row "")).
Proof.
  destruct (returned_invoices_come_from_rows
              one_file (CSV_INPUT_PATH ++ "a.csv") short_row_file first_invoice)
    as (i & row & Hrow & _ & Hamount & _ & _ & Hstate & _).
  - vm_compute. reflexivity.
  - exact first_invoice_returned.
  - exists i, row. split; [exact Hrow|]. split; [exact Hamount|exact Hstate].
Defined.

Lemma returned_invoices_normalised_witness : normalised first_invoice.
Proof.
  apply (returned_invoices_normalised one_file (CSV_INPUT_PATH ++ "a.csv")).
  exact first_invoice_returned.
Defined.

Lemma summary_counts_match_witness :
  exists ev total_processed total_failed,
    fst (main one_file)
    = (ev ++ [Print (ProcessingComplete total_processed total_failed)])%list
    /\ (total_processed + total_failed)%nat
       = length (flat_map (invoices_of one_file) (csv_files one_file)).
Proof.
  destruct (summary_counts_match one_file)
    as (ev & total_processed & total_failed & Hlast & _ & _ & Hsum).
  - vm_compute. reflexivity.
  - vm_compute. discriminate.
  - exists ev, total_processed, total_failed. split; [exact Hlast|exact Hsum].
Defined.

Lemma finite_amount_valuation_nonnegative_witness :
  pdf_total (pdf_of one_file third_invoice)
  = (amount third_invoice + tax_of one_file third_invoice
     + late_fee_of one_file third_invoice)%float
  /\ (0 <=? tax_of one_file third_invoice)%float = true
  /\ (0 <=? late_fee_of one_file third_invoice)%float = true
  /\ (0 <=? pdf_total (pdf_of one_file third_invoice))%float = true.
Proof.
  apply (finite_amount_valuation_nonnegative one_file third_invoice); vm_compute; reflexivity.
Defined.

Lemma zero_override_no_tax_witness :
  calculate_tax one_file first_invoice = ([], Returns 0%float).
Proof.
  apply (zero_override_no_tax one_file first_invoice); vm_compute; reflexivity.
Defined.

Lemma items_block_layout_witness :
  snd (item_lines odd_items_invoice 500) = 425
  /\ forall y text, In (y, text) (fst (item_lines odd_items_invoice 500)) -> 425 <= y <= 455.
Proof.
  destruct (items_block_layout odd_items_invoice 500) as (_ & Hend & Hdrawn & _).
  - discriminate.
  - assert (snd (item_lines odd_items_invoice 500) = 425) as Hy by (vm_compute; reflexivity).
    split; [exact Hy|]. intros y text H. rewrite <- Hy. exact (Hdrawn y text H).
Defined.

Lemma well_formed_items_drawn_witness :
  item_lines widgets_invoice 500
  = ([(455, "2 x Widget A @ $49.99"); (440, "1 x Widget B @ $99.99")], 440).
Proof.
  rewrite (well_formed_items_drawn widgets_invoice 500 widgets).
  - reflexivity.
  - discriminate.
  - repeat constructor.
  - reflexivity.
Defined.

Lemma totals_block_adds_up_witness :
  exists charges,
    totals_lines third_invoice (tax_of one_file third_invoice)
                 (late_fee_of one_file third_invoice)
    = (("Subtotal:", amount third_invoice) :: charges
       ++ [("Total Due:", pdf_total (pdf_of one_file third_invoice))])%list
    /\ Forall (fun line => (0 <? snd line)%float = true) charges
    /\ fold_left (fun acc line => (acc + snd line)%float) charges (amount third_invoice)
       = pdf_total (pdf_of one_file third_invoice).
Proof.
  apply (totals_block_adds_up one_file third_invoice); vm_compute; reflexivity.
Defined.


